(** * rpscrape: the scrape pipeline, URL discovery and the retry driver

    A shallow embedding of [scripts/rpscrape.py] and [scripts/retry_failed.py]
    and the properties of their ordering, failure isolation, filtering,
    clamping, date extraction and log backup.

    Layout:
    - [Py]          the Python built-ins the two scripts call
                    ([str.split], [str.splitlines], [str.replace], [sorted],
                    [list.sort], [str], [max]/[min], [pathlib] suffixes),
                    exceptions and the two effect monads;
    - [RpScrape]    [get_race_urls], [get_race_urls_date], [scrape_races]
                    and its nested worker [process];
    - [RetryFailed] [extract_dates] and [main] of the retry driver;
    - [Stated]      the predicates the properties are phrased with;
    - [Sample]      concrete collaborators and inputs;
    then the properties: the built-ins, date extraction, the backup path,
    the retry driver, URL discovery, the worker, the pipeline, the worker
    count.

    Network, parsing and sub-processes are collaborators: they are taken
    as functions that return a value or raise.  The completion order of
    the concurrent jobs is the function [as_completed]. *)

From Stdlib Require Import ZArith NArith String Ascii DecimalString.
From stdpp Require Import base list gmap sets sorting.

Local Open Scope N_scope.
Local Open Scope nat_scope.

(* ===================================================================== *)
(** * Python built-ins *)
(* ===================================================================== *)

Module Py.

(** A Python [str] is a sequence of Unicode code points. *)
Definition char := N.
Definition str := list char.

(** A literal of the source, read as its code points. *)
Definition lit (s : string) : str := N_of_ascii <$> list_ascii_of_string s.
Global Arguments lit : simpl never.

Definition LF : char := 10%N.
Definition CR : char := 13%N.
Definition SLASH : char := 47%N.
Definition HYPHEN : char := 45%N.
Definition SPACE : char := 32%N.
Definition APOSTROPHE : char := 39%N.
Definition DOT : char := 46%N.

(** [s.split(sep)] for a one-character separator: always at least one piece. *)
Fixpoint split (sep : char) (s : str) : list str :=
  match s with
  | [] => [[]]
  | c :: s' =>
      if (c =? sep)%N then [] :: split sep s'
      else match split sep s' with
           | [] => [[c]]
           | w :: ws => (c :: w) :: ws
           end
  end.

(** [sep.join(pieces)]. *)
Fixpoint join (sep : str) (pieces : list str) : str :=
  match pieces with
  | [] => []
  | [p] => p
  | p :: ps => p ++ sep ++ join sep ps
  end.

(** The line boundaries of [str.splitlines]: LF, VT, FF, CR, FS, GS, RS,
    NEL, LINE SEPARATOR and PARAGRAPH SEPARATOR. *)
Definition is_linebreak (c : char) : bool :=
  bool_decide (c ∈ [10; 11; 12; 13; 28; 29; 30; 133; 8232; 8233]%N).

(** [s.splitlines()]: the boundaries are dropped, CR LF counts as one
    boundary, and a final boundary opens no further (empty) line. *)
Fixpoint splitlines (s : str) : list str :=
  match s with
  | [] => []
  | c :: s' =>
      if is_linebreak c then
        [] :: (if (c =? CR)%N
               then match s' with
                    | d :: s'' => if (d =? LF)%N then splitlines s'' else splitlines s'
                    | [] => splitlines s'
                    end
               else splitlines s')
      else match splitlines s' with
           | [] => [[c]]
           | w :: ws => (c :: w) :: ws
           end
  end.

(** [s.replace(old, new)] for a one-character [old]. *)
Definition replace (old : char) (new : str) (s : str) : str :=
  s ≫= (λ c, if (c =? old)%N then new else [c]).

(** [a < b] on [str]: lexicographic on code points. *)
Fixpoint str_ltb (a b : str) : bool :=
  match a, b with
  | _, [] => false
  | [], _ :: _ => true
  | x :: a', y :: b' =>
      if (x <? y)%N then true
      else if (x =? y)%N then str_ltb a' b' else false
  end.

(** [sorted(xs, key=key)] and [xs.sort(key=key)]: a stable sort that
    compares keys with [<] only.  An element goes in front of the first
    already-placed element whose key is not smaller than its own. *)
Section Sort.
Context {A K : Type} (key : A → K) (ltb : K → K → bool).

Fixpoint insort (x : A) (l : list A) : list A :=
  match l with
  | [] => [x]
  | y :: l' => if ltb (key y) (key x) then y :: insort x l' else x :: l
  end.

Definition sort_by (l : list A) : list A := foldr insort [] l.

(** [key_le x y]: [x] may stand before [y] in sorted order;
    [key_lt x y]: it must. *)
Definition key_le (x y : A) : Prop := ltb (key y) (key x) = false.
Definition key_lt (x y : A) : Prop := ltb (key x) (key y) = true.
End Sort.

(** [sorted(xs)] on strings. *)
Definition sorted (l : list str) : list str := sort_by id str_ltb l.

(** Strictly ascending in the order of [<] on [str]. *)
Definition ascending (l : list str) : Prop :=
  StronglySorted (λ a b, str_ltb a b = true) l.

(** [sorted(s)] for a [set] of strings: the order in which the set is
    iterated does not matter to a sort of distinct elements. *)
Definition sorted_set (s : gset str) : list str := sorted (elements s).

(** [max(a, b)], [min(a, b)] and [str(n)] on [int]. *)
Definition max (a b : Z) : Z := Z.max a b.
Definition min (a b : Z) : Z := Z.min a b.
Definition str_of_int (n : Z) : str := lit (NilZero.string_of_int (Z.to_int n)).

(** Truthiness of a [str]: the empty string is falsy. *)
Definition truthy (s : str) : bool := negb (bool_decide (s = [])).

(** [l[-k]] for [k >= 1]: the [k]-th element from the end. *)
Definition from_end {A} (l : list A) (k : nat) : option A :=
  if decide (k ≤ length l) then l !! (length l - k) else None.

(** [enumerate(xs, start=n)]. *)
Fixpoint enumerate {A} (n : nat) (xs : list A) : list (nat * A) :=
  match xs with
  | [] => []
  | x :: xs' => (n, x) :: enumerate (S n) xs'
  end.

(** [s.rfind(c)]: the index of the last occurrence, [None] for Python's -1. *)
Fixpoint rfind (c : char) (s : str) : option nat :=
  match s with
  | [] => None
  | x :: s' =>
      match rfind c s' with
      | Some i => Some (S i)
      | None => if (x =? c)%N then Some 0 else None
      end
  end.

(** Exceptions.  [SystemExit] is what [sys.exit] raises; it is not an
    [Exception], so [except Exception] lets it through. *)
Inductive exn :=
  | ValueError (msg : str)
  | IndexError (msg : str)
  | KeyError (msg : str)
  | FileNotFoundError (msg : str)
  | VoidRaceError
  | Exception (msg : str)
  | SystemExit (code : Z).

Definition is_Exception (e : exn) : bool :=
  match e with SystemExit _ => false | _ => true end.

(** [str(exc)], as an f-string prints it. *)
Definition exn_str (e : exn) : str :=
  match e with
  | ValueError m | IndexError m | KeyError m | FileNotFoundError m | Exception m => m
  | VoidRaceError => []
  | SystemExit c => str_of_int c
  end.

(** The outcome of a call: a value, or a raised exception. *)
Inductive res (A : Type) :=
  | Ok (a : A)
  | Raise (e : exn).
Global Arguments Ok {A} a.
Global Arguments Raise {A} e.

Global Instance res_ret : MRet res := λ A a, Ok a.
Global Instance res_bind : MBind res := λ A B f m,
  match m with
  | Ok a => f a
  | Raise e => Raise e
  end.

(** Code that runs on a state [S] and may raise: the state reached when
    the exception is raised is kept. *)
Definition eff (S A : Type) : Type := S → S * res A.

Global Instance eff_ret {S} : MRet (eff S) := λ A a s, (s, Ok a).
Global Instance eff_bind {S} : MBind (eff S) := λ A B f m s,
  match m s with
  | (s', Ok a) => f a s'
  | (s', Raise e) => (s', Raise e)
  end.

Definition raise {S A} (e : exn) : eff S A := λ s, (s, Raise e).
Definition lift {S A} (r : res A) : eff S A := λ s, (s, r).
Definition get {S} : eff S S := λ s, (s, Ok s).
Definition modify {S} (f : S → S) : eff S () := λ s, (f s, Ok ()).

(** [sys.exit(code)]. *)
Definition sys_exit {S A} (code : Z) : eff S A := raise (SystemExit code).

(** Code that only adds to a record of what it did, and may raise. *)
Definition out (E A : Type) : Type := list E * res A.

Global Instance out_ret {E} : MRet (out E) := λ A a, ([], Ok a).
Global Instance out_bind {E} : MBind (out E) := λ A B f m,
  match m with
  | (t, Ok a) => let '(t', r) := f a in (t ++ t', r)
  | (t, Raise e) => (t, Raise e)
  end.

Definition emit {E} (e : E) : out E () := ([e], Ok ()).
Definition out_raise {E A} (e : exn) : out E A := ([], Raise e).
Definition out_lift {E A} (r : res A) : out E A := ([], r).

(** [for x in xs: body(x)]. *)
Fixpoint for_ {M : Type → Type} `{MBind M, MRet M} {A} (xs : list A)
    (body : A → M unit) : M unit :=
  match xs with
  | [] => mret ()
  | x :: xs' => body x ;; for_ xs' body
  end.

(** The exit status of a script whose [main] ended with [r]: 0 on a
    normal return, the code of [sys.exit], 1 on an uncaught exception. *)
Definition exit_status {A} (r : res A) : Z :=
  match r with
  | Ok _ => 0
  | Raise (SystemExit c) => c
  | Raise _ => 1
  end.

(** ** pathlib (POSIX flavour)

    A path is its [parts]; an absolute path starts with its root, the
    part ["/"] or, for a path that starts with exactly two slashes, the
    part ["//"]. *)
Definition Path := list str.

Definition is_root (part : str) : Prop := part = [SLASH] ∨ part = [SLASH; SLASH].

Global Instance is_root_dec part : Decision (is_root part).
Proof. unfold is_root. apply _. Defined.

Definition path_tail (p : Path) : list str :=
  match p with
  | a :: r => if decide (is_root a) then r else p
  | [] => []
  end.

(** [p.name]: the last part, the empty string for a bare root. *)
Definition path_name (p : Path) : str := default [] (last (path_tail p)).

(** [str(p)]. *)
Definition path_str (p : Path) : str :=
  match p with
  | a :: r => if decide (is_root a) then a ++ join [SLASH] r else join [SLASH] p
  | [] => [DOT]
  end.

(** The root of the path written [s]: none for a relative path. *)
Definition path_root (s : str) : list str :=
  match s with
  | [] => []
  | a :: s1 =>
      if decide (a ≠ SLASH) then []
      else match s1 with
           | b :: s2 =>
               if decide (b = SLASH ∧ head s2 ≠ Some SLASH) then [[SLASH; SLASH]]
               else [[SLASH]]
           | [] => [[SLASH]]
           end
  end.

(** The parts of the path written [s] below its root: the pieces between
    the slashes, but for the empty ones and the ones that are [.]. *)
Definition path_segments (s : str) : list str :=
  filter (λ part, part ≠ [] ∧ part ≠ [DOT]) (split SLASH s).

(** [Path(s)] *)
Definition path_of_str (s : str) : Path := path_root s ++ path_segments s.

(** [p / s]: an absolute [s] replaces [p]. *)
Definition path_div (p : Path) (s : str) : Path :=
  if decide (head s = Some SLASH) then path_of_str s else p ++ path_segments s.

(** [p.anchor]: the root of an absolute path, the empty string otherwise. *)
Definition path_anchor (p : Path) : str :=
  match p with
  | a :: _ => if decide (is_root a) then a else []
  | [] => []
  end.

(** [p.relative_to(other)]: [other] has to be [p] or one of its parents.
    The message is the one of Python 3.12, for paths without a quote. *)
Definition relative_to (p other : Path) : res Path :=
  if decide (path_anchor p = path_anchor other ∧ take (length other) p = other)
  then Ok (drop (length other) p)
  else Raise (ValueError (lit "'" ++ path_str p ++ lit "' is not in the subpath of '"
                          ++ path_str other ++ lit "'")).

(** [p.suffix]: from the last dot of the name, unless that dot is the
    first or the last character of the name. *)
Definition path_suffix (p : Path) : str :=
  let name := path_name p in
  match rfind DOT name with
  | Some i => if decide (0 < i ∧ i < length name - 1) then drop i name else []
  | None => []
  end.

(** [p.with_suffix(suffix)]. *)
Definition with_suffix (p : Path) (suffix : str) : res Path :=
  if decide (SLASH ∈ suffix) then Raise (ValueError (lit "Invalid suffix"))
  else if decide ((suffix ≠ [] ∧ head suffix ≠ Some DOT) ∨ suffix = [DOT])
  then Raise (ValueError (lit "Invalid suffix"))
  else
    let name := path_name p in
    if decide (name = []) then Raise (ValueError (lit "empty name"))
    else
      let old_suffix := path_suffix p in
      let name' := if decide (old_suffix = []) then name ++ suffix
                   else take (length name - length old_suffix) name ++ suffix in
      Ok (take (length p - 1) p ++ [name']).

End Py.

Import Py.

(* ===================================================================== *)
(** * scripts/rpscrape.py *)
(* ===================================================================== *)

Module RpScrape.

(** The two values of [file_writer]: both open the file at a path for
    writing text, the second through [gzip]. *)
Inductive writer := writer_csv | writer_gzip.

(** What the pipeline does to the outside world, in the order it does it. *)
Inductive event :=
  | Print (msg : str)
  | Mkdir (dir : Path)
  | OpenWrite (w : writer) (path : str)
  | Write (path : str) (data : str)
  | Close (path : str)
  | BuildBetfair (urls : list str)
  | PoolStart (max_workers : Z)
  | Submit (idx : nat) (url : str)
  | HttpGet (url : str).

Definition trace := list event.

Definition print (msg : str) : out event () := emit (Print msg).

(** [with file_writer(path) as f: body]: the file is opened for writing,
    which empties it, and is closed on every way out of the body. *)
Definition with_file (w : writer) (path : str) (body : out event ()) : out event () :=
  let '(t, r) := body in (OpenWrite w path :: t ++ [Close path], r).

Definition write (path : str) (data : str) : out event () := emit (Write path data).

(** What a trace leaves in the file at [path]: the data written to it
    since it was last opened for writing. *)
Definition file_step (path : str) (acc : list str) (e : event) : list str :=
  match e with
  | OpenWrite _ p => if decide (p = path) then [] else acc
  | Write p d => if decide (p = path) then acc ++ [d] else acc
  | _ => acc
  end.

Definition file_data (path : str) (t : trace) : list str := foldl (file_step path) [] t.

(** [settings.toml], as far as the pipeline reads it. *)
Record Toml := {
  betfair_data : bool;            (* .get('betfair_data', False) *)
  fields_betfair : list str       (* .get('fields', {}).get('betfair', {}).keys() *)
}.

(** An entry of [principleRaceResults]. *)
Record race_entry := {
  raceDatetime : str;
  raceInstanceUid : str           (* as the f-string formats it *)
}.

(** A course-name link of a results page, with its [attrib]. *)
Record anchor := { href : option str }.

(** A [Race] that was built: [race.race_info.r_type] and [race.csv_data]. *)
Record RaceObj := {
  r_type : str;
  csv_data : list str
}.

Definition first_failure {A} (outs : list (res A)) : res (list A) :=
  foldr (λ o acc, match o with
                  | Ok a => match acc with Ok l => Ok (a :: l) | Raise e => Raise e end
                  | Raise e => Raise e
                  end) (Ok []) outs.

Section Collaborators.
(** The modules the script imports, and the network. *)
Context {Doc BetfairData : Type}.

(** A built [Betfair]: [.rows] (each row's [to_dict().values()], a value
    being [None] or its [str]) and [.data]. *)
Record BetfairObj := {
  rows : list (list (option str));
  data : BetfairData
}.

Context
  (settings_toml : option Toml)
  (** [loads(requests.get(url, ...).text).get('data', {})
       .get('principleRaceResults', [])] *)
  (principleRaceResults : str → res (list race_entry))
  (** [html.fromstring(requests.get(url, ...).content)
       .xpath('//a[@data-test-selector="link-listCourseNameLink"]')] *)
  (listCourseNameLinks : str → res (list anchor))
  (** [courses(region)] of [utils.course] *)
  (courses : str → list (str * str))
  (** [requests.get(url, headers=random_header.header())] followed by
      reading [.content] *)
  (requests_get : str → res (list N))
  (** [html.fromstring(content)] *)
  (html_fromstring : list N → res Doc)
  (** [Race(url, doc, code, fields[, betfair.data])] *)
  (Race : str → Doc → str → list str → option BetfairData → res RaceObj)
  (** [Betfair(race_urls)] *)
  (Betfair : list str → res BetfairObj)
  (** the order in which [as_completed] yields the submitted futures *)
  (as_completed : list (nat * str) → list (nat * str)).

Definition url_course_base : str :=
  lit "https://www.racingpost.com:443/profile/course/filter/results".
Definition url_result_base : str := lit "https://www.racingpost.com/results".

(** The address of a race as [get_race_urls] builds it, spaces turned into
    hyphens and apostrophes dropped. *)
Definition race_url (course_id course : str) (race : race_entry) : str :=
  let race_date := take 10 (raceDatetime race) in
  let race_id := raceInstanceUid race in
  let race_url := url_result_base ++ [SLASH] ++ course_id ++ [SLASH] ++ course
                  ++ [SLASH] ++ race_date ++ [SLASH] ++ race_id in
  replace APOSTROPHE [] (replace SPACE [HYPHEN] race_url).

Definition race_list_url (code course_id year : str) : str :=
  url_course_base ++ [SLASH] ++ course_id ++ [SLASH] ++ year
  ++ [SLASH] ++ code ++ lit "/all-races".

(** The body of [for race in races] in [get_race_urls]. *)
Definition add_race (course_id course : str) (urls : gset str) (race : race_entry)
    : gset str :=
  {[ race_url course_id course race ]} ∪ urls.

(** The body of [for year in years]. *)
Definition add_year (code course_id course : str) (urls : gset str) (year : str)
    : res (gset str) :=
  races ← principleRaceResults (race_list_url code course_id year);
  if decide (races = []) then mret urls
  else mret (foldl (add_race course_id course) urls races).

(** The body of [for course_id, course in tracks]. *)
Definition add_track (code : str) (years : list str) (acc : res (gset str))
    (track : str * str) : res (gset str) :=
  foldl (λ acc year, urls ← acc; add_year code track.1 track.2 urls year) acc years.

Definition get_race_urls (tracks : list (str * str)) (years : list str) (code : str)
    : res (list str) :=
  urls ← foldl (add_track code years) (Ok ∅) tracks;
  mret (sorted_set urls).

(** The body of [for race in races] in [get_race_urls_date]. *)
Definition add_link (course_ids : gset str) (urls : gset str) (race : anchor)
    : res (gset str) :=
  match href race with
  | None => Raise (KeyError (lit "href"))
  | Some h =>
      match split SLASH h !! 2 with
      | None => Raise (IndexError (lit "list index out of range"))
      | Some course_id =>
          if decide (course_id ∈ course_ids)
          then Ok ({[ lit "https://www.racingpost.com" ++ h ]} ∪ urls)
          else Ok urls
      end
  end.

Definition results_url (race_date : str) : str :=
  lit "https://www.racingpost.com/results/" ++ race_date.

(** The body of [for race_date in dates]. *)
Definition add_date (course_ids : gset str) (acc : res (gset str)) (race_date : str)
    : res (gset str) :=
  urls ← acc;
  races ← listCourseNameLinks (results_url race_date);
  foldl (λ acc race, urls ← acc; add_link course_ids urls race) (Ok urls) races.

(** [dates] holds each date as [str(race_date)]. *)
Definition get_race_urls_date (dates : list str) (region : str) : res (list str) :=
  let course_ids : gset str := list_to_set ((courses region).*1) in
  urls ← foldl (add_date course_ids) (Ok ∅) dates;
  mret (sorted_set urls).

Definition jump_types : list str := [lit "Chase"; lit "Hurdle"; lit "NH Flat"].

(** The worker nested in [scrape_races]; [total], [code], [fields] and
    [betfair] are the variables it closes over. *)
Definition process (total : nat) (code : str) (fields : list str)
    (betfair : option BetfairObj) (idx : nat) (url : str)
    : out event (nat * list str) :=
  print (lit "[" ++ str_of_int (Z.of_nat idx) ++ lit "/" ++ str_of_int (Z.of_nat total)
         ++ lit "] Fetching " ++ url);;
  emit (HttpGet url);;
  match requests_get url with
  | Raise exc =>
      if is_Exception exc
      then print (lit "  ! Request failed: " ++ exn_str exc);; mret (idx, [])
      else out_raise exc
  | Ok resp_content =>
      doc ← out_lift (html_fromstring resp_content);
      match Race url doc code fields (data <$> betfair) with
      | Raise VoidRaceError =>
          print (lit "  ! Skipping void race");; mret (idx, [])
      | Raise exc =>
          if is_Exception exc
          then print (lit "  ! Failed to parse race: " ++ exn_str exc);; mret (idx, [])
          else out_raise exc
      | Ok race =>
          if decide (code = lit "flat" ∧ r_type race ≠ lit "Flat")
          then print (lit "  ! Skipping non-flat race");; mret (idx, [])
          else if decide (code = lit "jumps" ∧ r_type race ∉ jump_types)
          then print (lit "  ! Skipping non-jumps race");; mret (idx, [])
          else mret (idx, csv_data race)
      end
  end.

(** [for future in as_completed(future_map): results.append(future.result())]
    inside [with ThreadPoolExecutor(...)]: every submitted job runs, and
    the first exception met in completion order leaves the block.  The
    events of a job are kept together, jobs in completion order. *)
Definition gather (total : nat) (code : str) (fields : list str)
    (betfair : option BetfairObj) (jobs : list (nat * str))
    : out event (list (nat * list str)) :=
  let outs := (λ job, process total code fields betfair job.1 job.2)
                <$> as_completed jobs in
  (mjoin (outs.*1), first_failure (outs.*2)).

Definition betfair_enabled : bool :=
  match settings_toml with
  | Some toml => betfair_data toml
  | None => false
  end.

(** The block of [scrape_races] under
    [if fetch_betfair and settings.toml and settings.toml.get('betfair_data', False)]:
    it leaves the value of [betfair]. *)
Definition betfair_step (race_urls : list str) (folder_name file_name code : str)
    (file_writer : writer) (fetch_betfair : bool) : out event (option BetfairObj) :=
  if fetch_betfair && betfair_enabled then
    print (lit "Getting Betfair data...");;
    emit (BuildBetfair race_urls);;
    b ← out_lift (Betfair race_urls);
    let betfair_dir := path_div (path_div (path_of_str (lit "../data/betfair")) folder_name)
                         code in
    emit (Mkdir betfair_dir);;
    let betfair_path := path_str (path_div betfair_dir (file_name ++ lit ".csv")) in
    with_file file_writer betfair_path
      (let betfair_fields := default [] (fields_betfair <$> settings_toml) in
       let header := join (lit ",")
                       ([lit "date"; lit "region"; lit "off"; lit "horse"]
                        ++ betfair_fields) in
       write betfair_path (header ++ [LF]);;
       for_ (rows b) (λ row,
         let values := default [] <$> row in
         write betfair_path (join (lit ",") values ++ [LF])));;
    mret (Some b)
  else mret None.

(** The rest of [scrape_races], from [total = len(race_urls)] on. *)
Definition main_pass (betfair : option BetfairObj) (race_urls : list str)
    (file_path : Path) (code : str) (file_writer : writer) (fields : list str)
    (csv_header : str) (jobs : Z) : out event () :=
  let total := length race_urls in
  if decide (total = 0) then
    print (lit "No races found to scrape.")
  else
    let jobs := max 1 (min 10 jobs) in
    print (lit "Scraping " ++ str_of_int (Z.of_nat total) ++ lit " races with "
           ++ str_of_int jobs ++ lit " worker(s)...");;
    emit (PoolStart jobs);;
    let submitted := enumerate 1 race_urls in
    for_ submitted (λ '(idx, url), emit (Submit idx url));;
    results ← gather total code fields betfair submitted;
    let results := sort_by fst Nat.ltb results in
    with_file file_writer (path_str file_path)
      (write (path_str file_path) (csv_header ++ [LF]);;
       for_ results (λ '(_, rows),
         for_ rows (λ row, write (path_str file_path) (row ++ [LF]))));;
    rel_path ← out_lift (relative_to file_path (path_of_str (lit "../")));
    print (lit "Finished scraping." ++ [LF] ++ lit "Data path: rpscrape/"
           ++ path_str rel_path).

(** [Path('../data') / folder_name / code] *)
Definition out_dir_of (folder_name code : str) : Path :=
  path_div (path_div (path_of_str (lit "../data")) folder_name) code.

(** [out_dir / f'{file_name}.{file_extension}'] *)
Definition file_path_of (folder_name file_name file_extension code : str) : Path :=
  path_div (out_dir_of folder_name code) (file_name ++ lit "." ++ file_extension).

Definition scrape_races (race_urls : list str) (folder_name file_name file_extension : str)
    (code : str) (file_writer : writer) (fields : list str) (csv_header : str)
    (fetch_betfair : bool) (jobs : Z) : out event () :=
  let out_dir := out_dir_of folder_name code in
  emit (Mkdir out_dir);;
  let file_path := file_path_of folder_name file_name file_extension code in
  betfair ← betfair_step race_urls folder_name file_name code file_writer fetch_betfair;
  main_pass betfair race_urls file_path code file_writer fields csv_header jobs.

End Collaborators.

End RpScrape.

(* ===================================================================== *)
(** * scripts/retry_failed.py *)
(* ===================================================================== *)

Module RetryFailed.

Definition DEFAULT_JOBS : Z := 6.

(** The parsed command line: [log] is [Path(args.log).expanduser().resolve()],
    [region] is [None] without [-r], [jobs] defaults to [DEFAULT_JOBS]. *)
Record Args := {
  log : Path;
  region : option str;
  jobs : Z
}.

(** What the driver does, in the order it does it; a sub-run is recorded
    with its command line and the files as it found them. *)
Inductive event :=
  | Printed (msg : str)
  | Copied (src dst : Path)
  | Wrote (p : Path) (text : str)
  | Launched (cmd : list str) (files : gmap Path str).

(** The files, each as the text [read_text] gives for it, and the events
    so far. *)
Record World := {
  fs : gmap Path str;
  events : list event
}.

(** The events other than output to the terminal. *)
Definition actions (t : list event) : list event :=
  t ≫= (λ e, match e with Printed _ => [] | _ => [e] end).

Definition print (msg : str) : eff World () :=
  modify (λ w, {| fs := fs w; events := events w ++ [Printed msg] |}).

(** [p.exists()] *)
Definition exists_ (p : Path) : eff World bool :=
  w ← get; mret (bool_decide (is_Some (fs w !! p))).

(** [p.read_text(encoding='utf-8')] *)
Definition read_text (p : Path) : eff World str :=
  w ← get;
  match fs w !! p with
  | Some text => mret text
  | None => raise (FileNotFoundError (path_str p))
  end.

(** [p.write_text(text, encoding='utf-8')] *)
Definition write_text (p : Path) (text : str) : eff World () :=
  modify (λ w, {| fs := <[p := text]> (fs w); events := events w ++ [Wrote p text] |}).

(** [shutil.copyfile(src, dst)] *)
Definition copyfile (src dst : Path) : eff World () :=
  w ← get;
  match fs w !! src with
  | Some text =>
      modify (λ w, {| fs := <[dst := text]> (fs w); events := events w ++ [Copied src dst] |})
  | None => raise (FileNotFoundError (path_str src))
  end.

(** The body of [for line in ...] in [extract_dates]. *)
Definition add_line (dates : gset str) (line : str) : gset str :=
  let parts := split SLASH line in
  if decide (length parts < 2) then dates
  else
    match from_end parts 2 with
    | Some date_part =>
        if decide (length (split HYPHEN date_part) = 3)
        then {[ date_part ]} ∪ dates
        else dates
    | None => dates
    end.

Definition extract_dates (log_path : Path) : eff World (list str) :=
  text ← read_text log_path;
  mret (sorted_set (foldl add_line ∅ (splitlines text))).

(** [parts.index(x)]: [None] stands for the [ValueError]. *)
Fixpoint index (x : str) (parts : list str) : option nat :=
  match parts with
  | [] => None
  | y :: parts' => if decide (y = x) then Some 0 else S <$> index x parts'
  end.

(** The [try] block of [main] that infers the region: a [ValueError] of
    [index] is swallowed, an [IndexError] of the subscript is not. *)
Definition infer_region (region : option str) (log_path : Path) : res (option str) :=
  match region with
  | Some r => Ok (Some r)
  | None =>
      match index (lit "dates") log_path with
      | None => Ok None
      | Some i =>
          match log_path !! (i + 1) with
          | Some r => Ok (Some r)
          | None => Raise (IndexError (lit "tuple index out of range"))
          end
      end
  end.

Section Collaborators.
Context
  (** [sys.executable] *)
  (sys_executable : str)
  (** [Path(__file__).parent] *)
  (script_dir : Path)
  (** [subprocess.run(cmd)]: what the sub-run does to the files, and its
      return code *)
  (subprocess_run : list str → gmap Path str → gmap Path str * Z).

Definition run (cmd : list str) : eff World Z :=
  λ w, let '(fs', returncode) := subprocess_run cmd (fs w) in
       ({| fs := fs'; events := events w ++ [Launched cmd (fs w)] |}, Ok returncode).

(** The command line of the sub-run for date [d]. *)
Definition retry_cmd (region : str) (jobs : Z) (d : str) : list str :=
  let rpscrape := path_div script_dir (lit "rpscrape.py") in
  let date_arg := replace HYPHEN [SLASH] d in
  [sys_executable; path_str rpscrape; lit "-d"; date_arg;
   lit "-r"; region; lit "-j"; str_of_int jobs].

(** The body of [for d in dates]. *)
Definition retry_date (region : str) (jobs : Z) (d : str) : eff World () :=
  print (lit "Retrying " ++ d ++ lit "...");;
  let cmd := retry_cmd region jobs d in
  returncode ← run cmd;
  if decide (returncode ≠ 0%Z) then
    print (lit "  ! rpscrape failed for " ++ d ++ lit " (exit "
           ++ str_of_int returncode ++ lit ")")
  else mret ().

Definition main (args : Args) : eff World () :=
  let log_path := log args in
  found ← exists_ log_path;
  (if negb found then
     print (lit "Log file not found: " ++ path_str log_path);; sys_exit 1
   else mret ());;
  region ← lift (infer_region (region args) log_path);
  (if negb (from_option truthy false region) then
     print (lit "Region could not be inferred; please provide --region");; sys_exit 1
   else mret ());;
  let region := default [] region in
  dates ← extract_dates log_path;
  (if decide (dates = []) then
     print (lit "No dates found in log; nothing to retry.");; sys_exit 0
   else mret ());;
  let jobs := max 1 (min 10 (jobs args)) in
  backup_path ← lift (with_suffix log_path (path_suffix log_path ++ lit ".bak"));
  copyfile log_path backup_path;;
  print (lit "Backed up log to " ++ path_str backup_path);;
  write_text log_path [];;
  for_ dates (retry_date region jobs);;
  print (lit "Retry complete. Remaining failures (if any) are in the log.").

End Collaborators.

End RetryFailed.

(* ===================================================================== *)
(** * The predicates the properties are phrased with *)
(* ===================================================================== *)

Module Stated.

(** In the words of the specification, the date a log line contributes:
    its second-to-last '/'-delimited
    segment, when the line has at least two such segments and that
    segment splits into exactly three hyphen-delimited parts. *)
Definition date_of_line (line : str) : option str :=
  let segments := split SLASH line in
  if decide (2 ≤ length segments) then
    match from_end segments 2 with
    | Some d => if decide (length (split HYPHEN d) = 3) then Some d else None
    | None => None
    end
  else None.

(** The sibling of a path whose name is that of the path with [.bak]
    appended after its extension. *)
Definition backup_of (p : Path) : Path :=
  take (length p - 1) p ++ [path_name p ++ lit ".bak"].

(** A text with every space replaced by a hyphen and every apostrophe
    removed. *)
Fixpoint hyphenated (s : str) : str :=
  match s with
  | [] => []
  | c :: s' =>
      if decide (c = SPACE) then HYPHEN :: hyphenated s'
      else if decide (c = APOSTROPHE) then hyphenated s'
      else c :: hyphenated s'
  end.

(** The address of the listing of the races of a course in a year. *)
Definition listing_address (code course_id year : str) : str :=
  lit "https://www.racingpost.com:443/profile/course/filter/results/" ++ course_id
  ++ lit "/" ++ year ++ lit "/" ++ code ++ lit "/all-races".

(** The address of a race: under the results of the site, the course
    identifier, the name of the course, the date of the race (the first
    ten characters of its date and time) and the identifier of the race,
    spaces replaced by hyphens and apostrophes removed. *)
Definition race_address (course_id course : str) (race : RpScrape.race_entry) : str :=
  hyphenated (lit "https://www.racingpost.com/results/" ++ course_id ++ lit "/" ++ course
              ++ lit "/" ++ take 10 (RpScrape.raceDatetime race) ++ lit "/"
              ++ RpScrape.raceInstanceUid race).

(** URL [u] is the address of a race in the listing of a track and year. *)
Definition listed (principleRaceResults : str → res (list RpScrape.race_entry))
    (code : str) (track : str * str) (year : str) (u : str) : Prop :=
  ∃ races race,
    principleRaceResults (listing_address code track.1 year) = Ok races
    ∧ race ∈ races ∧ u = race_address track.1 track.2 race.

(** A course link has a target with a course identifier at its third
    '/'-delimited place. *)
Definition well_formed_link (a : RpScrape.anchor) : Prop :=
  ∃ h course_id, RpScrape.href a = Some h ∧ split SLASH h !! 2 = Some course_id.

(** URL [u] is the absolute address of a course link whose course
    identifier belongs to the configured courses. *)
Definition linked (course_ids : gset str) (a : RpScrape.anchor) (u : str) : Prop :=
  ∃ h course_id,
    RpScrape.href a = Some h ∧ split SLASH h !! 2 = Some course_id
    ∧ course_id ∈ course_ids ∧ u = lit "https://www.racingpost.com" ++ h.

(** The address of the page of the results of a day. *)
Definition results_address (race_date : str) : str :=
  lit "https://www.racingpost.com/results/" ++ race_date.

Definition date_listed (listCourseNameLinks : str → res (list RpScrape.anchor))
    (course_ids : gset str) (race_date : str) (u : str) : Prop :=
  ∃ links a,
    listCourseNameLinks (results_address race_date) = Ok links
    ∧ a ∈ links ∧ linked course_ids a u.

(** The rows a job contributes: those its worker returned. *)
Definition job_rows (r : res (nat * list str)) : list str :=
  match r with
  | Ok (_, rows) => rows
  | Raise _ => []
  end.

(** Events of a worker: output to the terminal and the fetch. *)
Definition worker_event (e : RpScrape.event) : Prop :=
  match e with
  | RpScrape.Print _ | RpScrape.HttpGet _ => True
  | _ => False
  end.

(** Events that are no part of the fan-out: neither the start of the
    pool, nor the submission of a job, nor the fetch of a page. *)
Definition side_event (e : RpScrape.event) : Prop :=
  match e with
  | RpScrape.PoolStart _ | RpScrape.Submit _ _ | RpScrape.HttpGet _ => False
  | _ => True
  end.

(** The side dataset the workers are given: the one built when
    enrichment is requested and enabled, none otherwise. *)
Definition built_betfair {BetfairData : Type} (settings_toml : option RpScrape.Toml)
    (Betfair : list str → res (RpScrape.BetfairObj (BetfairData := BetfairData)))
    (race_urls : list str) (fetch_betfair : bool)
    : option (RpScrape.BetfairObj (BetfairData := BetfairData)) :=
  if fetch_betfair && RpScrape.betfair_enabled settings_toml then
    match Betfair race_urls with
    | Ok b => Some b
    | Raise _ => None
    end
  else None.

(** A name that is no absolute path: it does not start with a slash. *)
Definition relative_name (s : str) : Prop := head s ≠ Some SLASH.

(** The side artifact of a run: the file named after the run, with the
    extension [csv], in the folder of the run and of the discipline under
    [../data/betfair]. *)
Definition side_dir_of (folder_name code : str) : Path :=
  path_div (path_div (path_of_str (lit "../data/betfair")) folder_name) code.
Definition side_path_of (folder_name file_name code : str) : str :=
  path_str (path_div (side_dir_of folder_name code) (file_name ++ lit ".csv")).

(** The lines of the side artifact: the header of the four fixed columns
    and the configured side columns, then one line per side row, a missing
    value as the empty string. *)
Definition side_lines {BetfairData : Type} (settings_toml : option RpScrape.Toml)
    (b : RpScrape.BetfairObj (BetfairData := BetfairData)) : list str :=
  (join (lit ",") ([lit "date"; lit "region"; lit "off"; lit "horse"]
                   ++ default [] (RpScrape.fields_betfair <$> settings_toml)) ++ [LF])
  :: ((λ row, join (lit ",") (default [] <$> row) ++ [LF]) <$> RpScrape.rows b).

(** What the side-dataset step records when it is given the side dataset
    [betfair]: nothing when there is none; otherwise the announcement, the
    build from the addresses, and the writing of the side artifact. *)
Definition side_events {BetfairData : Type} (settings_toml : option RpScrape.Toml)
    (betfair : option (RpScrape.BetfairObj (BetfairData := BetfairData)))
    (race_urls : list str) (folder_name file_name code : str)
    (file_writer : RpScrape.writer) : RpScrape.trace :=
  match betfair with
  | None => []
  | Some b =>
      [RpScrape.Print (lit "Getting Betfair data..."); RpScrape.BuildBetfair race_urls;
       RpScrape.Mkdir (side_dir_of folder_name code);
       RpScrape.OpenWrite file_writer (side_path_of folder_name file_name code)]
      ++ (RpScrape.Write (side_path_of folder_name file_name code)
            <$> side_lines settings_toml b)
      ++ [RpScrape.Close (side_path_of folder_name file_name code)]
  end.

(** The worker count a caller asked for, clamped into [1, 10]. *)
Definition clamp (requested : Z) : Z := Z.max 1 (Z.min 10 requested).

End Stated.

(* ===================================================================== *)
(** * Sample collaborators and inputs, to run the definitions on *)
(* ===================================================================== *)

Module Sample.
Import RetryFailed.

Definition log_text : str :=
  lit "dates/uk/2024-05-01/abc123" ++ [LF] ++ lit "dates/uk/2024-05-01/xyz789" ++ [LF]
  ++ lit "dates/ire/2024-05-02/foo" ++ [LF] ++ lit "garbage" ++ [LF] ++ lit "a/b-c/d".

Definition log_path : Path :=
  [lit "/"; lit "data"; lit "dates"; lit "uk"; lit "failed.log"].

Definition world0 : World :=
  {| fs := {[ log_path := log_text ]}; events := [] |}.

Definition args0 : Args := {| log := log_path; region := None; jobs := 42 |}.

Definition sys_executable : str := lit "/usr/bin/python3".
Definition script_dir : Path := [lit "/"; lit "app"; lit "scripts"].

(** A sub-run that fails, after which the caller's failure logging has
    added one line to the log. *)
Definition subprocess_run (cmd : list str) (files : gmap Path str)
    : gmap Path str * Z :=
  (<[ log_path := default [] (files !! log_path)
                  ++ lit "dates/uk/2024-06-01/new1" ++ [LF] ]> files, 1%Z).

(** A log path with no [dates] part, and a world with no log at all. *)
Definition stray_log_path : Path := [lit "/"; lit "tmp"; lit "failed.log"].
Definition stray_world : World :=
  {| fs := {[ stray_log_path := log_text ]}; events := [] |}.
Definition stray_args : Args := {| log := stray_log_path; region := None; jobs := 6 |}.
Definition empty_world : World := {| fs := ∅; events := [] |}.


(** Collaborators of the pipeline.  A page is its address; the address
    decides what the site, the parser and the extractor do with it. *)
Definition url_flat : str := lit "https://www.racingpost.com/results/32/newcastle/2024-05-01/1".
Definition url_hurdle : str := lit "https://www.racingpost.com/results/4/ayr/2024-05-01/2".
Definition url_void : str := lit "https://www.racingpost.com/results/4/ayr/2024-05-01/3".
Definition url_garbled : str := lit "https://www.racingpost.com/results/4/ayr/2024-05-01/4".
Definition url_down : str := lit "https://www.racingpost.com/results/4/ayr/2024-05-01/5".
Definition url_empty : str := lit "https://www.racingpost.com/results/4/ayr/2024-05-01/6".

Definition settings_toml : option RpScrape.Toml :=
  Some {| RpScrape.betfair_data := true; RpScrape.fields_betfair := [lit "bsp"; lit "wap"] |}.

(** The site: one address times out, one answers with an empty body. *)
Definition requests_get (url : str) : res (list N) :=
  if decide (url = url_down) then Raise (Exception (lit "Read timed out."))
  else if decide (url = url_empty) then Ok []
  else Ok url.

(** [lxml] refuses an empty document. *)
Definition html_fromstring (content : list N) : res str :=
  if decide (content = []) then Raise (Exception (lit "Document is empty"))
  else Ok content.

Definition Race (url : str) (doc : str) (code : str) (fields : list str)
    (betfair : option ()) : res RpScrape.RaceObj :=
  if decide (doc = url_void) then Raise VoidRaceError
  else if decide (doc = url_garbled) then Raise (Exception (lit "list index out of range"))
  else if decide (doc = url_hurdle)
  then Ok {| RpScrape.r_type := lit "Hurdle";
             RpScrape.csv_data := [lit "2024-05-01,Ayr,h1"; lit "2024-05-01,Ayr,h2"] |}
  else Ok {| RpScrape.r_type := lit "Flat";
             RpScrape.csv_data := [lit "2024-05-01,Newcastle,f1"] |}.

Definition Betfair (urls : list str) : res (RpScrape.BetfairObj (BetfairData := ())) :=
  Ok {| RpScrape.rows := [[Some (lit "2024-05-01"); Some (lit "gb"); None; Some (lit "Dobbin")]];
        RpScrape.data := () |}.

(** The jobs complete in the reverse of the order of submission. *)
Definition as_completed (jobs : list (nat * str)) : list (nat * str) := reverse jobs.

Definition courses (region : str) : list (str * str) :=
  [(lit "32", lit "Newcastle"); (lit "4", lit "Ayr")].

Definition principleRaceResults (url : str) : res (list RpScrape.race_entry) :=
  Ok [ {| RpScrape.raceDatetime := lit "2024-05-01T14:30:00+01:00";
          RpScrape.raceInstanceUid := lit "867530" |};
       {| RpScrape.raceDatetime := lit "2024-04-30T13:00:00+01:00";
          RpScrape.raceInstanceUid := lit "867529" |};
       {| RpScrape.raceDatetime := lit "2024-05-01T14:30:00+01:00";
          RpScrape.raceInstanceUid := lit "867530" |} ].

Definition listCourseNameLinks (url : str) : res (list RpScrape.anchor) :=
  Ok [ {| RpScrape.href := Some (lit "/results/4/ayr/2024-05-01/2") |};
       {| RpScrape.href := Some (lit "/results/32/newcastle/2024-05-01/1") |};
       {| RpScrape.href := Some (lit "/results/999/elsewhere/2024-05-01/9") |};
       {| RpScrape.href := Some (lit "/results/4/ayr/2024-05-01/2") |} ].

(** [scrape_races] and its worker, with these collaborators. *)
Definition process := RpScrape.process requests_get html_fromstring Race.
Definition scrape_races :=
  RpScrape.scrape_races settings_toml requests_get html_fromstring Race Betfair as_completed.

End Sample.

(* ===================================================================== *)
(** * scripts/utils/settings.py *)
(* ===================================================================== *)

Module Settings.

(** A decoded settings file, as far as the scripts read it.  A table is
    its (key, value) pairs in the order of the file; a key that is absent
    is [None]. *)
Record TomlDoc := {
  auto_update : option bool;
  betfair_data : option bool;
  gzip_output : option bool;
  fields : option (list (str * list (str * bool)))
}.

(** [d.get(key)] on a table. *)
Fixpoint dict_get {V} (key : str) (d : list (str * V)) : option V :=
  match d with
  | [] => None
  | (k, v) :: d' => if decide (k = key) then Some v else dict_get key d'
  end.

Definition default_path : str := lit "../settings/default_settings.toml".
Definition user_path : str := lit "../settings/user_settings.toml".

(** What [tomli.load] does with the bytes of a file. *)
Inductive loaded :=
  | Loaded (doc : TomlDoc)
  | TOMLDecodeError
  | LoadError (e : exn).

(** [os.path.isfile(p)] *)
Definition isfile (files : gmap str (list N)) (p : str) : bool :=
  bool_decide (is_Some (files !! p)).

Section Collaborators.
Context
  (** [tomli.load(f)], on the bytes of the file *)
  (tomli_load : list N → loaded).

(** [load_toml]; what it prints is what it adds to the record. *)
Definition load_toml (files : gmap str (list N)) : out str (option TomlDoc) :=
  let path := if isfile files user_path then user_path else default_path in
  if bool_decide (path = default_path) && negb (isfile files default_path) then
    out_raise (FileNotFoundError (default_path ++ lit " does not exist"))
  else
    match files !! path with
    | None => out_raise (FileNotFoundError path)
    | Some content =>
        match tomli_load content with
        | Loaded doc => mret (Some doc)
        | TOMLDecodeError => emit (lit "TomlParseError: " ++ path);; mret None
        | LoadError e => out_raise e
        end
    end.

End Collaborators.

(** The body of [for field, enabled in self.toml['fields'][group].items()]. *)
Definition add_field (fields : list str) (entry : str * bool) : list str :=
  if entry.2 then fields ++ [entry.1] else fields.

(** The body of [for group in self.toml.get('fields', {})]. *)
Definition add_group (table : list (str * list (str * bool))) (include_betfair : bool)
    (fields : list str) (group : str) : list str :=
  if bool_decide (group = lit "betfair") && negb include_betfair then fields
  else foldl add_field fields (default [] (dict_get group table)).

(** [get_fields], with [self.toml] as its first argument. *)
Definition get_fields (toml : option TomlDoc) (include_betfair : option bool) : list str :=
  match toml with
  | None => []
  | Some t =>
      let include_betfair :=
        match include_betfair with
        | None => default false (betfair_data t)
        | Some b => b
        end in
      let table := default [] (fields t) in
      foldl (add_group table include_betfair) [] (table.*1)
  end.

(** A [Settings] object. *)
Record SettingsObj := {
  toml : option TomlDoc;
  fields_list : list str;         (* self.fields *)
  csv_header : str
}.

(** [__init__], given what [load_toml] returned. *)
Definition init (loaded_toml : option TomlDoc) : SettingsObj :=
  match loaded_toml with
  | None => {| toml := None; fields_list := []; csv_header := [] |}
  | Some _ =>
      let fields := get_fields loaded_toml None in
      {| toml := loaded_toml; fields_list := fields; csv_header := join (lit ",") fields |}
  end.

(** What [scrape_races] reads of [settings.toml]. *)
Definition pipeline_view (t : TomlDoc) : RpScrape.Toml :=
  {| RpScrape.betfair_data := default false (betfair_data t);
     RpScrape.fields_betfair :=
       (default [] (dict_get (lit "betfair") (default [] (fields t)))).*1 |}.

End Settings.

(* ===================================================================== *)
(** * scripts/rpscrape.py: [check_for_update] and [main] *)
(* ===================================================================== *)

Module Cli.

(** What the command line does: what the pipeline does, and the update
    dialogue. *)
Inductive event :=
  | Pipeline (e : RpScrape.event)
  | Prompt (text : str)
  | PullLatest.

(** A computation of the pipeline, run from the command line. *)
Definition pipeline {A} (m : out RpScrape.event A) : out event A :=
  (Pipeline <$> m.1, m.2).

Definition print (msg : str) : out event () := emit (Pipeline (RpScrape.Print msg)).

(** A [datetime.date]. *)
Record date := {
  year : nat;
  month : nat;
  day : nat
}.

(** [a >= b] on dates. *)
Definition date_ge (a b : date) : bool :=
  if year b <? year a then true
  else if year a <? year b then false
  else if month b <? month a then true
  else if month a <? month b then false
  else day b <=? day a.

(** [s.zfill(width)] for a string of digits. *)
Definition zfill (width : nat) (s : str) : str :=
  replicate (width - length s) 48%N ++ s.

(** [d.isoformat()], which is also [str(d)]. *)
Definition isoformat (d : date) : str :=
  zfill 4 (str_of_int (Z.of_nat (year d))) ++ lit "-"
  ++ zfill 2 (str_of_int (Z.of_nat (month d))) ++ lit "-"
  ++ zfill 2 (str_of_int (Z.of_nat (day d))).

(** What [ArgParser.parse_args] leaves: the attributes of [args] that
    [main] reads, and [parser.dates], [parser.tracks], [parser.years] and
    [parser.jobs]. *)
Record Parsed := {
  arg_date : option str;
  arg_region : option str;
  arg_course : option str;
  arg_year : str;
  arg_type : str;
  dates : list date;
  tracks : list (str * str);
  years : list str;
  jobs : Z
}.

Section Collaborators.
Context {Doc BetfairData : Type}
  (** [Update().available()] *)
  (update_available : res bool)
  (** [input(prompt).strip().lower()] *)
  (answer : str → res str)
  (** [update.pull_latest()] *)
  (pull_latest : res bool)
  (** [course_name(args.course)] of [utils.course] *)
  (course_name : option str → res str)
  (** the collaborators of the pipeline *)
  (principleRaceResults : str → res (list RpScrape.race_entry))
  (listCourseNameLinks : str → res (list RpScrape.anchor))
  (courses : str → list (str * str))
  (requests_get : str → res (list N))
  (html_fromstring : list N → res Doc)
  (Race : str → Doc → str → list str → option BetfairData → res RpScrape.RaceObj)
  (Betfair : list str → res (RpScrape.BetfairObj (BetfairData := BetfairData)))
  (as_completed : list (nat * str) → list (nat * str)).

Definition check_for_update : out event bool :=
  available ← out_lift update_available;
  if negb available then mret false
  else
    let prompt := lit "Update available. Do you want to update? [y/N] " in
    emit (Prompt prompt);;
    choice ← out_lift (answer prompt);
    if decide (choice ≠ lit "y") then mret false
    else
      emit PullLatest;;
      success ← out_lift pull_latest;
      print (if success : bool then lit "Updated successfully." else lit "Failed to update.");;
      mret success.

(** [scrape_races], as [main] calls it: [settings] is the module's one
    [Settings] object. *)
Definition scrape (toml : Settings.TomlDoc) (race_urls : list str)
    (folder_name file_name file_extension code : str) (file_writer : RpScrape.writer)
    (fields : list str) (csv_header : str) (fetch_betfair : bool) (jobs : Z)
    : out event () :=
  pipeline (RpScrape.scrape_races (Some (Settings.pipeline_view toml)) requests_get
              html_fromstring Race Betfair as_completed race_urls folder_name file_name
              file_extension code file_writer fields csv_header fetch_betfair jobs).

(** The first date with the side dataset: [date(2024, 2, 1)]. *)
Definition betfair_since : date := {| year := 2024; month := 2; day := 1 |}.

(** The body of [for race_date in parser.dates]. *)
Definition scrape_date (toml : Settings.TomlDoc) (args : Parsed) (region : str)
    (file_extension : str) (file_writer : RpScrape.writer) (race_date : date)
    : out event () :=
  let folder_name := lit "dates/" ++ region in
  let file_name := region ++ lit "-" ++ isoformat race_date in
  race_urls ← out_lift (RpScrape.get_race_urls_date listCourseNameLinks courses
                          [isoformat race_date] region);
  let fetch_betfair := default false (Settings.betfair_data toml)
                       && date_ge race_date betfair_since in
  let fields := Settings.get_fields (Some toml) (Some true) in
  let csv_header := join (lit ",") fields in
  scrape toml race_urls folder_name file_name file_extension (arg_type args) file_writer
    fields csv_header fetch_betfair (jobs args).

(** [main] when the command line has arguments ([len(sys.argv) > 1]);
    [parsed] is what [parser.parse_args(sys.argv[1:])] does.  [sys.exit()]
    raises [SystemExit] with no code, which is exit status 0. *)
Definition main (settings_toml : option Settings.TomlDoc) (parsed : res Parsed)
    : out event () :=
  match settings_toml with
  | None => out_raise (SystemExit 0)
  | Some toml =>
      auto_update ←
        out_lift (match Settings.auto_update toml with
                  | Some b => Ok b
                  | None => Raise (KeyError (lit "auto_update"))
                  end);
      (if auto_update : bool then _ ← check_for_update; mret () else mret ());;
      let gzip := default false (Settings.gzip_output toml) in
      let file_extension := if gzip then lit "csv.gz" else lit "csv" in
      let file_writer := if gzip then RpScrape.writer_gzip else RpScrape.writer_csv in
      args ← out_lift parsed;
      if from_option truthy false (arg_date args) && from_option truthy false (arg_region args)
      then
        let region := default [] (arg_region args) in
        for_ (dates args) (scrape_date toml args region file_extension file_writer)
      else
        folder_name ←
          (if from_option truthy false (arg_region args)
           then mret (default [] (arg_region args))
           else out_lift (course_name (arg_course args)));
        let file_name := arg_year args in
        race_urls ← out_lift (RpScrape.get_race_urls principleRaceResults (tracks args)
                                (years args) (arg_type args));
        let fetch_betfair := default false (Settings.betfair_data toml) in
        let fields := Settings.get_fields (Some toml) (Some true) in
        let csv_header := join (lit ",") fields in
        scrape toml race_urls folder_name file_name file_extension (arg_type args)
          file_writer fields csv_header fetch_betfair (jobs args)
  end.

End Collaborators.

End Cli.

(* ===================================================================== *)
(** * Shapes of traces, to state what a run records *)
(* ===================================================================== *)

Module Shapes.
(** The sub-runs of a retry, one after the other: for each command the
    files as the sub-run finds them and its return code. *)
Fixpoint sub_runs (subprocess_run : list str → gmap Path str → gmap Path str * Z)
    (cmds : list (list str)) (files : gmap Path str) : list (gmap Path str * Z) :=
  match cmds with
  | [] => []
  | cmd :: cmds' =>
      (files, (subprocess_run cmd files).2)
      :: sub_runs subprocess_run cmds' (subprocess_run cmd files).1
  end.

(** What one turn of the loop over the dates leaves in the record. *)
Definition retry_turn (cmd_of : str → list str) (d : str)
    (found : gmap Path str * Z) : list RetryFailed.event :=
  [RetryFailed.Printed (lit "Retrying " ++ d ++ lit "...");
   RetryFailed.Launched (cmd_of d) found.1]
  ++ (if decide (found.2 ≠ 0%Z)
      then [RetryFailed.Printed (lit "  ! rpscrape failed for " ++ d ++ lit " (exit "
                                 ++ str_of_int found.2 ++ lit ")")]
      else []).

(** The addresses a trace fetches, in the order of the fetches. *)
Definition fetched (t : RpScrape.trace) : list str :=
  t ≫= (λ e, match e with RpScrape.HttpGet url => [url] | _ => [] end).

(** Events on a file: opening, writing, closing. *)
Definition file_event (e : RpScrape.event) : Prop :=
  match e with
  | RpScrape.OpenWrite _ _ | RpScrape.Write _ _ | RpScrape.Close _ => True
  | _ => False
  end.

(** The first line a worker prints. *)
Definition banner (idx total : nat) (url : str) : str :=
  lit "[" ++ str_of_int (Z.of_nat idx) ++ lit "/" ++ str_of_int (Z.of_nat total)
  ++ lit "] Fetching " ++ url.

(** The separator of the columns of a header. *)
Definition COMMA : char := 44%N.

(** The fields of a group that are switched on, in the order of the file. *)
Definition enabled_fields (entries : list (str * bool)) : list str :=
  (filter (λ entry, entry.2 = true) entries).*1.

(** The fields a group of the settings contributes. *)
Definition group_fields (include_betfair : bool) (group : str)
    (entries : list (str * bool)) : list str :=
  if bool_decide (group = lit "betfair") && negb include_betfair then []
  else enabled_fields entries.

(** The lists of addresses a trace builds a side dataset from. *)
Definition built (t : RpScrape.trace) : list (list str) :=
  t ≫= (λ e, match e with RpScrape.BuildBetfair urls => [urls] | _ => [] end).

(** What the pipeline did in a run of the command line. *)
Definition pipeline_events (t : list Cli.event) : RpScrape.trace :=
  t ≫= (λ e, match e with Cli.Pipeline e' => [e'] | _ => [] end).

(** The writers through which a trace opens files. *)
Definition writers (t : RpScrape.trace) : list RpScrape.writer :=
  t ≫= (λ e, match e with RpScrape.OpenWrite w _ => [w] | _ => [] end).
End Shapes.

(* ===================================================================== *)
(** * Further sample inputs *)
(* ===================================================================== *)

Module Fixtures.
(** A second race over jumps, and an extractor that knows it. *)
Definition url_chase : str := lit "https://www.racingpost.com/results/4/ayr/2024-05-01/7".

Definition Race (url : str) (doc : str) (code : str) (fields : list str)
    (betfair : option ()) : res RpScrape.RaceObj :=
  if decide (doc = url_chase)
  then Ok {| RpScrape.r_type := lit "Chase";
             RpScrape.csv_data := [lit "2024-05-01,Ayr,c1"] |}
  else Sample.Race url doc code fields betfair.

(** A log with lines, none of which holds a date. *)
Definition dateless_world : RetryFailed.World :=
  {| RetryFailed.fs :=
       {[ Sample.log_path := lit "garbage" ++ [LF] ++ lit "a/b-c/d" ++ [LF]
                             ++ lit "dates/uk/20240501/abc123" ]};
     RetryFailed.events := [] |}.

(** A sub-run that succeeds and leaves the files alone. *)
Definition quiet_run (cmd : list str) (files : gmap Path str) : gmap Path str * Z :=
  (files, 0%Z).

(** A sub-run that fails for the first of May and succeeds otherwise. *)
Definition mixed_run (cmd : list str) (files : gmap Path str) : gmap Path str * Z :=
  (files, if decide (cmd !! 3 = Some (lit "2024/05/01")) then 2%Z else 0%Z).

(** The lines of the sample log, in another order and with a repeat. *)
Definition shuffled_world : RetryFailed.World :=
  {| RetryFailed.fs :=
       {[ Sample.log_path :=
            lit "a/b-c/d" ++ [LF] ++ lit "dates/ire/2024-05-02/foo" ++ [LF]
            ++ lit "garbage" ++ [LF] ++ lit "dates/uk/2024-05-01/xyz789" ++ [LF]
            ++ lit "dates/uk/2024-05-01/abc123" ++ [LF] ++ lit "garbage" ]};
     RetryFailed.events := [] |}.

(** Listings of which the one of Ayr cannot be decoded. *)
Definition failing_listing (url : str) : res (list RpScrape.race_entry) :=
  if decide (url = RpScrape.race_list_url (lit "flat") (lit "4") (lit "2024"))
  then Raise (ValueError (lit "unexpected character: line 1 column 1 (char 0)"))
  else Sample.principleRaceResults url.

(** A results page with a link whose target has no course identifier. *)
Definition broken_links (url : str) : res (list RpScrape.anchor) :=
  Ok [ {| RpScrape.href := Some (lit "/results/4/ayr/2024-05-01/2") |};
       {| RpScrape.href := Some (lit "/results") |} ].

(** Settings with three groups of fields, enrichment switched off. *)
Definition settings_doc : Settings.TomlDoc :=
  {| Settings.auto_update := Some false;
     Settings.betfair_data := Some false;
     Settings.gzip_output := None;
     Settings.fields :=
       Some [(lit "race_info", [(lit "date", true); (lit "course", true);
                                (lit "going", false)]);
             (lit "betfair", [(lit "bsp", true); (lit "wap", false)]);
             (lit "runner_info", [(lit "horse", true)])] |}.

(** A decoder for which the bytes [!] are no TOML. *)
Definition tomli_load (content : list N) : Settings.loaded :=
  if decide (content = [33%N]) then Settings.TOMLDecodeError
  else Settings.Loaded settings_doc.

(** Settings with enrichment and compression switched on. *)
Definition enriched_doc : Settings.TomlDoc :=
  {| Settings.auto_update := Some false;
     Settings.betfair_data := Some true;
     Settings.gzip_output := Some true;
     Settings.fields :=
       Some [(lit "race_info", [(lit "date", true); (lit "course", true)]);
             (lit "betfair", [(lit "bsp", true); (lit "wap", true)])] |}.

Definition last_of_january : Cli.date := {| Cli.year := 2024; Cli.month := 1; Cli.day := 31 |}.
Definition first_of_february : Cli.date := {| Cli.year := 2024; Cli.month := 2; Cli.day := 1 |}.

(** The command line [-d 2024/01/31-2024/02/01 -r gb -t flat]. *)
Definition args_dates : Cli.Parsed :=
  {| Cli.arg_date := Some (lit "2024/01/31-2024/02/01");
     Cli.arg_region := Some (lit "gb");
     Cli.arg_course := None;
     Cli.arg_year := [];
     Cli.arg_type := lit "flat";
     Cli.dates := [last_of_january; first_of_february];
     Cli.tracks := [];
     Cli.years := [];
     Cli.jobs := 6 |}.

(** One day of that command line, with the sample collaborators. *)
Definition scrape_date (listCourseNameLinks : str → res (list RpScrape.anchor))
    (race_date : Cli.date) : out Cli.event () :=
  Cli.scrape_date listCourseNameLinks Sample.courses Sample.requests_get
    Sample.html_fromstring Sample.Race Sample.Betfair Sample.as_completed
    enriched_doc args_dates (lit "gb") (lit "csv.gz") RpScrape.writer_gzip race_date.
End Fixtures.



(* ===================================================================== *)
(** * Properties of the built-ins *)
(* ===================================================================== *)

Section SortFacts.
Context {A K : Type} (key : A → K) (ltb : K → K → bool).
Hypothesis ltb_asym : ∀ a b, ltb a b = true → ltb b a = false.
Hypothesis leb_trans : ∀ a b c, ltb b a = false → ltb c b = false → ltb c a = false.

Local Abbreviation kle := (key_le key ltb).
Local Abbreviation klt := (key_lt key ltb).

Lemma insort_perm x l : insort key ltb x l ≡ₚ x :: l.
Proof.
  induction l as [|y l IH]; simpl; [done|].
  destruct (ltb (key y) (key x)); [|done].
  rewrite IH. apply Permutation_swap.
Qed.

Lemma sort_by_perm l : sort_by key ltb l ≡ₚ l.
Proof.
  induction l as [|x l IH]; simpl; [done|].
  by rewrite insort_perm, IH.
Qed.

Lemma insort_sorted x l :
  StronglySorted kle l → StronglySorted kle (insort key ltb x l).
Proof.
  induction 1 as [|y l Hl IH Hy]; simpl.
  { repeat constructor. }
  destruct (ltb (key y) (key x)) eqn:Hyx.
  - constructor; [done|].
    rewrite insort_perm. constructor; [|done].
    unfold kle. by apply ltb_asym.
  - constructor; [by constructor|].
    constructor; [done|].
    eapply Forall_impl; [exact Hy|].
    intros z Hz. unfold kle in *. by eapply leb_trans.
Qed.

Lemma sort_by_sorted l : StronglySorted kle (sort_by key ltb l).
Proof.
  induction l as [|x l IH]; simpl; [constructor|].
  by apply insort_sorted.
Qed.

Lemma key_lt_le x y : klt x y → kle x y.
Proof. unfold klt, kle. apply ltb_asym. Qed.

(** A list whose keys already ascend strictly is what sorting any
    rearrangement of it gives back. *)
Lemma sort_by_unique l l' :
  l ≡ₚ l' → StronglySorted klt l' → sort_by key ltb l = l'.
Proof.
  intros Hperm Hl'.
  apply (StronglySorted_unique_strong kle).
  - intros x y Hx Hy Hxy Hyx.
    rewrite sort_by_perm, Hperm in Hx.
    apply list_elem_of_split in Hx as (l1 & l2 & ->).
    apply StronglySorted_app in Hl' as (Hcross & _ & Hr).
    apply StronglySorted_cons in Hr as [Hr _].
    rewrite Forall_forall in Hr.
    apply elem_of_app in Hy as [Hy|Hy].
    + specialize (Hcross y x Hy ltac:(left)).
      unfold klt, kle in *. congruence.
    + apply elem_of_cons in Hy as [->|Hy]; [done|].
      specialize (Hr y Hy). unfold klt, kle in *. congruence.
  - apply sort_by_sorted.
  - clear Hperm. induction Hl' as [|x s Hs IH Hx]; constructor; [done|].
    eapply Forall_impl; [exact Hx|]. intros y. apply key_lt_le.
  - by rewrite sort_by_perm.
Qed.

(** With distinct keys that are pairwise comparable the result
    ascends strictly. *)
Lemma sort_by_strict l :
  (∀ x y, x ∈ l → y ∈ l → ltb (key x) (key y) = false →
          ltb (key y) (key x) = false → x = y) →
  NoDup l → StronglySorted klt (sort_by key ltb l).
Proof.
  intros Htri Hnd.
  assert (NoDup (sort_by key ltb l)) as Hnd' by by rewrite sort_by_perm.
  assert (∀ x, x ∈ sort_by key ltb l → x ∈ l) as Hin
    by (intros x; by rewrite sort_by_perm).
  pose proof (sort_by_sorted l) as Hs.
  induction Hs as [|x s Hs IH Hx]; [constructor|].
  apply NoDup_cons in Hnd' as [Hxs Hnd'].
  constructor.
  - apply IH; [done|]. intros y Hy. apply Hin. by right.
  - rewrite Forall_forall in Hx |- *. intros y Hy.
    specialize (Hx y Hy). unfold kle, klt in *.
    destruct (ltb (key x) (key y)) eqn:E; [done|].
    assert (x = y) as -> by (apply Htri; [apply Hin; by left|apply Hin; by right|done..]).
    done.
Qed.
End SortFacts.

(** ** The order on strings *)

Lemma str_ltb_irrefl a : str_ltb a a = false.
Proof.
  induction a as [|x a IH]; simpl; [done|].
  by rewrite N.ltb_irrefl, N.eqb_refl.
Qed.

Lemma str_ltb_trans a b c :
  str_ltb a b = true → str_ltb b c = true → str_ltb a c = true.
Proof.
  revert b c. induction a as [|x a IH]; intros [|y b] [|z c]; simpl; try done.
  destruct (N.ltb_spec x y), (N.eqb_spec x y), (N.ltb_spec y z), (N.eqb_spec y z),
    (N.ltb_spec x z), (N.eqb_spec x z); try done; try lia.
  apply IH.
Qed.

Lemma str_ltb_asym a b : str_ltb a b = true → str_ltb b a = false.
Proof.
  intros Hab. destruct (str_ltb b a) eqn:Hba; [|done].
  by rewrite <-(str_ltb_irrefl a), (str_ltb_trans a b a).
Qed.

Lemma str_ltb_trichotomy a b :
  str_ltb a b = false → str_ltb b a = false → a = b.
Proof.
  revert b. induction a as [|x a IH]; intros [|y b]; simpl; try done.
  destruct (N.ltb_spec x y), (N.eqb_spec x y), (N.ltb_spec y x), (N.eqb_spec y x);
    try done; try lia.
  intros. f_equal; [done|]. by apply IH.
Qed.

Lemma str_leb_trans a b c :
  str_ltb b a = false → str_ltb c b = false → str_ltb c a = false.
Proof.
  intros Hab Hbc. destruct (str_ltb c a) eqn:Hca; [|done].
  destruct (str_ltb a b) eqn:Hab'.
  - destruct (str_ltb b c) eqn:Hbc'.
    + by rewrite (str_ltb_asym a c (str_ltb_trans a b c Hab' Hbc')) in Hca.
    + assert (b = c) as -> by by apply str_ltb_trichotomy. congruence.
  - assert (a = b) as -> by by apply str_ltb_trichotomy. congruence.
Qed.

Lemma ascending_NoDup l : ascending l → NoDup l.
Proof.
  induction 1 as [|x l Hl IH Hx]; constructor; [|done].
  intros Hin. rewrite Forall_forall in Hx.
  specialize (Hx x Hin). by rewrite str_ltb_irrefl in Hx.
Qed.

Lemma sorted_set_ascending (s : gset str) : ascending (sorted_set s).
Proof.
  apply (sort_by_strict id str_ltb str_ltb_asym str_leb_trans).
  - intros x y _ _. apply str_ltb_trichotomy.
  - apply NoDup_elements.
Qed.

Lemma elem_of_sorted_set (s : gset str) x : x ∈ sorted_set s ↔ x ∈ s.
Proof.
  unfold sorted_set, sorted. by rewrite sort_by_perm, elem_of_elements.
Qed.

(** ** [str.split] *)

Lemma split_nonempty sep s : split sep s ≠ [].
Proof.
  destruct s as [|c s]; simpl; [done|].
  destruct (c =? sep)%N; [done|]. by destruct (split sep s).
Qed.

Lemma split_app sep s t :
  split sep (s ++ sep :: t) = split sep s ++ split sep t.
Proof.
  induction s as [|c s IH]; simpl.
  - by rewrite N.eqb_refl.
  - destruct (c =? sep)%N; [by rewrite IH|].
    rewrite IH. pose proof (split_nonempty sep s).
    by destruct (split sep s).
Qed.

Lemma split_no_sep sep s : sep ∉ s → split sep s = [s].
Proof.
  induction s as [|c s IH]; intros Hs; [done|]. simpl.
  apply not_elem_of_cons in Hs as [Hc Hs].
  destruct (N.eqb_spec c sep) as [->|_]; [done|]. by rewrite IH.
Qed.

Lemma from_end_app_2 {A} (l : list A) x y : from_end (l ++ [x; y]) 2 = Some x.
Proof.
  unfold from_end. rewrite length_app. simpl.
  destruct (decide _) as [_|?]; [|lia].
  replace (length l + 2 - 2) with (length l + 0) by lia.
  by rewrite lookup_app_r, Nat.add_0_r, Nat.sub_diag by lia.
Qed.

(* ===================================================================== *)
(** * The retry driver: date extraction *)
(* ===================================================================== *)

Section ExtractDates.
Import RetryFailed Stated.

Lemma add_line_stated dates line :
  add_line dates line =
    match date_of_line line with
    | Some d => {[ d ]} ∪ dates
    | None => dates
    end.
Proof.
  unfold add_line, date_of_line.
  destruct (decide (length _ < 2)), (decide (2 ≤ length _)); try lia; [done|].
  destruct (from_end _ 2); [|done]. by destruct (decide _).
Qed.

Lemma elem_of_foldl_add_line lines acc d :
  d ∈ foldl add_line acc lines ↔
    d ∈ acc ∨ ∃ line, line ∈ lines ∧ date_of_line line = Some d.
Proof.
  revert acc. induction lines as [|l lines IH]; intros acc; simpl.
  { split; [by left|]. intros [?|(? & Hin & _)]; [done|]. by apply elem_of_nil in Hin. }
  rewrite IH, add_line_stated. split.
  - intros [Hd|(line & Hin & Hline)].
    + destruct (date_of_line l) as [d'|] eqn:Hl; [|by left].
      apply elem_of_union in Hd as [Hd|Hd]; [|by left].
      apply elem_of_singleton in Hd as ->. right. exists l. split; [left|done].
    + right. exists line. split; [by right|done].
  - intros [Hd|(line & Hin & Hline)].
    + left. destruct (date_of_line l); [|done]. apply elem_of_union. by right.
    + apply elem_of_cons in Hin as [->|Hin].
      * left. rewrite Hline. apply elem_of_union. left. by apply elem_of_singleton.
      * right. by exists line.
Qed.

(** Whatever stands in front of the last two segments of a line (the
    region among it) plays no part in what the line contributes. *)
Lemma date_of_line_prefix prefix date race_id :
  SLASH ∉ date → SLASH ∉ race_id →
  date_of_line (prefix ++ [SLASH] ++ date ++ [SLASH] ++ race_id) =
    if decide (length (split HYPHEN date) = 3) then Some date else None.
Proof.
  intros Hd Hr. unfold date_of_line. simpl.
  rewrite split_app, split_app, (split_no_sep _ date), (split_no_sep _ race_id) by done.
  simpl. rewrite from_end_app_2, length_app. simpl.
  destruct (decide (2 ≤ _)); [done|lia].
Qed.
End ExtractDates.

(** C6: on every log text [extract_dates] returns the strictly ascending
    (hence duplicate-free) list whose members are exactly the
    second-to-last '/'-segments of the lines that have at least two
    '/'-segments and whose second-to-last segment has exactly three
    hyphen-delimited parts; every other line contributes nothing, and what
    precedes the last two segments of a line, the region included, does not
    change what the line contributes. *)
Theorem extract_dates_sorted_distinct_dates (log_path : Path) (w : RetryFailed.World)
    (text : str) :
  RetryFailed.fs w !! log_path = Some text →
  ∃ dates,
    RetryFailed.extract_dates log_path w = (w, Ok dates)
    ∧ ascending dates
    ∧ NoDup dates
    ∧ (∀ d, d ∈ dates ↔
            ∃ line, line ∈ splitlines text ∧ Stated.date_of_line line = Some d)
    ∧ (∀ prefix date race_id, SLASH ∉ date → SLASH ∉ race_id →
         Stated.date_of_line (prefix ++ [SLASH] ++ date ++ [SLASH] ++ race_id) =
           if decide (length (split HYPHEN date) = 3) then Some date else None).
Proof.
  intros Hfile. eexists. split; [|split; [|split; [|split]]].
  - unfold RetryFailed.extract_dates, RetryFailed.read_text, get.
    unfold mbind, eff_bind, mret, eff_ret. simpl. rewrite Hfile. reflexivity.
  - apply sorted_set_ascending.
  - apply ascending_NoDup, sorted_set_ascending.
  - intros d. rewrite elem_of_sorted_set, elem_of_foldl_add_line.
    split; [intros [Hd|?]; [by apply elem_of_empty in Hd|done]|by right].
  - apply date_of_line_prefix.
Qed.

Lemma extract_dates_sorted_distinct_dates_witness :
  ∃ dates,
    RetryFailed.extract_dates Sample.log_path Sample.world0 = (Sample.world0, Ok dates)
    ∧ ascending dates
    ∧ NoDup dates
    ∧ (∀ d, d ∈ dates ↔
            ∃ line, line ∈ splitlines Sample.log_text
                    ∧ Stated.date_of_line line = Some d)
    ∧ (∀ prefix date race_id, SLASH ∉ date → SLASH ∉ race_id →
         Stated.date_of_line (prefix ++ [SLASH] ++ date ++ [SLASH] ++ race_id) =
           if decide (length (split HYPHEN date) = 3) then Some date else None).
Proof.
  apply (extract_dates_sorted_distinct_dates Sample.log_path Sample.world0 Sample.log_text).
  vm_compute. reflexivity.
Defined.

(** The three-line log of the specification's example. *)
Example extract_dates_example :
  (RetryFailed.extract_dates Sample.log_path Sample.world0).2
  = Ok [lit "2024-05-01"; lit "2024-05-02"].
Proof. vm_compute. reflexivity. Qed.

(* ===================================================================== *)
(** * pathlib: the backup path *)
(* ===================================================================== *)

Lemma rfind_lookup c s i : rfind c s = Some i → s !! i = Some c.
Proof.
  revert i. induction s as [|x s IH]; intros i; simpl; [done|].
  destruct (rfind c s) as [j|].
  - intros [= <-]. by apply IH.
  - destruct (N.eqb_spec x c) as [->|]; [|done]. by intros [= <-].
Qed.

Lemma path_suffix_spec p :
  path_suffix p = [] ∨
  ∃ i, path_suffix p = drop i (path_name p) ∧ path_name p !! i = Some DOT.
Proof.
  unfold path_suffix. destruct (rfind DOT (path_name p)) as [i|] eqn:Hi; [|by left].
  destruct (decide _); [|by left].
  right. exists i. split; [done|]. by apply rfind_lookup.
Qed.

Lemma lit_bak_no_slash : SLASH ∉ lit ".bak".
Proof. apply (bool_decide_unpack _). by vm_compute. Qed.

Lemma path_name_last p : path_name p ≠ [] → last p = Some (path_name p).
Proof.
  unfold path_name, path_tail. destruct p as [|a r]; [done|].
  destruct (decide (is_root a)) as [_|]; [|by destruct (last (a :: r))].
  destruct r as [|b r]; [done|]. rewrite last_cons_cons.
  by destruct (last (b :: r)).
Qed.

(** The backup path is the log path with [.bak] appended to its name,
    whatever extension the name has. *)
Lemma with_suffix_bak p :
  path_name p ≠ [] → SLASH ∉ path_name p →
  with_suffix p (path_suffix p ++ lit ".bak") = Ok (Stated.backup_of p).
Proof.
  intros Hname Hslash. unfold with_suffix, Stated.backup_of.
  assert (SLASH ∉ path_suffix p ++ lit ".bak") as Hns.
  { rewrite elem_of_app. intros [H|H]; [|by apply lit_bak_no_slash].
    destruct (path_suffix_spec p) as [Hs|(i & Hs & Hi)]; rewrite Hs in H.
    - by apply elem_of_nil in H.
    - apply list_elem_of_lookup_1 in H as [j Hj]. rewrite lookup_drop in Hj.
      apply Hslash. by eapply list_elem_of_lookup_2. }
  assert (∃ rest, path_suffix p ++ lit ".bak" = DOT :: rest ∧ rest ≠ []) as (rest & Hdot & Hrest).
  { destruct (path_suffix_spec p) as [Hs|(i & Hs & Hi)]; rewrite Hs.
    - by eexists.
    - erewrite drop_S by done. eexists. split; [done|].
      by destruct (drop (S i) (path_name p)). }
  destruct (decide (SLASH ∈ _)) as [?|_]; [done|].
  destruct (decide (_ ∨ _)) as [[[_ H]|H]|_].
  { rewrite Hdot in H. by destruct H. }
  { rewrite Hdot in H. injection H as ->. by destruct Hrest. }
  destruct (decide (path_name p = [])) as [?|_]; [done|].
  do 2 f_equal.
  destruct (decide (path_suffix p = [])) as [->|Hne]; [done|].
  destruct (path_suffix_spec p) as [Hs|(i & Hs & Hi)]; [done|].
  assert (i < length (path_name p)) as Hlt by by eapply lookup_lt_Some.
  rewrite Hs, length_drop.
  replace (length (path_name p) - (length (path_name p) - i)) with i by lia.
  by rewrite (assoc_L (++)), take_drop.
Qed.

Lemma backup_of_ne p : path_name p ≠ [] → Stated.backup_of p ≠ p.
Proof.
  intros Hname Heq. apply path_name_last in Hname.
  apply (f_equal last) in Heq. unfold Stated.backup_of in Heq.
  rewrite last_snoc, Hname in Heq. injection Heq as Heq.
  apply (f_equal length) in Heq. rewrite length_app in Heq. simpl in Heq. lia.
Qed.

(** Joining drops empty parts and [.], an absolute part replaces what
    precedes it, and only a path below [..] is relative to it. *)
Example pathlib_examples :
  path_str (path_div (path_div (path_of_str (lit "../data")) []) (lit "flat"))
    = lit "../data/flat"
  ∧ path_str (path_div (path_div (path_of_str (lit "../data")) (lit "dates/gb/"))
                (lit "./flat")) = lit "../data/dates/gb/flat"
  ∧ path_str (path_div (path_div (path_of_str (lit "../data")) (lit "/srv")) (lit "flat"))
    = lit "/srv/flat"
  ∧ path_of_str (lit "//srv///x") = [lit "//"; lit "srv"; lit "x"]
  ∧ relative_to (path_of_str (lit "../data/flat/2024.csv")) (path_of_str (lit "../"))
    = Ok [lit "data"; lit "flat"; lit "2024.csv"]
  ∧ relative_to (path_of_str (lit "/srv/flat/2024.csv")) (path_of_str (lit "../"))
    = Raise (ValueError (lit "'/srv/flat/2024.csv' is not in the subpath of '..'")).
Proof. vm_compute. done. Qed.

Example with_suffix_examples :
  with_suffix [lit "/"; lit "data"; lit "failed.log"] (lit ".log.bak")
    = Ok [lit "/"; lit "data"; lit "failed.log.bak"]
  ∧ path_suffix [lit "/"; lit "data"; lit "failed.log"] = lit ".log"
  ∧ path_suffix [lit "/"; lit "data"; lit "failed"] = []
  ∧ path_suffix [lit "/"; lit "data"; lit ".hidden"] = []
  ∧ path_suffix [lit "/"; lit "data"; lit "a.tar.gz"] = lit ".gz".
Proof. vm_compute. done. Qed.

(* ===================================================================== *)
(** * The retry driver: [main] *)
(* ===================================================================== *)

Lemma bind_ok {S A B} (m : eff S A) (f : A → eff S B) s s' a :
  m s = (s', Ok a) → (m ≫= f) s = f a s'.
Proof. intros H. unfold mbind, eff_bind. by rewrite H. Qed.

Lemma bind_raise {S A B} (m : eff S A) (f : A → eff S B) s s' e :
  m s = (s', Raise e) → (m ≫= f) s = (s', Raise e).
Proof. intros H. unfold mbind, eff_bind. by rewrite H. Qed.

Section RetryMain.
Import RetryFailed Stated.
Context (exe : str) (dir : Path) (sub : list str → gmap Path str → gmap Path str * Z).

Lemma actions_app t1 t2 : actions (t1 ++ t2) = actions t1 ++ actions t2.
Proof. apply bind_app. Qed.

(** The loop over the dates launches one sub-run per date, in order;
    a property of the files that no sub-run breaks holds whenever a
    sub-run starts and when the loop ends. *)
Lemma retry_loop (region : str) (jobs : Z) (I : gmap Path str → Prop)
    (dates : list str) :
  (∀ cmd f, I f → I (sub cmd f).1) →
  ∀ w1, I (fs w1) →
  ∃ w2 states,
    for_ dates (retry_date exe dir sub region jobs) w1 = (w2, Ok ())
    ∧ actions (events w2) = actions (events w1)
        ++ zip_with Launched (retry_cmd exe dir region jobs <$> dates) states
    ∧ length states = length dates
    ∧ head states = (match dates with [] => None | _ => Some (fs w1) end)
    ∧ Forall I states ∧ I (fs w2).
Proof.
  intros Hsub. induction dates as [|d dates IH]; intros w1 HI.
  { exists w1, []. simpl. by rewrite (right_id_L [] (++)). }
  simpl.
  destruct (sub (retry_cmd exe dir region jobs d) (fs w1)) as [f' rc] eqn:Hrun.
  assert (I f') as HI'.
  { specialize (Hsub (retry_cmd exe dir region jobs d) (fs w1) HI).
    by rewrite Hrun in Hsub. }
  assert (∃ w', retry_date exe dir sub region jobs d w1 = (w', Ok ())
                ∧ fs w' = f'
                ∧ actions (events w') = actions (events w1)
                    ++ [Launched (retry_cmd exe dir region jobs d) (fs w1)])
    as (w' & Hbody & Hfs & Hl).
  { unfold retry_date, run, print, modify, mbind, eff_bind, mret, eff_ret. simpl.
    rewrite Hrun. destruct (decide (rc ≠ 0%Z)); simpl; eexists;
      (split; [done|split; [done|]]); simpl; rewrite !actions_app; simpl;
      by rewrite ?(right_id_L [] (++)). }
  destruct (IH w') as (w2 & states & Hloop & Hl2 & Hlen & Hhd & Hall & HI2).
  { by rewrite Hfs. }
  exists w2, (fs w1 :: states). split.
  { erewrite bind_ok by exact Hbody. exact Hloop. }
  split. { rewrite Hl2, Hl. by rewrite <-(assoc_L (++)). }
  split. { simpl. by rewrite Hlen. }
  split; [done|]. split; [by constructor|done].
Qed.

(** A full run of [main] that gets as far as retrying. *)
Lemma main_retry_run (args : Args) (w : World) (text region_ : str) (backup : Path)
    (I : gmap Path str → Prop) :
  with_suffix (log args) (path_suffix (log args) ++ lit ".bak") = Ok backup →
  fs w !! log args = Some text →
  infer_region (region args) (log args) = Ok (Some region_) → region_ ≠ [] →
  sorted_set (foldl add_line ∅ (splitlines text)) ≠ [] →
  let dates := sorted_set (foldl add_line ∅ (splitlines text)) in
  let f1 := <[log args := []]> (<[backup := text]> (fs w)) in
  (∀ cmd f, I f → I (sub cmd f).1) → I f1 →
  ∃ w' states,
    main exe dir sub args w = (w', Ok ())
    ∧ actions (events w') = actions (events w)
        ++ [Copied (log args) (backup); Wrote (log args) []]
        ++ zip_with Launched (retry_cmd exe dir region_ (clamp (jobs args)) <$> dates) states
    ∧ length states = length dates
    ∧ head states = Some f1
    ∧ Forall I states ∧ I (fs w').
Proof.
  intros Hbackup Hfile Hregion Hne Hdates dates f1 Hsub HI.
  unfold main.
  erewrite bind_ok; last first.
  { unfold exists_, get, mbind, eff_bind, mret, eff_ret. rewrite Hfile.
    rewrite bool_decide_true by done. reflexivity. }
  simpl. erewrite bind_ok by reflexivity.
  erewrite bind_ok by (unfold lift; rewrite Hregion; reflexivity).
  simpl. unfold truthy. rewrite bool_decide_false by done. simpl.
  erewrite bind_ok by reflexivity.
  erewrite bind_ok; last first.
  { unfold extract_dates, read_text, get, mbind, eff_bind, mret, eff_ret.
    rewrite Hfile. reflexivity. }
  fold dates. rewrite decide_False by done.
  erewrite bind_ok by reflexivity.
  erewrite bind_ok by (unfold lift; rewrite Hbackup; reflexivity).
  erewrite bind_ok; last first.
  { unfold copyfile, modify, get, mbind, eff_bind, mret, eff_ret.
    rewrite Hfile. reflexivity. }
  erewrite bind_ok by reflexivity.
  erewrite bind_ok by reflexivity.
  match goal with |- context [(_ ≫= _) ?w1] => set (w1' := w1) end.
  destruct (retry_loop region_ (max 1 (min 10 (jobs args))) I dates Hsub w1')
    as (w2 & states & Hloop & Hl & Hlen & Hhd & Hall & HI2); [exact HI|].
  erewrite bind_ok by exact Hloop.
  eexists _, states. split; [reflexivity|].
  split.
  { simpl. rewrite actions_app, Hl. subst w1'. simpl.
    rewrite !actions_app. simpl. by rewrite !(right_id_L [] (++)), <-!(assoc_L (++)). }
  split; [done|]. split; [|done].
  rewrite Hhd. subst dates. by destruct (sorted_set _).
Qed.

(** The ways [main] gives up before it touches a file. *)
Lemma main_fatal (args : Args) (w : World) :
  fs w !! log args = None
  ∨ (∀ r, infer_region (region args) (log args) = Ok (Some r) → r = []) →
  ∃ w' r,
    main exe dir sub args w = (w', r)
    ∧ exit_status r = 1%Z
    ∧ fs w' = fs w
    ∧ actions (events w') = actions (events w).
Proof.
  intros Hfatal. unfold main.
  destruct (fs w !! log args) as [text|] eqn:Hfile.
  - destruct Hfatal as [?|Hinfer]; [done|].
    erewrite bind_ok; last first.
    { unfold exists_, get, mbind, eff_bind, mret, eff_ret. rewrite Hfile.
      rewrite bool_decide_true by done. reflexivity. }
    simpl. erewrite bind_ok by reflexivity.
    destruct (infer_region (region args) (log args)) as [[r|]|e] eqn:Hreg.
    + rewrite (Hinfer r eq_refl).
      erewrite bind_ok by reflexivity. simpl.
      eexists _, _. split; [reflexivity|]. simpl.
      rewrite actions_app. simpl. by rewrite (right_id_L [] (++)).
    + erewrite bind_ok by reflexivity. simpl.
      eexists _, _. split; [reflexivity|]. simpl.
      rewrite actions_app. simpl. by rewrite (right_id_L [] (++)).
    + erewrite bind_raise by reflexivity.
      eexists _, _. split; [reflexivity|]. split; [|done].
      unfold infer_region in Hreg. destruct (region args); [done|].
      destruct (index _ _) as [i|]; [|done].
      destruct (log args !! (i + 1)); [done|]. by injection Hreg as <-.
  - erewrite bind_ok; last first.
    { unfold exists_, get, mbind, eff_bind, mret, eff_ret. rewrite Hfile.
      rewrite bool_decide_false by (by intros [??]). reflexivity. }
    simpl. eexists _, _. split; [reflexivity|]. simpl.
    rewrite actions_app. simpl. by rewrite (right_id_L [] (++)).
Qed.

End RetryMain.

Section RetryClaims.
Import RetryFailed Stated.

(** C4: when the log path does not exist, or when no region is supplied
    and none can be inferred from the log path (no [dates] part, nothing
    after it, or an empty part), the run ends with exit status 1, the files
    are as they were, and nothing was copied, written or launched. *)
Theorem retry_fatal_before_any_log_mutation (exe : str) (dir : Path)
    (sub : list str → gmap Path str → gmap Path str * Z) (args : Args) (w : World) :
  fs w !! log args = None
  ∨ (region args = None ∧ ∀ r, infer_region None (log args) = Ok (Some r) → r = []) →
  ∃ w' r,
    main exe dir sub args w = (w', r)
    ∧ exit_status r = 1%Z
    ∧ fs w' = fs w
    ∧ actions (events w') = actions (events w).
Proof.
  intros [Hmissing|[Hnone Hinfer]]; apply main_fatal; [by left|].
  right. by rewrite Hnone.
Qed.

Lemma retry_fatal_before_any_log_mutation_witness :
  (∃ w' r,
    main Sample.sys_executable Sample.script_dir Sample.subprocess_run
      Sample.args0 Sample.empty_world = (w', r)
    ∧ exit_status r = 1%Z
    ∧ fs w' = fs Sample.empty_world
    ∧ actions (events w') = actions (events Sample.empty_world))
  ∧ (∃ w' r,
    main Sample.sys_executable Sample.script_dir Sample.subprocess_run
      Sample.stray_args Sample.stray_world = (w', r)
    ∧ exit_status r = 1%Z
    ∧ fs w' = fs Sample.stray_world
    ∧ actions (events w') = actions (events Sample.stray_world)).
Proof.
  split.
  - apply (retry_fatal_before_any_log_mutation _ _ _ Sample.args0 Sample.empty_world).
    left. reflexivity.
  - apply (retry_fatal_before_any_log_mutation _ _ _ Sample.stray_args Sample.stray_world).
    right. split; [reflexivity|]. intros r. vm_compute. discriminate.
Defined.


(** C3: a run that gets as far as retrying (the log exists, a region is
    resolved, at least one date is recovered) first copies the log to the
    sibling path whose name is the log's name with [.bak] appended after
    its extension, then empties the log, and only then launches the
    sub-runs, one per date: the first sub-run finds the backup holding the
    original text and the log empty, and since no sub-run writes the backup
    it still holds the original text when the run ends. *)
Theorem retry_backup_then_truncate_then_subruns (exe : str) (dir : Path)
    (sub : list str → gmap Path str → gmap Path str * Z) (args : Args) (w : World)
    (text region_ : str) (dates : list str) :
  path_name (log args) ≠ [] → SLASH ∉ path_name (log args) →
  fs w !! log args = Some text →
  infer_region (region args) (log args) = Ok (Some region_) → region_ ≠ [] →
  (extract_dates (log args) w).2 = Ok dates → dates ≠ [] →
  (∀ cmd f, (sub cmd f).1 !! backup_of (log args) = f !! backup_of (log args)) →
  let backup := backup_of (log args) in
  let at_first_launch := <[log args := []]> (<[backup := text]> (fs w)) in
  ∃ w' later,
    main exe dir sub args w = (w', Ok ())
    ∧ with_suffix (log args) (path_suffix (log args) ++ lit ".bak") = Ok backup
    ∧ last backup = Some (path_name (log args) ++ lit ".bak")
    ∧ actions (events w') = actions (events w)
        ++ [Copied (log args) backup; Wrote (log args) []]
        ++ zip_with Launched (retry_cmd exe dir region_ (clamp (jobs args)) <$> dates)
                    (at_first_launch :: later)
    ∧ length (at_first_launch :: later) = length dates
    ∧ at_first_launch !! backup = Some text
    ∧ at_first_launch !! log args = Some []
    ∧ Forall (λ f, f !! backup = Some text) later
    ∧ fs w' !! backup = Some text.
Proof.
  intros Hname Hslash Hfile Hregion Hne Hdates Hsome Hsub backup f1.
  assert (dates = sorted_set (foldl add_line ∅ (splitlines text))) as ->.
  { revert Hdates. unfold extract_dates, read_text, get, mbind, eff_bind, mret, eff_ret.
    rewrite Hfile. simpl. by intros [= <-]. }
  assert (f1 !! backup = Some text) as Hb.
  { unfold f1. rewrite lookup_insert_ne by (symmetry; by apply backup_of_ne).
    apply lookup_insert_eq. }
  destruct (main_retry_run exe dir sub args w text region_ backup
              (λ f, f !! backup = Some text))
    as (w' & states & Hmain & Hact & Hlen & Hhd & Hall & Hend); try done.
  { by apply with_suffix_bak. }
  { intros cmd f Hf. by rewrite Hsub. }
  destruct states as [|f states]; [done|]. injection Hhd as ->.
  exists w', states. split; [done|].
  split; [by apply with_suffix_bak|].
  split; [apply last_snoc|].
  split; [done|]. split; [done|]. split; [done|].
  split; [apply lookup_insert_eq|].
  split; [by apply Forall_cons in Hall as [_ ?]|done].
Qed.

Lemma retry_backup_then_truncate_then_subruns_witness :
  let args := Sample.args0 in
  let w := Sample.world0 in
  let dates := [lit "2024-05-01"; lit "2024-05-02"] in
  let backup := backup_of (log args) in
  let at_first_launch := <[log args := []]> (<[backup := Sample.log_text]> (fs w)) in
  ∃ w' later,
    main Sample.sys_executable Sample.script_dir Sample.subprocess_run args w = (w', Ok ())
    ∧ with_suffix (log args) (path_suffix (log args) ++ lit ".bak") = Ok backup
    ∧ last backup = Some (path_name (log args) ++ lit ".bak")
    ∧ actions (events w') = actions (events w)
        ++ [Copied (log args) backup; Wrote (log args) []]
        ++ zip_with Launched
             (retry_cmd Sample.sys_executable Sample.script_dir (lit "uk")
                (clamp (jobs args)) <$> dates)
             (at_first_launch :: later)
    ∧ length (at_first_launch :: later) = length dates
    ∧ at_first_launch !! backup = Some Sample.log_text
    ∧ at_first_launch !! log args = Some []
    ∧ Forall (λ f, f !! backup = Some Sample.log_text) later
    ∧ fs w' !! backup = Some Sample.log_text.
Proof.
  apply (retry_backup_then_truncate_then_subruns
           Sample.sys_executable Sample.script_dir Sample.subprocess_run
           Sample.args0 Sample.world0 Sample.log_text (lit "uk")
           [lit "2024-05-01"; lit "2024-05-02"]).
  - by vm_compute.
  - apply (bool_decide_unpack _). by vm_compute.
  - by vm_compute.
  - by vm_compute.
  - by vm_compute.
  - by vm_compute.
  - done.
  - intros cmd f. apply lookup_insert_ne. by vm_compute.
Defined.

(** The run of the witness, in full: the backup is named
    [failed.log.bak], and the sub-runs are told [-j 10] for the
    requested 42 workers. *)
Example retry_run_example :
  let '(w', r) := main Sample.sys_executable Sample.script_dir Sample.subprocess_run
                    Sample.args0 Sample.world0 in
  r = Ok ()
  ∧ fs w' !! [lit "/"; lit "data"; lit "dates"; lit "uk"; lit "failed.log.bak"]
    = Some Sample.log_text
  ∧ fs w' !! Sample.log_path
    = Some (lit "dates/uk/2024-06-01/new1" ++ [LF] ++ lit "dates/uk/2024-06-01/new1" ++ [LF])
  ∧ (match actions (events w') with
     | [Copied _ _; Wrote _ []; Launched cmd1 _; Launched cmd2 _] =>
         cmd1 = [lit "/usr/bin/python3"; lit "/app/scripts/rpscrape.py"; lit "-d";
                 lit "2024/05/01"; lit "-r"; lit "uk"; lit "-j"; lit "10"]
         ∧ cmd2 = [lit "/usr/bin/python3"; lit "/app/scripts/rpscrape.py"; lit "-d";
                   lit "2024/05/02"; lit "-r"; lit "uk"; lit "-j"; lit "10"]
     | _ => False
     end).
Proof. vm_compute. done. Qed.

(** C10: every run that reaches the backup step copies the log to the same
    path, the log's name with [.bak] appended, whatever is already there.
    So of two consecutive runs on one log that both reach that step, the
    first leaves the original log text in the backup and the second
    replaces it with the log text it found: when the two texts differ, the
    first run's backup is gone. *)
Theorem retry_backup_overwritten_by_next_run (exe : str) (dir : Path)
    (sub : list str → gmap Path str → gmap Path str * Z) (args : Args)
    (w0 w1 : World) (r1 : res ()) (text0 text1 region_ : str)
    (dates0 dates1 : list str) :
  path_name (log args) ≠ [] → SLASH ∉ path_name (log args) →
  infer_region (region args) (log args) = Ok (Some region_) → region_ ≠ [] →
  (∀ cmd f, (sub cmd f).1 !! backup_of (log args) = f !! backup_of (log args)) →
  fs w0 !! log args = Some text0 →
  (extract_dates (log args) w0).2 = Ok dates0 → dates0 ≠ [] →
  main exe dir sub args w0 = (w1, r1) →
  fs w1 !! log args = Some text1 →
  (extract_dates (log args) w1).2 = Ok dates1 → dates1 ≠ [] →
  let backup := backup_of (log args) in
  ∃ w2 runs1 runs2,
    r1 = Ok ()
    ∧ main exe dir sub args w1 = (w2, Ok ())
    ∧ actions (events w2) = actions (events w0)
        ++ [Copied (log args) backup; Wrote (log args) []] ++ runs1
        ++ [Copied (log args) backup; Wrote (log args) []] ++ runs2
    ∧ fs w1 !! backup = Some text0
    ∧ fs w2 !! backup = Some text1
    ∧ (text1 ≠ text0 → fs w2 !! backup ≠ Some text0).
Proof.
  intros Hname Hslash Hregion Hne Hsub Hfile0 Hdates0 Hsome0 Hmain1 Hfile1 Hdates1 Hsome1
    backup.
  assert (∀ w text dates, fs w !! log args = Some text →
            (extract_dates (log args) w).2 = Ok dates →
            dates = sorted_set (foldl add_line ∅ (splitlines text))) as Hex.
  { intros w text dates Hfile.
    unfold extract_dates, read_text, get, mbind, eff_bind, mret, eff_ret.
    rewrite Hfile. simpl. by intros [= <-]. }
  apply (Hex _ _ _ Hfile0) in Hdates0 as ->.
  apply (Hex _ _ _ Hfile1) in Hdates1 as ->.
  assert (∀ text (f : gmap Path str),
            (<[log args := []]> (<[backup := text]> f)) !! backup = Some text) as Hb.
  { intros text f. rewrite lookup_insert_ne by (symmetry; by apply backup_of_ne).
    apply lookup_insert_eq. }
  destruct (main_retry_run exe dir sub args w0 text0 region_ backup
              (λ f, f !! backup = Some text0))
    as (w1' & states1 & Hmain1' & Hact1 & _ & _ & _ & Hend1); try done.
  { by apply with_suffix_bak. }
  { intros cmd f Hf. by rewrite Hsub. }
  rewrite Hmain1 in Hmain1'. injection Hmain1' as <- ->.
  destruct (main_retry_run exe dir sub args w1 text1 region_ backup
              (λ f, f !! backup = Some text1))
    as (w2 & states2 & Hmain2 & Hact2 & _ & _ & _ & Hend2); try done.
  { by apply with_suffix_bak. }
  { intros cmd f Hf. by rewrite Hsub. }
  exists w2,
    (zip_with Launched
       (retry_cmd exe dir region_ (clamp (jobs args))
          <$> sorted_set (foldl add_line ∅ (splitlines text0))) states1),
    (zip_with Launched
       (retry_cmd exe dir region_ (clamp (jobs args))
          <$> sorted_set (foldl add_line ∅ (splitlines text1))) states2).
  split; [done|]. split; [done|].
  split. { rewrite Hact2, Hact1. by rewrite <-!(assoc_L (++)). }
  split; [done|]. split; [done|].
  intros Hdiff. rewrite Hend2. by intros [= ?].
Qed.

Lemma retry_backup_overwritten_by_next_run_witness :
  let args := Sample.args0 in
  let w0 := Sample.world0 in
  let w1 := (main Sample.sys_executable Sample.script_dir Sample.subprocess_run args w0).1 in
  let text1 := lit "dates/uk/2024-06-01/new1" ++ [LF] ++ lit "dates/uk/2024-06-01/new1" ++ [LF] in
  let backup := backup_of (log args) in
  ∃ w2 runs1 runs2,
    (main Sample.sys_executable Sample.script_dir Sample.subprocess_run args w0).2 = Ok ()
    ∧ main Sample.sys_executable Sample.script_dir Sample.subprocess_run args w1 = (w2, Ok ())
    ∧ actions (events w2) = actions (events w0)
        ++ [Copied (log args) backup; Wrote (log args) []] ++ runs1
        ++ [Copied (log args) backup; Wrote (log args) []] ++ runs2
    ∧ fs w1 !! backup = Some Sample.log_text
    ∧ fs w2 !! backup = Some text1
    ∧ (text1 ≠ Sample.log_text → fs w2 !! backup ≠ Some Sample.log_text).
Proof.
  apply (retry_backup_overwritten_by_next_run
           Sample.sys_executable Sample.script_dir Sample.subprocess_run
           Sample.args0 Sample.world0 _ _ Sample.log_text _ (lit "uk")
           [lit "2024-05-01"; lit "2024-05-02"] [lit "2024-06-01"]).
  - by vm_compute.
  - apply (bool_decide_unpack _). by vm_compute.
  - by vm_compute.
  - by vm_compute.
  - intros cmd f. apply lookup_insert_ne. by vm_compute.
  - by vm_compute.
  - by vm_compute.
  - done.
  - apply surjective_pairing.
  - by vm_compute.
  - by vm_compute.
  - done.
Defined.

End RetryClaims.

(* ===================================================================== *)
(** * URL discovery *)
(* ===================================================================== *)

Lemma elem_of_replace c old new s : c ∈ replace old new s → c ∈ s ∨ c ∈ new.
Proof.
  unfold replace. rewrite list_elem_of_bind. intros (x & Hc & Hx).
  destruct (x =? old)%N; [by right|]. apply list_elem_of_singleton in Hc as ->. by left.
Qed.

Lemma replace_removes old new s : old ∉ new → old ∉ replace old new s.
Proof.
  intros Hnew. unfold replace. rewrite list_elem_of_bind. intros (x & Hc & Hx).
  destruct (N.eqb_spec x old) as [Heq|Hne]; [done|].
  apply list_elem_of_singleton in Hc. congruence.
Qed.

Lemma or_exists_cons {A} (P : A → Prop) (a b : Prop) (x : A) (l : list A) :
  (a ↔ b ∨ P x) →
  (a ∨ (∃ y, y ∈ l ∧ P y)) ↔ (b ∨ ∃ y, y ∈ x :: l ∧ P y).
Proof.
  intros H. split.
  - intros [Ha|(y & Hy & HP)].
    + apply H in Ha as [?|?]; [by left|]. right. exists x. split; [left|done].
    + right. exists y. split; [by right|done].
  - intros [Hb|(y & Hy & HP)].
    + left. apply H. by left.
    + apply elem_of_cons in Hy as [->|Hy]; [left; apply H; by right|].
      right. by exists y.
Qed.

Lemma or_exists_nil {A} (P : A → Prop) (a : Prop) :
  a ↔ a ∨ ∃ y : A, y ∈ [] ∧ P y.
Proof.
  split; [by left|]. intros [?|(? & H & _)]; [done|]. by apply elem_of_nil in H.
Qed.

Section Discovery.
Import RpScrape Stated.
Context (principleRaceResults : str → res (list race_entry))
        (listCourseNameLinks : str → res (list anchor))
        (courses : str → list (str * str)).

Lemma race_url_clean course_id course race :
  (SPACE ∉ race_url course_id course race) ∧ (APOSTROPHE ∉ race_url course_id course race).
Proof.
  unfold race_url. split.
  - intros H. apply elem_of_replace in H as [H|H]; [|by apply elem_of_nil in H].
    revert H. apply replace_removes. by apply (bool_decide_unpack _).
  - apply replace_removes, not_elem_of_nil.
Qed.

(** The two replacements of [get_race_urls], one after the other, turn
    every space into a hyphen and drop every apostrophe. *)
Lemma replace_hyphenated s :
  replace APOSTROPHE [] (replace SPACE [HYPHEN] s) = hyphenated s.
Proof.
  unfold replace. induction s as [|c s IH]; [done|]. csimpl.
  rewrite bind_app, IH. destruct (decide (c = SPACE)) as [->|Hspace]; [done|].
  rewrite (proj2 (N.eqb_neq c SPACE)) by done. csimpl.
  destruct (decide (c = APOSTROPHE)) as [->|Hapostrophe]; [done|].
  by rewrite (proj2 (N.eqb_neq c APOSTROPHE)) by done.
Qed.

Lemma race_url_stated course_id course race :
  race_url course_id course race = race_address course_id course race.
Proof.
  unfold race_url, race_address. rewrite replace_hyphenated. reflexivity.
Qed.

Lemma race_list_url_stated code course_id year :
  race_list_url code course_id year = listing_address code course_id year.
Proof.
  reflexivity.
Qed.

Lemma elem_of_foldl_add_race course_id course races urls u :
  u ∈ foldl (add_race course_id course) urls races ↔
    u ∈ urls ∨ ∃ race, race ∈ races ∧ u = race_address course_id course race.
Proof.
  revert urls. induction races as [|r races IH]; intros urls; simpl.
  { split; [by left|]. intros [?|(? & H & _)]; [done|]. by apply elem_of_nil in H. }
  rewrite IH. unfold add_race. rewrite elem_of_union, elem_of_singleton, race_url_stated.
  split.
  - intros [[->|?]|(race & ? & ->)]; [right; exists r; split; [left|done]|by left|].
    right. exists race. split; [by right|done].
  - intros [?|(race & [->|?]%elem_of_cons & ->)]; [left; by right|left; by left|].
    right. by exists race.
Qed.

Lemma add_year_spec code track urls year :
  match add_year principleRaceResults code track.1 track.2 urls year with
  | Ok urls' =>
      (∃ races, principleRaceResults (race_list_url code track.1 year) = Ok races)
      ∧ ∀ u, u ∈ urls' ↔ u ∈ urls ∨ listed principleRaceResults code track year u
  | Raise e => principleRaceResults (race_list_url code track.1 year) = Raise e
  end.
Proof.
  unfold add_year, listed, mbind, res_bind, mret, res_ret.
  change (listing_address code track.1 year) with (race_list_url code track.1 year).
  destruct (principleRaceResults _) as [races|e]; [|done].
  destruct (decide (races = [])) as [->|Hne].
  { split; [by eexists|]. intros u. split; [by left|].
    intros [?|(? & ? & [= <-] & H & _)]; [done|]. by apply elem_of_nil in H. }
  split; [by eexists|]. intros u.
  rewrite elem_of_foldl_add_race. split.
  - intros [?|(race & ? & ?)]; [by left|]. right. by exists races, race.
  - intros [?|(? & race & [= <-] & ? & ?)]; [by left|]. right. by exists race.
Qed.

Lemma add_track_raise code years track e :
  add_track principleRaceResults code years (Raise e) track = Raise e.
Proof. unfold add_track. by induction years. Qed.

Lemma add_track_spec code years track urls :
  match add_track principleRaceResults code years (Ok urls) track with
  | Ok urls' =>
      (∀ year, year ∈ years →
         ∃ races, principleRaceResults (race_list_url code track.1 year) = Ok races)
      ∧ ∀ u, u ∈ urls' ↔ u ∈ urls ∨ ∃ year, year ∈ years ∧ listed principleRaceResults code track year u
  | Raise e =>
      ∃ year, year ∈ years
              ∧ principleRaceResults (race_list_url code track.1 year) = Raise e
  end.
Proof.
  unfold add_track. revert urls. induction years as [|y years IH]; intros urls; simpl.
  { split; [by intros ? ?%elem_of_nil|]. intros u. apply or_exists_nil. }
  pose proof (add_year_spec code track urls y) as Hy.
  destruct (add_year _ code track.1 track.2 urls y) as [urls1|e]; simpl.
  - destruct Hy as [Hok Hy]. specialize (IH urls1).
    destruct (foldl _ (Ok urls1) years) as [urls'|e].
    + destruct IH as [Hoks IH]. split.
      * intros year [->|?]%elem_of_cons; auto.
      * intros u. rewrite IH.
        apply (or_exists_cons (λ year, listed principleRaceResults code track year u)), Hy.
    + destruct IH as (year & ? & ?). exists year. split; [by right|done].
  - fold (add_track principleRaceResults code years (Raise e) track).
    rewrite add_track_raise. exists y. split; [by left|done].
Qed.

Lemma tracks_raise code years tracks e :
  foldl (add_track principleRaceResults code years) (Raise e) tracks = Raise e.
Proof. induction tracks as [|t tracks IH]; simpl; [done|]. by rewrite add_track_raise. Qed.

Lemma tracks_spec code years tracks urls :
  match foldl (add_track principleRaceResults code years) (Ok urls) tracks with
  | Ok urls' =>
      (∀ track year, track ∈ tracks → year ∈ years →
         ∃ races, principleRaceResults (race_list_url code track.1 year) = Ok races)
      ∧ ∀ u, u ∈ urls' ↔
             u ∈ urls ∨ ∃ track, track ∈ tracks
                        ∧ ∃ year, year ∈ years
                                  ∧ listed principleRaceResults code track year u
  | Raise e =>
      ∃ track year, track ∈ tracks ∧ year ∈ years
                    ∧ principleRaceResults (race_list_url code track.1 year) = Raise e
  end.
Proof.
  revert urls. induction tracks as [|t tracks IH]; intros urls; simpl.
  { split; [by intros ? ? ?%elem_of_nil|]. intros u.
    apply (or_exists_nil (λ track, ∃ year, year ∈ years
             ∧ listed principleRaceResults code track year u)). }
  pose proof (add_track_spec code years t urls) as Ht.
  destruct (add_track _ code years (Ok urls) t) as [urls1|e].
  - destruct Ht as [Hok Ht]. specialize (IH urls1).
    destruct (foldl _ (Ok urls1) tracks) as [urls'|e].
    + destruct IH as [Hoks IH]. split.
      * intros track year [->|?]%elem_of_cons ?; auto.
      * intros u. rewrite IH.
        apply (or_exists_cons (λ track, ∃ year, year ∈ years
                 ∧ listed principleRaceResults code track year u)), Ht.
    + destruct IH as (track & year & ? & ? & ?). exists track, year.
      split; [by right|done].
  - rewrite tracks_raise. destruct Ht as (year & ? & ?). exists t, year.
    split; [by left|done].
Qed.

(** The date mode. *)

Lemma add_link_spec course_ids urls a :
  match add_link course_ids urls a with
  | Ok urls' =>
      well_formed_link a ∧ ∀ u, u ∈ urls' ↔ u ∈ urls ∨ linked course_ids a u
  | Raise e => ¬ well_formed_link a
  end.
Proof.
  unfold add_link, well_formed_link, linked.
  destruct (href a) as [h|]; [|by intros (? & ? & ? & _)].
  destruct (split SLASH h !! 2) as [cid|] eqn:Hcid; [|by intros (? & ? & [= <-] & ?); simplify_eq].
  destruct (decide (cid ∈ course_ids)) as [Hin|Hout].
  - split; [by eexists _, _|]. intros u.
    rewrite elem_of_union, elem_of_singleton. split.
    + intros [->|?]; [|by left]. right. by exists h, cid.
    + intros [?|(? & ? & [= <-] & ? & ? & ->)]; [by right|by left].
  - split; [by eexists _, _|]. intros u. split; [by left|].
    intros [?|(? & ? & [= <-] & ? & ? & ->)]; [done|]. by simplify_eq.
Qed.

Lemma links_raise course_ids links e :
  foldl (λ acc race, urls ← acc; add_link course_ids urls race) (Raise e) links = Raise e.
Proof. by induction links. Qed.

Lemma links_spec course_ids links urls :
  match foldl (λ acc race, urls ← acc; add_link course_ids urls race) (Ok urls) links with
  | Ok urls' =>
      Forall well_formed_link links
      ∧ ∀ u, u ∈ urls' ↔ u ∈ urls ∨ ∃ a, a ∈ links ∧ linked course_ids a u
  | Raise e => ¬ Forall well_formed_link links
  end.
Proof.
  revert urls. induction links as [|a links IH]; intros urls; simpl.
  { split; [done|]. intros u. apply or_exists_nil. }
  pose proof (add_link_spec course_ids urls a) as Ha.
  destruct (add_link course_ids urls a) as [urls1|e]; simpl.
  - destruct Ha as [Hwf Ha]. specialize (IH urls1).
    destruct (foldl _ (Ok urls1) links) as [urls'|e'].
    + destruct IH as [Hwfs IH]. split; [by constructor|].
      intros u. rewrite IH. apply (or_exists_cons (λ a, linked course_ids a u)), Ha.
    + intros [_ ?]%Forall_cons. done.
  - rewrite links_raise. intros [? _]%Forall_cons. done.
Qed.

Lemma dates_raise course_ids dates e :
  foldl (add_date listCourseNameLinks course_ids) (Raise e) dates = Raise e.
Proof. by induction dates. Qed.

Lemma add_date_ok course_ids urls race_date :
  add_date listCourseNameLinks course_ids (Ok urls) race_date =
    match listCourseNameLinks (results_url race_date) with
    | Ok links =>
        foldl (λ acc race, urls ← acc; add_link course_ids urls race) (Ok urls) links
    | Raise e => Raise e
    end.
Proof. reflexivity. Qed.

Lemma dates_spec course_ids dates urls :
  match foldl (add_date listCourseNameLinks course_ids) (Ok urls) dates with
  | Ok urls' =>
      ∀ u, u ∈ urls' ↔
           u ∈ urls ∨ ∃ race_date, race_date ∈ dates
                      ∧ date_listed listCourseNameLinks course_ids race_date u
  | Raise e =>
      ¬ ∀ race_date, race_date ∈ dates →
          ∃ links, listCourseNameLinks (results_url race_date) = Ok links
                   ∧ Forall well_formed_link links
  end.
Proof.
  revert urls. induction dates as [|d dates IH]; intros urls.
  { intros u. apply or_exists_nil. }
  cbn -[add_date]. rewrite add_date_ok.
  destruct (listCourseNameLinks (results_url d)) as [links|e] eqn:Hd.
  - pose proof (links_spec course_ids links urls) as Hl.
    destruct (foldl _ (Ok urls) links) as [urls1|e].
    + destruct Hl as [Hwf Hl]. specialize (IH urls1).
      destruct (foldl _ (Ok urls1) dates) as [urls'|e'].
      * intros u. rewrite IH.
        apply (or_exists_cons
                 (λ race_date, date_listed listCourseNameLinks course_ids race_date u)).
        rewrite Hl. unfold date_listed.
        change (results_address d) with (results_url d). rewrite Hd. split.
        -- intros [?|(a & ? & ?)]; [by left|]. right. by exists links, a.
        -- intros [?|(? & a & [= <-] & ? & ?)]; [by left|]. right. by exists a.
      * intros Hall. apply IH. intros ? ?. apply Hall. by right.
    + rewrite dates_raise. intros Hall.
      destruct (Hall d) as (links' & Hd' & Hwf'); [by left|].
      rewrite Hd in Hd'. injection Hd' as <-. done.
  - rewrite dates_raise. intros Hall.
    destruct (Hall d) as (links' & Hd' & _); [by left|].
    rewrite Hd in Hd'. done.
Qed.
End Discovery.

Section DiscoveryClaims.
Import RpScrape Stated.

(** C9: when every listing was fetched and decoded (and, in the date mode,
    every course link has a target with a course identifier), each of the
    two discovery operations returns a strictly ascending, hence
    duplicate-free, list of addresses: in the course/year mode exactly the
    addresses of the listed races, each with its spaces replaced by hyphens
    and its apostrophes removed, so that none holds a space or an
    apostrophe; in the date mode exactly the absolute addresses of the
    course links of the configured courses. *)
Theorem url_discovery_sorted_duplicate_free
    (principleRaceResults : str → res (list race_entry))
    (listCourseNameLinks : str → res (list anchor))
    (courses : str → list (str * str))
    (tracks : list (str * str)) (years : list str) (code : str)
    (dates : list str) (region : str) :
  (∀ track year, track ∈ tracks → year ∈ years →
     ∃ races, principleRaceResults (listing_address code track.1 year) = Ok races) →
  (∀ race_date, race_date ∈ dates →
     ∃ links, listCourseNameLinks (results_address race_date) = Ok links
              ∧ Forall well_formed_link links) →
  ∃ by_course by_date,
    get_race_urls principleRaceResults tracks years code = Ok by_course
    ∧ get_race_urls_date listCourseNameLinks courses dates region = Ok by_date
    ∧ ascending by_course ∧ NoDup by_course
    ∧ (∀ u, u ∈ by_course → (SPACE ∉ u) ∧ (APOSTROPHE ∉ u))
    ∧ (∀ u, u ∈ by_course ↔
            ∃ track, track ∈ tracks
              ∧ ∃ year, year ∈ years ∧ listed principleRaceResults code track year u)
    ∧ ascending by_date ∧ NoDup by_date
    ∧ (∀ u, u ∈ by_date ↔
            ∃ race_date, race_date ∈ dates
              ∧ date_listed listCourseNameLinks (list_to_set ((courses region).*1))
                  race_date u).
Proof.
  intros Hlistings Hpages.
  unfold get_race_urls, get_race_urls_date.
  pose proof (tracks_spec principleRaceResults code years tracks ∅) as Hc.
  destruct (foldl _ (Ok ∅) tracks) as [urls_c|e]; last first.
  { destruct Hc as (track & year & Ht & Hy & Hraise).
    destruct (Hlistings track year Ht Hy) as [races Hok].
    rewrite race_list_url_stated in Hraise. congruence. }
  pose proof (dates_spec listCourseNameLinks (list_to_set ((courses region).*1)) dates ∅)
    as Hd.
  destruct (foldl _ (Ok ∅) dates) as [urls_d|e]; [|done].
  destruct Hc as [_ Hc].
  assert (∀ u, u ∈ sorted_set urls_c ↔
            ∃ track, track ∈ tracks
              ∧ ∃ year, year ∈ years ∧ listed principleRaceResults code track year u)
    as Hmem.
  { intros u. rewrite elem_of_sorted_set, Hc. split; [|by right].
    intros [H|?]; [by apply elem_of_empty in H|done]. }
  eexists _, _. split; [reflexivity|]. split; [reflexivity|].
  split; [apply sorted_set_ascending|].
  split; [apply ascending_NoDup, sorted_set_ascending|].
  split.
  { intros u (track & _ & year & _ & races & race & _ & _ & ->)%Hmem.
    rewrite <-race_url_stated. apply race_url_clean. }
  split; [done|].
  split; [apply sorted_set_ascending|].
  split; [apply ascending_NoDup, sorted_set_ascending|].
  intros u. rewrite elem_of_sorted_set, Hd. split; [|by right].
  intros [H|?]; [by apply elem_of_empty in H|done].
Qed.

Lemma url_discovery_sorted_duplicate_free_witness :
  let tracks := [(lit "32", lit "Newcastle"); (lit "4", lit "Ayr o'Clock")] in
  let years := [lit "2024"] in
  let dates := [lit "2024-05-01"] in
  ∃ by_course by_date,
    get_race_urls Sample.principleRaceResults tracks years (lit "flat") = Ok by_course
    ∧ get_race_urls_date Sample.listCourseNameLinks Sample.courses dates (lit "gb")
      = Ok by_date
    ∧ ascending by_course ∧ NoDup by_course
    ∧ (∀ u, u ∈ by_course → (SPACE ∉ u) ∧ (APOSTROPHE ∉ u))
    ∧ (∀ u, u ∈ by_course ↔
            ∃ track, track ∈ tracks
              ∧ ∃ year, year ∈ years
                  ∧ listed Sample.principleRaceResults (lit "flat") track year u)
    ∧ ascending by_date ∧ NoDup by_date
    ∧ (∀ u, u ∈ by_date ↔
            ∃ race_date, race_date ∈ dates
              ∧ date_listed Sample.listCourseNameLinks
                  (list_to_set ((Sample.courses (lit "gb")).*1)) race_date u).
Proof.
  apply (url_discovery_sorted_duplicate_free
           Sample.principleRaceResults Sample.listCourseNameLinks Sample.courses).
  - intros track year _ _. by eexists.
  - intros race_date _. eexists. split; [reflexivity|].
    repeat constructor; by eexists _, _.
Defined.

(** The sample listings: the race listed twice comes out once, the
    apostrophe and the space of a course name are gone, and the link of a
    course outside the region is dropped. *)
Example url_discovery_example :
  get_race_urls Sample.principleRaceResults
    [(lit "32", lit "Newcastle"); (lit "4", lit "Ayr o'Clock")] [lit "2024"] (lit "flat")
  = Ok [lit "https://www.racingpost.com/results/32/Newcastle/2024-04-30/867529";
        lit "https://www.racingpost.com/results/32/Newcastle/2024-05-01/867530";
        lit "https://www.racingpost.com/results/4/Ayr-oClock/2024-04-30/867529";
        lit "https://www.racingpost.com/results/4/Ayr-oClock/2024-05-01/867530"]
  ∧ get_race_urls_date Sample.listCourseNameLinks Sample.courses [lit "2024-05-01"] (lit "gb")
  = Ok [lit "https://www.racingpost.com/results/32/newcastle/2024-05-01/1";
        lit "https://www.racingpost.com/results/4/ayr/2024-05-01/2"].
Proof. vm_compute. done. Qed.

End DiscoveryClaims.

(* ===================================================================== *)
(** * The worker *)
(* ===================================================================== *)

Section Worker.
Import RpScrape Stated.
Context {Doc BetfairData : Type}
        (requests_get : str → res (list N))
        (html_fromstring : list N → res Doc)
        (Race : str → Doc → str → list str → option BetfairData → res RaceObj).
Context (total : nat) (code : str) (fields : list str)
        (betfair : option (BetfairObj (BetfairData := BetfairData))).

Local Abbreviation process' := (process requests_get html_fromstring Race total code fields betfair).

Lemma process_fetch_failure idx url exc :
  requests_get url = Raise exc → is_Exception exc = true →
  ∃ banner, process' idx url =
    ([Print banner; HttpGet url; Print (lit "  ! Request failed: " ++ exn_str exc)],
     Ok (idx, [])).
Proof.
  intros Hget Hexc. unfold process. rewrite Hget, Hexc. by eexists.
Qed.

Lemma process_void_race idx url content doc :
  requests_get url = Ok content → html_fromstring content = Ok doc →
  Race url doc code fields (data <$> betfair) = Raise VoidRaceError →
  ∃ banner, process' idx url =
    ([Print banner; HttpGet url; Print (lit "  ! Skipping void race")], Ok (idx, [])).
Proof.
  intros Hget Hdoc Hrace. unfold process. rewrite Hget, Hdoc. simpl.
  rewrite Hrace. by eexists.
Qed.

Lemma process_parse_failure idx url content doc exc :
  requests_get url = Ok content → html_fromstring content = Ok doc →
  Race url doc code fields (data <$> betfair) = Raise exc →
  is_Exception exc = true →
  ∃ banner diagnostic,
    process' idx url = ([Print banner; HttpGet url; Print diagnostic], Ok (idx, [])).
Proof.
  intros Hget Hdoc Hrace Hexc. unfold process. rewrite Hget, Hdoc. simpl.
  rewrite Hrace. destruct exc; try done; by eexists _, _.
Qed.

(** The call of [html.fromstring] stands between the two [try] blocks:
    what it raises leaves the worker. *)
Lemma process_fromstring_failure idx url content exc :
  requests_get url = Ok content → html_fromstring content = Raise exc →
  ∃ banner, process' idx url = ([Print banner; HttpGet url], Raise exc).
Proof.
  intros Hget Hdoc. unfold process. rewrite Hget, Hdoc. by eexists.
Qed.

Lemma process_parsed idx url content doc race :
  requests_get url = Ok content → html_fromstring content = Ok doc →
  Race url doc code fields (data <$> betfair) = Ok race →
  (process' idx url).2 =
    Ok (idx,
        if decide (code = lit "flat" ∧ r_type race ≠ lit "Flat") then []
        else if decide (code = lit "jumps" ∧ r_type race ∉ jump_types) then []
        else csv_data race).
Proof.
  intros Hget Hdoc Hrace. unfold process. rewrite Hget, Hdoc. simpl.
  rewrite Hrace. by repeat destruct (decide _).
Qed.

(** A worker that returns, returns the index it was given. *)
Lemma process_index idx url i rows :
  (process' idx url).2 = Ok (i, rows) → i = idx.
Proof.
  unfold process. destruct (requests_get url) as [content|exc]; simpl.
  - destruct (html_fromstring content) as [doc|exc]; simpl; [|done].
    destruct (Race _ _ _ _ _) as [race|exc]; simpl.
    + repeat destruct (decide _); simpl; by intros [= <- _].
    + destruct exc; simpl; try done; by intros [= <- _].
  - destruct (is_Exception exc); simpl; [|done]. by intros [= <- _].
Qed.

(** A worker fetches its page and only prints besides. *)
Lemma process_events idx url :
  HttpGet url ∈ (process' idx url).1
  ∧ Forall worker_event (process' idx url).1.
Proof.
  unfold process. destruct (requests_get url) as [content|exc]; simpl.
  - destruct (html_fromstring content) as [doc|exc]; simpl.
    + destruct (Race _ _ _ _ _) as [race|exc]; simpl.
      * repeat destruct (decide _); simpl; (split; [by right; left|by repeat constructor]).
      * destruct exc; simpl; (split; [by right; left|by repeat constructor]).
    + split; [by right; left|by repeat constructor].
  - destruct (is_Exception exc); simpl; (split; [by right; left|by repeat constructor]).
Qed.
End Worker.

(* ===================================================================== *)
(** * The pipeline *)
(* ===================================================================== *)

Lemma first_failure_fmap_Ok {A} (l : list A) : RpScrape.first_failure (Ok <$> l) = Ok l.
Proof. induction l as [|a l IH]; csimpl; [done|]. by rewrite IH. Qed.

Lemma first_failure_Raise {A} (outs : list (res A)) e :
  Raise e ∈ outs → ∃ e', RpScrape.first_failure outs = Raise e'.
Proof.
  induction outs as [|o outs IH]; [by intros ?%elem_of_nil|].
  intros Hin. simpl. destruct o as [a|e0]; [|by eexists].
  apply elem_of_cons in Hin as [?|Hin]; [done|].
  destruct (IH Hin) as [e' ->]. by eexists.
Qed.

Lemma enumerate_ge {A} n (xs : list A) job : job ∈ enumerate n xs → n ≤ job.1.
Proof.
  revert n. induction xs as [|x xs IH]; intros n; simpl; [by intros ?%elem_of_nil|].
  intros [->|Hin]%elem_of_cons; [done|]. apply IH in Hin. lia.
Qed.

(** Results tagged with the indices of [enumerate] ascend strictly. *)
Lemma enumerate_sorted {A B} (f : nat * A → nat * B) n (xs : list A) :
  (∀ job, (f job).1 = job.1) →
  StronglySorted (key_lt fst Nat.ltb) (f <$> enumerate n xs).
Proof.
  intros Hf. revert n. induction xs as [|x xs IH]; intros n; simpl; [constructor|].
  constructor; [apply IH|].
  apply Forall_fmap, Forall_forall. intros job Hin. apply enumerate_ge in Hin.
  unfold key_lt. simpl. rewrite !Hf. simpl. apply Nat.ltb_lt. lia.
Qed.

Lemma nat_ltb_asym a b : Nat.ltb a b = true → Nat.ltb b a = false.
Proof. rewrite Nat.ltb_lt, Nat.ltb_ge. lia. Qed.

Lemma nat_leb_trans a b c :
  Nat.ltb b a = false → Nat.ltb c b = false → Nat.ltb c a = false.
Proof. rewrite !Nat.ltb_ge. lia. Qed.

Lemma out_bind_ok {E A B} (f : A → out E B) (t : list E) (a : A) :
  ((t, Ok a) ≫= f) = (t ++ (f a).1, (f a).2).
Proof. unfold mbind, out_bind. by destruct (f a). Qed.

Lemma out_bind_raise {E A B} (f : A → out E B) (t : list E) (e : exn) :
  ((t, Raise e) ≫= f) = (t, Raise e).
Proof. reflexivity. Qed.

Section Files.
Import RpScrape.

Lemma with_file_eq w path (body : out event ()) :
  with_file w path body = (OpenWrite w path :: body.1 ++ [Close path], body.2).
Proof. unfold with_file. by destruct body. Qed.

Lemma for_cons {M : Type → Type} `{MBind M, MRet M} {A} (x : A) (xs : list A)
    (body : A → M unit) :
  for_ (x :: xs) body = (body x ;; for_ xs body).
Proof. reflexivity. Qed.

Lemma for_emit {A} (f : A → event) (xs : list A) :
  for_ xs (λ x, emit (f x)) = (f <$> xs, Ok ()).
Proof.
  induction xs as [|x xs IH]; [done|].
  rewrite for_cons, IH. reflexivity.
Qed.

Lemma for_submits (jobs : list (nat * str)) :
  for_ jobs (λ '(idx, url), emit (Submit idx url))
  = ((λ job, Submit job.1 job.2) <$> jobs, Ok ()).
Proof.
  induction jobs as [|[idx url] jobs IH]; [done|].
  rewrite for_cons, IH. reflexivity.
Qed.

(** The two nested [for] loops that write the rows. *)
Lemma for_rows path (results : list (nat * list str)) :
  for_ results (λ '(_, rows), for_ rows (λ row, write path (row ++ [LF])))
  = (Write path <$> ((λ row, row ++ [LF]) <$> mjoin (results.*2)), Ok ()).
Proof.
  induction results as [|[i rows] results IH]; [done|].
  rewrite for_cons, IH. unfold write.
  rewrite (for_emit (λ row, Write path (row ++ [LF]))).
  unfold mbind, out_bind. csimpl.
  f_equal. rewrite !fmap_app. f_equal. by rewrite <-list_fmap_compose.
Qed.

Lemma file_data_writes path (ds : list str) acc tail :
  foldl (file_step path) acc ((Write path <$> ds) ++ tail)
  = foldl (file_step path) (acc ++ ds) tail.
Proof.
  revert acc. induction ds as [|d ds IH]; intros acc; simpl.
  { by rewrite (right_id_L [] (++)). }
  rewrite decide_True by done. by rewrite IH, <-(assoc_L (++)).
Qed.

(** A file holds what was written to it since it was last opened. *)
Lemma file_data_opened path before w ds tail :
  Forall (λ e, match e with Print _ => True | _ => False end) tail →
  file_data path (before ++ OpenWrite w path :: (Write path <$> ds)
                  ++ Close path :: tail) = ds.
Proof.
  intros Htail. unfold file_data. rewrite foldl_app. simpl.
  rewrite decide_True by done. rewrite file_data_writes. simpl.
  induction Htail as [|e tail He _ IH]; [done|]. by destruct e.
Qed.
End Files.

Lemma dots_no_root : ¬ is_root (lit "..").
Proof. intros [H|H]; by vm_compute in H. Qed.

(** The output file of a run whose names are relative lies below [..]. *)
Lemma file_path_relative (folder_name file_name file_extension code : str) :
  Stated.relative_name folder_name → Stated.relative_name code →
  Stated.relative_name file_name →
  relative_to (RpScrape.file_path_of folder_name file_name file_extension code)
    (path_of_str (lit "../"))
  = Ok (drop 1 (RpScrape.file_path_of folder_name file_name file_extension code)).
Proof.
  intros Hfolder Hcode Hfile.
  assert (Stated.relative_name (file_name ++ lit "." ++ file_extension)) as Hname.
  { destruct file_name; [by vm_compute|done]. }
  unfold RpScrape.file_path_of, RpScrape.out_dir_of, path_div.
  rewrite !decide_False by done.
  change (path_of_str (lit "../data")) with [lit ".."; lit "data"].
  change (path_of_str (lit "../")) with [lit ".."].
  rewrite <-!(assoc_L (++)). cbn [app]. unfold relative_to. cbn [path_anchor].
  rewrite (decide_False (P := is_root (lit ".."))) by apply dots_no_root.
  by rewrite decide_True.
Qed.

Section Pipeline.
Import RpScrape Stated.
Context {Doc BetfairData : Type}
        (settings_toml : option Toml)
        (requests_get : str → res (list N))
        (html_fromstring : list N → res Doc)
        (Race : str → Doc → str → list str → option BetfairData → res RaceObj)
        (Betfair : list str → res (BetfairObj (BetfairData := BetfairData)))
        (as_completed : list (nat * str) → list (nat * str)).

Local Abbreviation process' := (process requests_get html_fromstring Race).
Local Abbreviation main_pass' := (main_pass requests_get html_fromstring Race as_completed).
Local Abbreviation betfair_step' := (betfair_step settings_toml Betfair).

Lemma for_events {A} (P : event → Prop) (xs : list A) (body : A → out event ()) :
  (∀ x, Forall P (body x).1 ∧ (body x).2 = Ok ()) →
  Forall P (for_ xs body).1 ∧ (for_ xs body).2 = Ok ().
Proof.
  intros Hbody. induction xs as [|x xs [IH1 IH2]]; [by split|].
  rewrite for_cons. destruct (Hbody x) as [Hx1 Hx2].
  destruct (body x) as [t r]. cbn [fst snd] in *. subst r.
  rewrite out_bind_ok. cbn [fst snd]. split; [by apply Forall_app|done].
Qed.

(** The side-dataset step: nothing at all unless enrichment is requested
    and enabled; otherwise the build, announced, and, when it returns, the
    side artifact. *)
Lemma betfair_step_spec race_urls folder_name file_name code file_writer fetch_betfair :
  let step := betfair_step' race_urls folder_name file_name code file_writer fetch_betfair in
  Forall side_event step.1
  ∧ (fetch_betfair && betfair_enabled settings_toml = false → step = ([], Ok None))
  ∧ (fetch_betfair && betfair_enabled settings_toml = true →
       (∃ rest, step.1 = Print (lit "Getting Betfair data...")
                         :: BuildBetfair race_urls :: rest)
       ∧ match Betfair race_urls with
         | Ok b => step.2 = Ok (Some b)
         | Raise e => step.2 = Raise e
         end)
  ∧ (∀ b, step.2 = Ok b → b = built_betfair settings_toml Betfair race_urls fetch_betfair).
Proof.
  unfold betfair_step, built_betfair.
  destruct (fetch_betfair && betfair_enabled settings_toml); cbn zeta.
  2: { split; [constructor|]. split; [done|]. split; [done|]. by intros b [= <-]. }
  unfold print, emit, out_lift.
  destruct (Betfair race_urls) as [b|e].
  2: { split; [by repeat constructor|]. split; [done|].
       split; [split; [by eexists|done]|done]. }
  repeat (rewrite out_bind_ok; cbn beta; cbn [fst snd]).
  rewrite with_file_eq.
  match goal with |- context [for_ (rows b) ?body] =>
    destruct (for_events side_event (rows b) body) as [Hev Hok]; [by repeat constructor|];
    set (loop := for_ (rows b) body) in *
  end.
  unfold write, emit.
  repeat (rewrite out_bind_ok; cbn beta; cbn [fst snd]).
  rewrite Hok. cbn [fst snd app].
  split.
  { repeat (constructor; [done|]). rewrite !Forall_app.
    split; [split; [done|by repeat constructor]|by repeat constructor]. }
  split; [done|]. split; [split; [by eexists|done]|]. by intros ? [= <-].
Qed.

(** The side-dataset step, event by event. *)
Lemma betfair_step_events race_urls folder_name file_name code file_writer fetch_betfair :
  betfair_step' race_urls folder_name file_name code file_writer fetch_betfair
  = if fetch_betfair && betfair_enabled settings_toml then
      match Betfair race_urls with
      | Ok b => (side_events settings_toml (Some b) race_urls folder_name file_name code
                   file_writer,
                 Ok (Some b))
      | Raise e => ([Print (lit "Getting Betfair data..."); BuildBetfair race_urls], Raise e)
      end
    else ([], Ok None).
Proof.
  unfold betfair_step. destruct (fetch_betfair && betfair_enabled settings_toml); [|done].
  cbn zeta. unfold print, emit, out_lift.
  destruct (Betfair race_urls) as [b|e]; [|done].
  repeat (rewrite out_bind_ok; cbn beta; cbn [fst snd]).
  rewrite with_file_eq. unfold write.
  rewrite (for_emit (λ row, Write _ (join (lit ",") (default [] <$> row) ++ [LF]))).
  unfold emit. repeat (rewrite out_bind_ok; cbn beta; cbn [fst snd]).
  f_equal. cbn [app mret out_ret fst]. rewrite (right_id_L [] (++)).
  unfold side_events, side_lines, side_path_of, side_dir_of. cbn [app].
  rewrite fmap_cons, <-list_fmap_compose. reflexivity.
Qed.

Lemma main_pass_empty betfair file_path code file_writer fields csv_header jobs :
  main_pass' betfair [] file_path code file_writer fields csv_header jobs
  = ([Print (lit "No races found to scrape.")], Ok ()).
Proof. reflexivity. Qed.

(** The trace of the main pass over a non-empty list: the pool is
    started with the clamped size, every job is submitted, every job runs,
    and only then, unless a job raised, the file is opened and written;
    the closing report names the file relative to [..], which raises for a
    file that is not below [..]. *)
Lemma main_pass_shape betfair race_urls file_path code file_writer fields csv_header jobs :
  race_urls ≠ [] →
  let submitted := enumerate 1 race_urls in
  let gathered := gather requests_get html_fromstring Race as_completed
                    (length race_urls) code fields betfair submitted in
  ∃ banner tail result,
    match relative_to file_path (path_of_str (lit "../")) with
    | Ok rel_path =>
        tail = [Print (lit "Finished scraping." ++ [LF] ++ lit "Data path: rpscrape/"
                       ++ path_str rel_path)]
        ∧ result = Ok ()
    | Raise e => tail = [] ∧ result = Raise e
    end
    ∧ let upto_jobs := Print banner :: PoolStart (clamp jobs)
                       :: ((λ job, Submit job.1 job.2) <$> submitted) ++ gathered.1 in
      main_pass' betfair race_urls file_path code file_writer fields csv_header jobs =
        match gathered.2 with
        | Ok results =>
            (upto_jobs ++ OpenWrite file_writer (path_str file_path)
               :: (Write (path_str file_path) <$>
                     ((csv_header ++ [LF])
                      :: ((λ row, row ++ [LF])
                            <$> mjoin ((sort_by fst Nat.ltb results).*2))))
               ++ Close (path_str file_path) :: tail,
             result)
        | Raise e => (upto_jobs, Raise e)
        end.
Proof.
  intros Hne submitted gathered. unfold main_pass.
  rewrite decide_False by (by destruct race_urls).
  exists (lit "Scraping " ++ str_of_int (Z.of_nat (length race_urls)) ++ lit " races with "
          ++ str_of_int (max 1 (min 10 jobs)) ++ lit " worker(s)...").
  fold submitted. fold gathered.
  rewrite for_submits. unfold print, emit, out_lift.
  destruct (relative_to file_path (path_of_str (lit "../"))) as [rel_path|e'];
    (eexists _, _; split; [split; reflexivity|]);
    destruct gathered as [job_events [results|e]].
  - repeat (rewrite out_bind_ok; cbn beta).
    rewrite with_file_eq, for_rows.
    change (write (path_str file_path) (csv_header ++ [LF]))
      with (([Write (path_str file_path) (csv_header ++ [LF])], Ok ()) : out event ()).
    repeat (rewrite out_bind_ok; cbn beta; cbn [fst snd]).
    f_equal. simpl. rewrite <-!(assoc_L (++)). simpl. reflexivity.
  - repeat (rewrite out_bind_ok; cbn beta; cbn [fst snd]). rewrite out_bind_raise.
    cbn [fst snd]. f_equal.
  - repeat (rewrite out_bind_ok; cbn beta).
    rewrite with_file_eq, for_rows.
    change (write (path_str file_path) (csv_header ++ [LF]))
      with (([Write (path_str file_path) (csv_header ++ [LF])], Ok ()) : out event ()).
    repeat (rewrite out_bind_ok; cbn beta; cbn [fst snd]).
    rewrite out_bind_raise. f_equal. simpl. rewrite <-!(assoc_L (++)). simpl.
    reflexivity.
  - repeat (rewrite out_bind_ok; cbn beta; cbn [fst snd]). rewrite out_bind_raise.
    cbn [fst snd]. f_equal.
Qed.

(** The closing report is all that follows the writing of the file. *)
Lemma main_pass_tail (file_path : Path) (tail : list event) (result : res ()) :
  match relative_to file_path (path_of_str (lit "../")) with
  | Ok rel_path =>
      tail = [Print (lit "Finished scraping." ++ [LF] ++ lit "Data path: rpscrape/"
                     ++ path_str rel_path)]
      ∧ result = Ok ()
  | Raise e => tail = [] ∧ result = Raise e
  end →
  Forall (λ e, match e with Print _ => True | _ => False end) tail.
Proof. destruct (relative_to _ _); intros [-> _]; by repeat constructor. Qed.

Local Abbreviation gather' := (gather requests_get html_fromstring Race as_completed).

Lemma gather_events total code fields betfair jobs :
  Forall worker_event (gather' total code fields betfair jobs).1
  ∧ ∀ job, job ∈ as_completed jobs →
           HttpGet job.2 ∈ (gather' total code fields betfair jobs).1.
Proof.
  unfold gather. cbn [fst]. induction (as_completed jobs) as [|j js [IH1 IH2]]; csimpl.
  { split; [constructor|]. by intros ? ?%elem_of_nil. }
  destruct (process_events requests_get html_fromstring Race total code fields betfair
              j.1 j.2) as [Hget Hall].
  split; [by apply Forall_app|].
  intros job [->|Hin]%elem_of_cons; apply elem_of_app; [by left|right; by apply IH2].
Qed.

(** When every worker returns, the results are gathered in completion
    order, each under the index of its job. *)
Lemma gather_returns total code fields betfair jobs :
  (∀ job, job ∈ jobs →
     ∃ v, (process' total code fields betfair job.1 job.2).2 = Ok v) →
  (∀ l, as_completed l ≡ₚ l) →
  (gather' total code fields betfair jobs).2 =
    Ok ((λ job, (job.1, job_rows (process' total code fields betfair job.1 job.2).2))
          <$> as_completed jobs).
Proof.
  intros Hjobs Hperm. unfold gather. cbn [snd].
  rewrite <-first_failure_fmap_Ok. f_equal.
  rewrite <-!list_fmap_compose. apply list_fmap_ext.
  intros i job Hjob. simpl.
  destruct (Hjobs job) as [[i' rows] Hv].
  { rewrite <-(Hperm jobs). by eapply list_elem_of_lookup_2. }
  rewrite Hv. simpl. by rewrite (process_index _ _ _ _ _ _ _ _ _ _ _ Hv).
Qed.

(** When a worker raises, so does the gathering of the results. *)
Lemma gather_raises total code fields betfair jobs job e :
  (∀ l, as_completed l ≡ₚ l) →
  job ∈ jobs → (process' total code fields betfair job.1 job.2).2 = Raise e →
  ∃ e', (gather' total code fields betfair jobs).2 = Raise e'.
Proof.
  intros Hperm Hjob Hraise. unfold gather. cbn [snd].
  apply (first_failure_Raise _ e). rewrite <-Hraise.
  rewrite <-list_fmap_compose.
  apply (list_elem_of_fmap_2 (λ j, (process' total code fields betfair j.1 j.2).2)).
  by rewrite Hperm.
Qed.

(** Sorting the gathered results by index restores the order of
    submission. *)
Lemma sorted_results {B} (f : nat * str → nat * B) (race_urls : list str) :
  (∀ job, (f job).1 = job.1) →
  (∀ l, as_completed l ≡ₚ l) →
  sort_by fst Nat.ltb (f <$> as_completed (enumerate 1 race_urls))
  = f <$> enumerate 1 race_urls.
Proof.
  intros Hf Hperm. apply (sort_by_unique fst Nat.ltb nat_ltb_asym nat_leb_trans).
  - by rewrite Hperm.
  - by apply enumerate_sorted.
Qed.

Lemma scrape_races_eq race_urls folder_name file_name file_extension code file_writer
    fields csv_header fetch_betfair jobs :
  scrape_races settings_toml requests_get html_fromstring Race Betfair as_completed
    race_urls folder_name file_name file_extension code file_writer fields csv_header
    fetch_betfair jobs =
  let step := betfair_step' race_urls folder_name file_name code file_writer fetch_betfair in
  match step.2 with
  | Ok betfair =>
      let pass := main_pass' betfair race_urls
                    (file_path_of folder_name file_name file_extension code)
                    code file_writer fields csv_header jobs in
      (Mkdir (out_dir_of folder_name code) :: step.1 ++ pass.1, pass.2)
  | Raise e => (Mkdir (out_dir_of folder_name code) :: step.1, Raise e)
  end.
Proof.
  unfold scrape_races. cbn zeta. unfold emit. rewrite out_bind_ok. cbn beta.
  destruct (betfair_step' _ _ _ _ _ _) as [bt [betfair|e]].
  - rewrite out_bind_ok. reflexivity.
  - reflexivity.
Qed.
End Pipeline.

Section PipelineTraces.
Import RpScrape Stated.
Context {Doc BetfairData : Type}
        (settings_toml : option Toml)
        (requests_get : str → res (list N))
        (html_fromstring : list N → res Doc)
        (Race : str → Doc → str → list str → option BetfairData → res RaceObj)
        (Betfair : list str → res (BetfairObj (BetfairData := BetfairData)))
        (as_completed : list (nat * str) → list (nat * str)).


(** When a worker raises, the main pass raises and opens no file. *)
Lemma main_pass_job_raises betfair race_urls file_path code file_writer fields csv_header
    jobs job e :
  (∀ l, as_completed l ≡ₚ l) →
  job ∈ enumerate 1 race_urls →
  (process requests_get html_fromstring Race (length race_urls) code fields betfair
     job.1 job.2).2 = Raise e →
  let pass := main_pass requests_get html_fromstring Race as_completed betfair race_urls
                file_path code file_writer fields csv_header jobs in
  (∃ e', pass.2 = Raise e')
  ∧ ∀ ev, ev ∈ pass.1 →
          match ev with OpenWrite _ _ | Write _ _ => False | _ => True end.
Proof.
  intros Hperm Hjob Hraise.
  assert (race_urls ≠ []) as Hne by (intros ->; by apply elem_of_nil in Hjob).
  destruct (main_pass_shape requests_get html_fromstring Race as_completed betfair race_urls
              file_path code file_writer fields csv_header jobs Hne)
    as (banner & tail & result & _ & Hpass).
  cbn zeta in *. rewrite Hpass. clear Hpass.
  destruct (gather_raises requests_get html_fromstring Race as_completed
              (length race_urls) code fields betfair (enumerate 1 race_urls) job e
              Hperm Hjob Hraise) as [e' He'].
  destruct (gather_events requests_get html_fromstring Race as_completed
              (length race_urls) code fields betfair (enumerate 1 race_urls)) as [Hev _].
  rewrite He'. cbn [fst snd]. split; [by eexists|].
  intros ev Hin.
  apply elem_of_cons in Hin as [->|Hin]; [done|].
  apply elem_of_cons in Hin as [->|Hin]; [done|].
  apply elem_of_app in Hin as [Hin|Hin].
  - by apply list_elem_of_fmap in Hin as (? & -> & _).
  - rewrite Forall_forall in Hev. apply Hev in Hin. by destruct ev.
Qed.


(** With no address, what [scrape_races] does is the side-dataset step
    and then the report that there is nothing to scrape. *)
Lemma scrape_races_empty folder_name file_name file_extension code file_writer
    fields csv_header fetch_betfair jobs :
  let run := scrape_races settings_toml requests_get html_fromstring Race Betfair
               as_completed [] folder_name file_name file_extension code
               file_writer fields csv_header fetch_betfair jobs in
  let step := betfair_step settings_toml Betfair [] folder_name file_name code
                file_writer fetch_betfair in
  run = match step.2 with
        | Ok _ => (Mkdir (out_dir_of folder_name code) :: step.1
                     ++ [Print (lit "No races found to scrape.")], Ok ())
        | Raise e => (Mkdir (out_dir_of folder_name code) :: step.1, Raise e)
        end.
Proof.
  cbn zeta. rewrite scrape_races_eq. cbn zeta.
  destruct (betfair_step _ _ _ _ _ _ _ _).2; [|done]. by rewrite main_pass_empty.
Qed.
End PipelineTraces.

Lemma elem_of_enumerate {A} n (xs : list A) x : x ∈ xs → ∃ i, (i, x) ∈ enumerate n xs.
Proof.
  revert n. induction xs as [|y xs IH]; intros n; [by intros ?%elem_of_nil|].
  intros [->|Hin]%elem_of_cons; simpl.
  - exists n. by left.
  - destruct (IH (S n) Hin) as [i Hi]. exists i. by right.
Qed.

Section PipelineClaims.
Import RpScrape Stated.

(** C1: the main output file holds the header and then the rows of the
    jobs in the order of the input addresses, whatever the order in which
    the jobs complete.  The run records, in this order: the making of the
    output folder, the side-dataset step, the start of the pool, the
    submission of every job, the events of the jobs, which only print and
    fetch, and only then the opening of the output file, the writing of
    all its lines in one go, its closing and the closing report: no row is
    written while the jobs run. *)
Theorem scrape_output_in_input_order {Doc BetfairData : Type}
    (settings_toml : option Toml)
    (requests_get : str → res (list N))
    (html_fromstring : list N → res Doc)
    (Race : str → Doc → str → list str → option BetfairData → res RaceObj)
    (Betfair : list str → res (BetfairObj (BetfairData := BetfairData)))
    (as_completed : list (nat * str) → list (nat * str))
    (race_urls : list str) (folder_name file_name file_extension code : str)
    (file_writer : writer) (fields : list str) (csv_header : str)
    (fetch_betfair : bool) (jobs : Z) :
  let betfair := built_betfair settings_toml Betfair race_urls fetch_betfair in
  let worker := process requests_get html_fromstring Race (length race_urls) code fields
                  betfair in
  let file_path := path_str (file_path_of folder_name file_name file_extension code) in
  let lines := (csv_header ++ [LF])
               :: ((λ row, row ++ [LF])
                     <$> mjoin ((λ job, job_rows (worker job.1 job.2).2)
                                  <$> enumerate 1 race_urls)) in
  let run := scrape_races settings_toml requests_get html_fromstring Race Betfair
               as_completed race_urls folder_name file_name file_extension code
               file_writer fields csv_header fetch_betfair jobs in
  (∀ l, as_completed l ≡ₚ l) →
  race_urls ≠ [] →
  relative_name folder_name → relative_name code → relative_name file_name →
  (fetch_betfair && betfair_enabled settings_toml = true →
     ∃ b, Betfair race_urls = Ok b) →
  (∀ job, job ∈ enumerate 1 race_urls → ∃ v, (worker job.1 job.2).2 = Ok v) →
  ∃ banner job_events msg,
    run = (Mkdir (out_dir_of folder_name code)
             :: side_events settings_toml betfair race_urls folder_name file_name code
                  file_writer
             ++ Print banner :: PoolStart (clamp jobs)
             :: ((λ job, Submit job.1 job.2) <$> enumerate 1 race_urls)
             ++ job_events
             ++ OpenWrite file_writer file_path :: (Write file_path <$> lines)
             ++ [Close file_path; Print msg],
           Ok ())
    ∧ Forall worker_event job_events
    ∧ (∀ url, url ∈ race_urls → HttpGet url ∈ job_events)
    ∧ file_data file_path run.1 = lines.
Proof.
  intros betfair worker file_path lines run Hperm Hne Hfolder Hcode Hfile Hside Hjobs.
  assert (betfair_step settings_toml Betfair race_urls folder_name file_name code
            file_writer fetch_betfair
          = (side_events settings_toml betfair race_urls folder_name file_name code
               file_writer, Ok betfair)) as Hstep.
  { rewrite betfair_step_events. unfold betfair, built_betfair.
    destruct (fetch_betfair && betfair_enabled settings_toml) eqn:Hc; [|done].
    destruct (Hside eq_refl) as [b Hb]. by rewrite Hb. }
  destruct (main_pass_shape requests_get html_fromstring Race as_completed betfair race_urls
              (file_path_of folder_name file_name file_extension code)
              code file_writer fields csv_header jobs Hne)
    as (banner & tail & result & Htail & Hpass).
  rewrite (file_path_relative _ _ _ _ Hfolder Hcode Hfile) in Htail.
  destruct Htail as [-> ->].
  cbn zeta in Hpass.
  rewrite (gather_returns requests_get html_fromstring Race as_completed _ _ _ _ _
             Hjobs Hperm) in Hpass.
  rewrite (sorted_results as_completed
             (λ job, (job.1, job_rows (worker job.1 job.2).2))) in Hpass by done.
  rewrite <-list_fmap_compose in Hpass.
  destruct (gather_events requests_get html_fromstring Race as_completed
              (length race_urls) code fields betfair (enumerate 1 race_urls))
    as [Hworkers Hget].
  set (job_events := (gather _ _ _ _ _ _ _ _ _).1) in *.
  set (msg := lit "Finished scraping." ++ [LF] ++ lit "Data path: rpscrape/"
              ++ path_str (drop 1 (file_path_of folder_name file_name file_extension
                                     code))) in *.
  assert (run = (Mkdir (out_dir_of folder_name code)
                   :: side_events settings_toml betfair race_urls folder_name file_name
                        code file_writer
                   ++ Print banner :: PoolStart (clamp jobs)
                   :: ((λ job, Submit job.1 job.2) <$> enumerate 1 race_urls)
                   ++ job_events
                   ++ OpenWrite file_writer file_path :: (Write file_path <$> lines)
                   ++ [Close file_path; Print msg],
                 Ok ())) as Hrun.
  { unfold run. rewrite scrape_races_eq. cbn zeta. rewrite Hstep. cbn [fst snd].
    rewrite Hpass. cbn [fst snd]. f_equal.
    repeat first [rewrite <-app_comm_cons | rewrite <-(assoc_L (++))]. reflexivity. }
  exists banner, job_events, msg. split; [exact Hrun|]. split; [done|]. split.
  - intros url Hurl. destruct (elem_of_enumerate 1 _ _ Hurl) as [i Hi].
    apply (Hget (i, url)). by rewrite Hperm.
  - rewrite Hrun. cbn [fst].
    transitivity
      (file_data file_path
         ((Mkdir (out_dir_of folder_name code)
             :: side_events settings_toml betfair race_urls folder_name file_name code
                  file_writer
             ++ Print banner :: PoolStart (clamp jobs)
             :: ((λ job, Submit job.1 job.2) <$> enumerate 1 race_urls) ++ job_events)
          ++ OpenWrite file_writer file_path :: (Write file_path <$> lines)
          ++ Close file_path :: [Print msg])).
    { f_equal. repeat first [rewrite <-app_comm_cons | rewrite <-(assoc_L (++))].
      reflexivity. }
    apply file_data_opened. by repeat constructor.
Qed.

Lemma scrape_output_in_input_order_witness :
  let race_urls := [Fixtures.url_chase; Sample.url_flat; Sample.url_hurdle;
                    Sample.url_void; Sample.url_down] in
  let betfair := built_betfair Sample.settings_toml Sample.Betfair race_urls true in
  let worker := process Sample.requests_get Sample.html_fromstring Fixtures.Race
                  (length race_urls) (lit "jumps") [] betfair in
  let file_path := path_str (file_path_of (lit "dates/gb") (lit "gb-2024-05-01")
                               (lit "csv") (lit "jumps")) in
  let lines := (lit "date,course,horse" ++ [LF])
               :: ((λ row, row ++ [LF])
                     <$> mjoin ((λ job, job_rows (worker job.1 job.2).2)
                                  <$> enumerate 1 race_urls)) in
  let run := scrape_races Sample.settings_toml Sample.requests_get Sample.html_fromstring
               Fixtures.Race Sample.Betfair Sample.as_completed race_urls
               (lit "dates/gb") (lit "gb-2024-05-01") (lit "csv") (lit "jumps")
               writer_csv [] (lit "date,course,horse") true 3 in
  (∃ banner job_events msg,
     run = (Mkdir (out_dir_of (lit "dates/gb") (lit "jumps"))
              :: side_events Sample.settings_toml betfair race_urls (lit "dates/gb")
                   (lit "gb-2024-05-01") (lit "jumps") writer_csv
              ++ Print banner :: PoolStart (clamp 3)
              :: ((λ job, Submit job.1 job.2) <$> enumerate 1 race_urls)
              ++ job_events
              ++ OpenWrite writer_csv file_path :: (Write file_path <$> lines)
              ++ [Close file_path; Print msg],
            Ok ())
     ∧ Forall worker_event job_events
     ∧ (∀ url, url ∈ race_urls → HttpGet url ∈ job_events)
     ∧ file_data file_path run.1 = lines)
  ∧ file_path = lit "../data/dates/gb/jumps/gb-2024-05-01.csv"
  ∧ lines = [lit "date,course,horse" ++ [LF];
             lit "2024-05-01,Ayr,c1" ++ [LF];
             lit "2024-05-01,Ayr,h1" ++ [LF];
             lit "2024-05-01,Ayr,h2" ++ [LF]].
Proof.
  split; [|by vm_compute].
  apply (scrape_output_in_input_order Sample.settings_toml Sample.requests_get
           Sample.html_fromstring Fixtures.Race Sample.Betfair Sample.as_completed).
  - intros l. apply reverse_Permutation.
  - done.
  - by vm_compute.
  - by vm_compute.
  - by vm_compute.
  - intros _. by eexists.
  - intros job Hjob. vm_compute in Hjob.
    repeat (apply elem_of_cons in Hjob as [->|Hjob]; [vm_compute; by eexists|]).
    by apply elem_of_nil in Hjob.
Defined.

(** The sample run: the jobs complete last to first, the flat race is
    filtered out, the void, the garbled and the unreachable page give no
    rows, and the file holds the header and the two rows of the hurdle
    race. *)
Example scrape_races_example :
  let run := Sample.scrape_races
               [Sample.url_flat; Sample.url_hurdle; Sample.url_void;
                Sample.url_garbled; Sample.url_down]
               (lit "dates/gb") (lit "gb-2024-05-01") (lit "csv") (lit "jumps")
               writer_csv [] (lit "date,course,horse") false 3 in
  run.2 = Ok ()
  ∧ file_data (lit "../data/dates/gb/jumps/gb-2024-05-01.csv") run.1
    = [lit "date,course,horse" ++ [LF];
       lit "2024-05-01,Ayr,h1" ++ [LF];
       lit "2024-05-01,Ayr,h2" ++ [LF]].
Proof. vm_compute. done. Qed.

(** C2: a page with an empty body.  The fetch succeeds, [html.fromstring]
    raises, and nothing catches it: the worker raises instead of returning
    [(index, [])], [scrape_races] raises with it, and the output file is
    never opened, so the rows of the other job are lost as well. *)
Theorem worker_lets_document_error_escape :
  (Sample.process 2 (lit "flat") [] None 2 Sample.url_empty).2
    = Raise (Exception (lit "Document is empty"))
  ∧ (Sample.process 2 (lit "flat") [] None 1 Sample.url_flat).2
    = Ok (1, [lit "2024-05-01,Newcastle,f1"])
  ∧ (Sample.scrape_races [Sample.url_flat; Sample.url_empty]
       (lit "dates/gb") (lit "gb-2024-05-01") (lit "csv") (lit "flat")
       writer_csv [] (lit "date,course,horse") false 6).2
    = Raise (Exception (lit "Document is empty"))
  ∧ file_data (lit "../data/dates/gb/flat/gb-2024-05-01.csv")
      (Sample.scrape_races [Sample.url_flat; Sample.url_empty]
         (lit "dates/gb") (lit "gb-2024-05-01") (lit "csv") (lit "flat")
         writer_csv [] (lit "date,course,horse") false 6).1
    = [].
Proof. vm_compute. done. Qed.

(** C7: for a record that was parsed, the worker returns the record's rows
    under discipline [flat] exactly when the race type is [Flat], and under
    discipline [jumps] exactly when it is one of [Chase], [Hurdle] and
    [NH Flat]; otherwise it returns no rows, which is what it returns for a
    void race. *)
Theorem discipline_filter_keeps_or_drops_all {Doc BetfairData : Type}
    (requests_get : str → res (list N))
    (html_fromstring : list N → res Doc)
    (Race : str → Doc → str → list str → option BetfairData → res RaceObj)
    (total : nat) (code : str) (fields : list str)
    (betfair : option (BetfairObj (BetfairData := BetfairData)))
    (idx : nat) (url : str) (content : list N) (doc : Doc) (race : RaceObj) :
  requests_get url = Ok content →
  html_fromstring content = Ok doc →
  Race url doc code fields (data <$> betfair) = Ok race →
  let worker := process requests_get html_fromstring Race total code fields betfair in
  (code = lit "flat" →
     (worker idx url).2
     = Ok (idx, if decide (r_type race = lit "Flat") then csv_data race else []))
  ∧ (code = lit "jumps" →
     (worker idx url).2
     = Ok (idx, if decide (r_type race ∈ [lit "Chase"; lit "Hurdle"; lit "NH Flat"])
                then csv_data race else []))
  ∧ (∀ url' content' doc',
       requests_get url' = Ok content' → html_fromstring content' = Ok doc' →
       Race url' doc' code fields (data <$> betfair) = Raise VoidRaceError →
       (worker idx url').2 = Ok (idx, [])).
Proof.
  intros Hget Hdoc Hrace worker. unfold worker.
  rewrite (process_parsed _ _ _ _ _ _ _ _ _ _ _ _ Hget Hdoc Hrace).
  split; [|split].
  - intros ->. destruct (decide (r_type race = lit "Flat")) as [Heq|Hne].
    + rewrite decide_False by (intros [_ ?]; done).
      by rewrite decide_False by (by intros [? _]).
    + by rewrite decide_True by done.
  - intros ->. rewrite decide_False by (by intros [? _]).
    fold jump_types. destruct (decide (r_type race ∈ jump_types)).
    + by rewrite decide_False by (intros [_ ?]; done).
    + by rewrite decide_True by done.
  - intros url' content' doc' Hget' Hdoc' Hvoid.
    destruct (process_void_race requests_get html_fromstring Race total code fields
                betfair idx url' content' doc' Hget' Hdoc' Hvoid) as [banner ->].
    done.
Qed.

Lemma discipline_filter_keeps_or_drops_all_witness :
  let worker := process Sample.requests_get Sample.html_fromstring Sample.Race
                  5 (lit "jumps") [] None in
  let race := {| r_type := lit "Hurdle";
                 csv_data := [lit "2024-05-01,Ayr,h1"; lit "2024-05-01,Ayr,h2"] |} in
  (lit "jumps" = lit "flat" →
     (worker 2 Sample.url_hurdle).2
     = Ok (2, if decide (r_type race = lit "Flat") then csv_data race else []))
  ∧ (lit "jumps" = lit "jumps" →
     (worker 2 Sample.url_hurdle).2
     = Ok (2, if decide (r_type race ∈ [lit "Chase"; lit "Hurdle"; lit "NH Flat"])
              then csv_data race else []))
  ∧ (∀ url' content' doc',
       Sample.requests_get url' = Ok content' →
       Sample.html_fromstring content' = Ok doc' →
       Sample.Race url' doc' (lit "jumps") [] (data <$> None) = Raise VoidRaceError →
       (worker 2 url').2 = Ok (2, [])).
Proof.
  apply (discipline_filter_keeps_or_drops_all Sample.requests_get Sample.html_fromstring
           Sample.Race 5 (lit "jumps") [] None 2 Sample.url_hurdle
           Sample.url_hurdle Sample.url_hurdle).
  - by vm_compute.
  - by vm_compute.
  - by vm_compute.
Defined.

(** The examples of the specification: [Hurdle] is kept under [jumps]
    and dropped under [flat], [Flat] is kept under [flat] and dropped under
    [jumps]. *)
Example discipline_filter_examples :
  (Sample.process 1 (lit "jumps") [] None 1 Sample.url_hurdle).2
    = Ok (1, [lit "2024-05-01,Ayr,h1"; lit "2024-05-01,Ayr,h2"])
  ∧ (Sample.process 1 (lit "flat") [] None 1 Sample.url_hurdle).2 = Ok (1, [])
  ∧ (Sample.process 1 (lit "flat") [] None 1 Sample.url_flat).2
    = Ok (1, [lit "2024-05-01,Newcastle,f1"])
  ∧ (Sample.process 1 (lit "jumps") [] None 1 Sample.url_flat).2 = Ok (1, [])
  ∧ (Sample.process 1 (lit "jumps") [] None 1 Sample.url_void).2 = Ok (1, []).
Proof. vm_compute. done. Qed.

(** With enrichment requested and enabled, the side dataset is built even
    from an empty list of addresses. *)
Lemma empty_urls_side_dataset_still_built :
  ¬ (∀ urls,
       BuildBetfair urls ∉
         (Sample.scrape_races [] (lit "dates/gb") (lit "gb-2024-05-01") (lit "csv")
            (lit "flat") writer_csv [] (lit "date,course,horse") true 6).1).
Proof. intros Hnone. apply (Hnone []). vm_compute. do 2 right. left. Qed.

(** C8, as the code has it: with no address the call starts no pool,
    submits no job and fetches no page, and the main pass writes nothing.
    When enrichment is not requested or not enabled, all the call does is
    to make the output folder and to report that there is nothing to
    scrape.  The side-dataset step itself is not skipped: when enrichment
    is requested and enabled the side dataset is built from the empty
    list and the side artifact is written (opened, its lines written,
    closed) before that report; and when that build raises, the call ends
    with its exception after the announcement and the build. *)
Theorem scrape_empty_urls_only_side_step {Doc BetfairData : Type}
    (settings_toml : option Toml)
    (requests_get : str → res (list N))
    (html_fromstring : list N → res Doc)
    (Race : str → Doc → str → list str → option BetfairData → res RaceObj)
    (Betfair : list str → res (BetfairObj (BetfairData := BetfairData)))
    (as_completed : list (nat * str) → list (nat * str))
    (folder_name file_name file_extension code : str)
    (file_writer : writer) (fields : list str) (csv_header : str)
    (fetch_betfair : bool) (jobs : Z) :
  let run := scrape_races settings_toml requests_get html_fromstring Race Betfair
               as_completed [] folder_name file_name file_extension code
               file_writer fields csv_header fetch_betfair jobs in
  let report := Print (lit "No races found to scrape.") in
  Forall side_event run.1
  ∧ run = if fetch_betfair && betfair_enabled settings_toml then
            match Betfair [] with
            | Ok b =>
                (Mkdir (out_dir_of folder_name code)
                   :: side_events settings_toml (Some b) [] folder_name file_name code
                        file_writer
                   ++ [report],
                 Ok ())
            | Raise e =>
                ([Mkdir (out_dir_of folder_name code);
                  Print (lit "Getting Betfair data..."); BuildBetfair []],
                 Raise e)
            end
          else ([Mkdir (out_dir_of folder_name code); report], Ok ()).
Proof.
  intros run report.
  pose proof (scrape_races_empty settings_toml requests_get html_fromstring Race Betfair
                as_completed folder_name file_name file_extension code file_writer
                fields csv_header fetch_betfair jobs) as Hrun.
  cbn zeta in Hrun. fold run report in Hrun.
  destruct (betfair_step_spec settings_toml Betfair [] folder_name file_name code
              file_writer fetch_betfair) as (Hside & _).
  cbn zeta in Hside. split.
  - rewrite Hrun. destruct (betfair_step _ _ _ _ _ _ _ _).2; cbn [fst].
    + constructor; [done|]. apply Forall_app. split; [done|by repeat constructor].
    + by constructor.
  - rewrite Hrun, betfair_step_events.
    destruct (fetch_betfair && betfair_enabled settings_toml); [|done].
    by destruct (Betfair []).
Qed.

Lemma scrape_empty_urls_only_side_step_witness :
  let side_path := lit "../data/betfair/dates/gb/flat/gb-2024-05-01.csv" in
  Sample.scrape_races [] (lit "dates/gb") (lit "gb-2024-05-01") (lit "csv")
    (lit "flat") writer_csv [] (lit "date,course,horse") true 6
  = ([Mkdir [lit ".."; lit "data"; lit "dates"; lit "gb"; lit "flat"];
      Print (lit "Getting Betfair data..."); BuildBetfair [];
      Mkdir [lit ".."; lit "data"; lit "betfair"; lit "dates"; lit "gb"; lit "flat"];
      OpenWrite writer_csv side_path;
      Write side_path (lit "date,region,off,horse,bsp,wap" ++ [LF]);
      Write side_path (lit "2024-05-01,gb,,Dobbin" ++ [LF]);
      Close side_path;
      Print (lit "No races found to scrape.")], Ok ())
  ∧ Sample.scrape_races [] (lit "dates/gb") (lit "gb-2024-05-01") (lit "csv")
      (lit "flat") writer_csv [] (lit "date,course,horse") false 6
    = ([Mkdir [lit ".."; lit "data"; lit "dates"; lit "gb"; lit "flat"];
        Print (lit "No races found to scrape.")], Ok ()).
Proof.
  split.
  - destruct (scrape_empty_urls_only_side_step Sample.settings_toml Sample.requests_get
                Sample.html_fromstring Sample.Race Sample.Betfair Sample.as_completed
                (lit "dates/gb") (lit "gb-2024-05-01") (lit "csv") (lit "flat")
                writer_csv [] (lit "date,course,horse") true 6) as [_ Hrun].
    unfold Sample.scrape_races. rewrite Hrun. by vm_compute.
  - destruct (scrape_empty_urls_only_side_step Sample.settings_toml Sample.requests_get
                Sample.html_fromstring Sample.Race Sample.Betfair Sample.as_completed
                (lit "dates/gb") (lit "gb-2024-05-01") (lit "csv") (lit "flat")
                writer_csv [] (lit "date,course,horse") false 6) as [_ Hrun].
    unfold Sample.scrape_races. rewrite Hrun. by vm_compute.
Defined.

End PipelineClaims.

(* ===================================================================== *)
(** * The worker count *)
(* ===================================================================== *)

Section WorkerCount.
Import Stated.


Example clamp_examples :
  clamp 0 = 1%Z ∧ clamp (-7) = 1%Z ∧ clamp 1 = 1%Z ∧ clamp 6 = 6%Z
  ∧ clamp 10 = 10%Z ∧ clamp 11 = 10%Z ∧ clamp 42 = 10%Z.
Proof. done. Qed.


End WorkerCount.

(* ===================================================================== *)
(** * More on the retry driver *)
(* ===================================================================== *)

Lemma sorted_set_empty (s : gset str) : (∀ x, x ∉ s) → sorted_set s = [].
Proof.
  intros Hs. destruct (sorted_set s) as [|x l] eqn:Hl; [done|].
  destruct (Hs x). apply elem_of_sorted_set. rewrite Hl. by left.
Qed.

Lemma split_pieces_no_sep sep s p : p ∈ split sep s → sep ∉ p.
Proof.
  revert p. induction s as [|c s IH]; intros p; simpl.
  { intros ->%list_elem_of_singleton. apply not_elem_of_nil. }
  destruct (N.eqb_spec c sep) as [->|Hne].
  - intros [->|Hp]%elem_of_cons; [apply not_elem_of_nil|by apply IH].
  - pose proof (split_nonempty sep s) as Hnil.
    destruct (split sep s) as [|w ws]; [done|].
    intros [->|Hp]%elem_of_cons.
    + apply not_elem_of_cons. split; [done|]. apply IH. by left.
    + apply IH. by right.
Qed.

Lemma from_end_elem_of {A} (l : list A) k x : from_end l k = Some x → x ∈ l.
Proof.
  unfold from_end. destruct (decide _); [|done]. apply list_elem_of_lookup_2.
Qed.

(** Turning the hyphens of a segment into slashes gives a path of the
    parts the hyphens delimited. *)
Lemma split_replace_hyphen d :
  SLASH ∉ d → split SLASH (replace HYPHEN [SLASH] d) = split HYPHEN d.
Proof.
  induction d as [|c d IH]; [done|]. intros [Hc Hd]%not_elem_of_cons.
  unfold replace in *. csimpl. destruct (N.eqb_spec c HYPHEN) as [->|Hne]; simpl.
  - by rewrite IH.
  - destruct (N.eqb_spec c SLASH) as [->|_]; [done|]. by rewrite IH.
Qed.

Lemma sub_runs_length (sub : list str → gmap Path str → gmap Path str * Z)
    (cmds : list (list str)) (files : gmap Path str) :
  length (Shapes.sub_runs sub cmds files) = length cmds.
Proof.
  revert files. induction cmds as [|c cs IH]; intros f; simpl; [done|]. by rewrite IH.
Qed.

Lemma index_first (x : str) (pre rest : list str) :
  x ∉ pre → RetryFailed.index x (pre ++ x :: rest) = Some (length pre).
Proof.
  induction pre as [|y pre IH]; simpl.
  { intros _. by rewrite decide_True. }
  intros [Hy Hpre]%not_elem_of_cons. rewrite decide_False by done. by rewrite IH.
Qed.

Lemma index_absent (x : str) (parts : list str) :
  x ∉ parts → RetryFailed.index x parts = None.
Proof.
  induction parts as [|y parts IH]; simpl; [done|].
  intros [Hy Hparts]%not_elem_of_cons. rewrite decide_False by done. by rewrite IH.
Qed.

Lemma sub_runs_keep (sub : list str → gmap Path str → gmap Path str * Z)
    (p : Path) (cmds : list (list str)) (files : gmap Path str) :
  (∀ cmd files', (sub cmd files').1 !! p = files' !! p) →
  foldl (λ files' cmd, (sub cmd files').1) files cmds !! p = files !! p.
Proof.
  intros Hkeep. revert files. induction cmds as [|c cs IH]; intros files; simpl; [done|].
  by rewrite IH, Hkeep.
Qed.

Section RetryMore.
Import RetryFailed Stated Shapes.
Context (exe : str) (dir : Path) (sub : list str → gmap Path str → gmap Path str * Z).

Lemma extract_dates_ok log_path w text :
  fs w !! log_path = Some text →
  extract_dates log_path w = (w, Ok (sorted_set (foldl add_line ∅ (splitlines text)))).
Proof.
  intros Hfile. unfold extract_dates, read_text, get, mbind, eff_bind, mret, eff_ret.
  by rewrite Hfile.
Qed.

Lemma elem_of_dates text d :
  d ∈ sorted_set (foldl add_line ∅ (splitlines text)) ↔
    ∃ line, line ∈ splitlines text ∧ date_of_line line = Some d.
Proof.
  rewrite elem_of_sorted_set, elem_of_foldl_add_line. split; [|by right].
  intros [H|?]; [by apply elem_of_empty in H|done].
Qed.

(** A run that finds no date ends before it touches a file. *)
Lemma main_no_dates (args : Args) (w : World) (text region_ : str) :
  fs w !! log args = Some text →
  infer_region (region args) (log args) = Ok (Some region_) → region_ ≠ [] →
  sorted_set (foldl add_line ∅ (splitlines text)) = [] →
  main exe dir sub args w =
    ({| fs := fs w;
        events := events w ++ [Printed (lit "No dates found in log; nothing to retry.")] |},
     Raise (SystemExit 0)).
Proof.
  intros Hfile Hregion Hne Hnone. unfold main.
  erewrite bind_ok; last first.
  { unfold exists_, get, mbind, eff_bind, mret, eff_ret. rewrite Hfile.
    rewrite bool_decide_true by done. reflexivity. }
  simpl. erewrite bind_ok by reflexivity.
  erewrite bind_ok by (unfold lift; rewrite Hregion; reflexivity).
  simpl. unfold truthy. rewrite bool_decide_false by done. simpl.
  erewrite bind_ok by reflexivity.
  erewrite bind_ok by (by apply extract_dates_ok).
  rewrite Hnone. reflexivity.
Qed.

(** The loop over the dates, event by event. *)
Lemma retry_loop_events (region_ : str) (jobs : Z) (dates : list str) (w1 : World) :
  let cmd_of := retry_cmd exe dir region_ jobs in
  ∃ w2,
    for_ dates (retry_date exe dir sub region_ jobs) w1 = (w2, Ok ())
    ∧ events w2 = events w1
        ++ mjoin (zip_with (retry_turn cmd_of) dates
                    (sub_runs sub (cmd_of <$> dates) (fs w1)))
    ∧ fs w2 = foldl (λ files cmd, (sub cmd files).1) (fs w1) (cmd_of <$> dates).
Proof.
  intros cmd_of. revert w1. induction dates as [|d dates IH]; intros w1.
  { exists w1. csimpl. by rewrite (right_id_L [] (++)). }
  csimpl.
  destruct (sub (cmd_of d) (fs w1)) as [files' rc] eqn:Hrun.
  assert (∃ w', retry_date exe dir sub region_ jobs d w1 = (w', Ok ())
                ∧ fs w' = files'
                ∧ events w' = events w1 ++ retry_turn cmd_of d (fs w1, rc))
    as (w' & Hbody & Hfs & Hev).
  { unfold retry_date, run, print, modify, mbind, eff_bind, mret, eff_ret.
    subst cmd_of. cbn [fs events fst snd]. rewrite Hrun. unfold retry_turn. cbn [fst snd].
    destruct (decide (rc ≠ 0%Z)); eexists; (split; [reflexivity|split; [done|]]);
      cbn [events]; by rewrite <-?(assoc_L (++)). }
  destruct (IH w') as (w2 & Hloop & Hev2 & Hfs2).
  exists w2. split; [by erewrite bind_ok by exact Hbody|].
  cbn [fst snd]. rewrite Hev2, Hev, Hfs2, Hfs. split; [|done].
  by rewrite <-(assoc_L (++)).
Qed.

(** A full run of [main] that gets as far as retrying, event by event. *)
Lemma main_retry_events (args : Args) (w : World) (text region_ : str) (backup : Path) :
  with_suffix (log args) (path_suffix (log args) ++ lit ".bak") = Ok backup →
  fs w !! log args = Some text →
  infer_region (region args) (log args) = Ok (Some region_) → region_ ≠ [] →
  sorted_set (foldl add_line ∅ (splitlines text)) ≠ [] →
  let dates := sorted_set (foldl add_line ∅ (splitlines text)) in
  let cmd_of := retry_cmd exe dir region_ (clamp (jobs args)) in
  let files1 := <[log args := []]> (<[backup := text]> (fs w)) in
  ∃ w',
    main exe dir sub args w = (w', Ok ())
    ∧ events w' = events w
        ++ [Copied (log args) backup;
            Printed (lit "Backed up log to " ++ path_str backup);
            Wrote (log args) []]
        ++ mjoin (zip_with (retry_turn cmd_of) dates
                    (sub_runs sub (cmd_of <$> dates) files1))
        ++ [Printed (lit "Retry complete. Remaining failures (if any) are in the log.")]
    ∧ fs w' = foldl (λ files cmd, (sub cmd files).1) files1 (cmd_of <$> dates).
Proof.
  intros Hbackup Hfile Hregion Hne Hdates dates cmd_of files1.
  unfold main.
  erewrite bind_ok; last first.
  { unfold exists_, get, mbind, eff_bind, mret, eff_ret. rewrite Hfile.
    rewrite bool_decide_true by done. reflexivity. }
  simpl. erewrite bind_ok by reflexivity.
  erewrite bind_ok by (unfold lift; rewrite Hregion; reflexivity).
  simpl. unfold truthy. rewrite bool_decide_false by done. simpl.
  erewrite bind_ok by reflexivity.
  erewrite bind_ok by (by apply extract_dates_ok).
  fold dates. rewrite decide_False by done.
  erewrite bind_ok by reflexivity.
  erewrite bind_ok by (unfold lift; rewrite Hbackup; reflexivity).
  erewrite bind_ok; last first.
  { unfold copyfile, modify, get, mbind, eff_bind, mret, eff_ret.
    rewrite Hfile. reflexivity. }
  erewrite bind_ok by reflexivity.
  erewrite bind_ok by reflexivity.
  match goal with |- context [(_ ≫= _) ?w1] => set (w1' := w1) end.
  destruct (retry_loop_events region_ (max 1 (min 10 (jobs args))) dates w1')
    as (w2 & Hloop & Hev & Hfs).
  erewrite bind_ok by exact Hloop.
  eexists. split; [reflexivity|]. cbn [events fs]. rewrite Hev, Hfs. split; [|done].
  subst w1'. cbn [events fs]. by rewrite <-!(assoc_L (++)).
Qed.
End RetryMore.

Section RetryMoreClaims.
Import RetryFailed Stated Shapes.

(** X1: a run on a log that yields no date (an empty log among them)
    prints that there is nothing to retry, and that only, and ends with
    exit status 0: no backup is made, the log is not emptied and nothing is
    launched. *)
Theorem retry_without_dates_exits_cleanly (exe : str) (dir : Path)
    (sub : list str → gmap Path str → gmap Path str * Z) (args : Args) (w : World)
    (text region_ : str) :
  fs w !! log args = Some text →
  infer_region (region args) (log args) = Ok (Some region_) → region_ ≠ [] →
  (∀ line, line ∈ splitlines text → date_of_line line = None) →
  ∃ w' r,
    main exe dir sub args w = (w', r)
    ∧ r = Raise (SystemExit 0)
    ∧ exit_status r = 0%Z
    ∧ fs w' = fs w
    ∧ events w' = events w ++ [Printed (lit "No dates found in log; nothing to retry.")]
    ∧ actions (events w') = actions (events w).
Proof.
  intros Hfile Hregion Hne Hnone.
  eexists _, _. split; [apply (main_no_dates exe dir sub args w text region_); try done|].
  - apply sorted_set_empty. intros d Hd.
    apply elem_of_foldl_add_line in Hd as [Hd|(line & Hline & Hd)].
    + by apply elem_of_empty in Hd.
    + by rewrite (Hnone line Hline) in Hd.
  - split; [done|]. split; [done|]. split; [done|]. split; [done|]. cbn [events].
    rewrite actions_app. simpl. by rewrite (right_id_L [] (++)).
Qed.

Lemma retry_without_dates_exits_cleanly_witness :
  ∃ w' r,
    main Sample.sys_executable Sample.script_dir Sample.subprocess_run
      Sample.args0 Fixtures.dateless_world = (w', r)
    ∧ r = Raise (SystemExit 0)
    ∧ exit_status r = 0%Z
    ∧ fs w' = fs Fixtures.dateless_world
    ∧ events w' = events Fixtures.dateless_world
                  ++ [Printed (lit "No dates found in log; nothing to retry.")]
    ∧ actions (events w') = actions (events Fixtures.dateless_world).
Proof.
  apply (retry_without_dates_exits_cleanly _ _ _ Sample.args0 Fixtures.dateless_world
           (lit "garbage" ++ [LF] ++ lit "a/b-c/d" ++ [LF]
            ++ lit "dates/uk/20240501/abc123") (lit "uk")).
  - by vm_compute.
  - by vm_compute.
  - by vm_compute.
  - apply Forall_forall. apply (bool_decide_unpack _). by vm_compute.
Defined.

(** X2: a run that retries records, in this order: the copy of the log,
    the report of the backup, the emptying of the log, then for each date
    in ascending order the announcement, the sub-run and, when the sub-run
    returned a non-zero code, the report of its failure, and at the end the
    closing report.  A failed sub-run stops nothing, and the run ends
    normally whatever the return codes. *)
Theorem retry_reports_failures_and_goes_on (exe : str) (dir : Path)
    (sub : list str → gmap Path str → gmap Path str * Z) (args : Args) (w : World)
    (text region_ : str) (dates : list str) :
  path_name (log args) ≠ [] → SLASH ∉ path_name (log args) →
  fs w !! log args = Some text →
  infer_region (region args) (log args) = Ok (Some region_) → region_ ≠ [] →
  (extract_dates (log args) w).2 = Ok dates → dates ≠ [] →
  let backup := backup_of (log args) in
  let cmd_of := retry_cmd exe dir region_ (clamp (jobs args)) in
  let files1 := <[log args := []]> (<[backup := text]> (fs w)) in
  ∃ w',
    main exe dir sub args w = (w', Ok ())
    ∧ events w' = events w
        ++ [Copied (log args) backup;
            Printed (lit "Backed up log to " ++ path_str backup);
            Wrote (log args) []]
        ++ mjoin (zip_with (retry_turn cmd_of) dates
                    (sub_runs sub (cmd_of <$> dates) files1))
        ++ [Printed (lit "Retry complete. Remaining failures (if any) are in the log.")]
    ∧ length (sub_runs sub (cmd_of <$> dates) files1) = length dates.
Proof.
  intros Hname Hslash Hfile Hregion Hne Hdates Hsome backup cmd_of files1.
  rewrite (extract_dates_ok _ _ _ Hfile) in Hdates. injection Hdates as <-.
  destruct (main_retry_events exe dir sub args w text region_ backup)
    as (w' & Hmain & Hev & _); try done.
  { by apply with_suffix_bak. }
  exists w'. split; [done|]. split; [done|].
  by rewrite sub_runs_length, length_fmap.
Qed.

Lemma retry_reports_failures_and_goes_on_witness :
  ∃ w',
    main Sample.sys_executable Sample.script_dir Fixtures.mixed_run
      Sample.args0 Sample.world0 = (w', Ok ())
    ∧ last (events w')
      = Some (Printed (lit "Retry complete. Remaining failures (if any) are in the log.")).
Proof.
  destruct (retry_reports_failures_and_goes_on Sample.sys_executable Sample.script_dir
              Fixtures.mixed_run Sample.args0 Sample.world0 Sample.log_text (lit "uk")
              [lit "2024-05-01"; lit "2024-05-02"])
    as (w' & Hmain & Hev & _).
  - by vm_compute.
  - apply (bool_decide_unpack _). by vm_compute.
  - by vm_compute.
  - by vm_compute.
  - by vm_compute.
  - by vm_compute.
  - done.
  - exists w'. split; [done|]. rewrite Hev. by rewrite !(assoc_L (++)), last_snoc.
Defined.

(** X3: every date read from the log reaches its sub-run as the fourth
    word of the command line, after [-d], with its hyphens turned into
    slashes: the word has exactly three '/'-delimited parts, which are the
    three hyphen-delimited parts of the date, in the same order. *)
Theorem retry_date_argument_parts (exe : str) (dir : Path) (log_path : Path) (w : World)
    (region_ : str) (jobs : Z) (dates : list str) (d : str) :
  (extract_dates log_path w).2 = Ok dates → d ∈ dates →
  ∃ date_arg,
    retry_cmd exe dir region_ jobs d !! 2 = Some (lit "-d")
    ∧ retry_cmd exe dir region_ jobs d !! 3 = Some date_arg
    ∧ split SLASH date_arg = split HYPHEN d
    ∧ length (split SLASH date_arg) = 3.
Proof.
  intros Hdates Hd.
  assert (∃ text, fs w !! log_path = Some text) as [text Hfile].
  { unfold extract_dates, read_text, get, mbind, eff_bind, mret, eff_ret in Hdates.
    destruct (fs w !! log_path); [by eexists|done]. }
  rewrite (extract_dates_ok _ _ _ Hfile) in Hdates. injection Hdates as <-.
  apply elem_of_dates in Hd as (line & _ & Hd).
  unfold date_of_line in Hd. destruct (decide _); [|done].
  destruct (from_end _ 2) as [d'|] eqn:Hseg; [|done].
  destruct (decide (length (split HYPHEN d') = 3)) as [Hthree|]; [|done].
  injection Hd as ->.
  assert (SLASH ∉ d) as Hslash.
  { eapply split_pieces_no_sep, from_end_elem_of, Hseg. }
  exists (replace HYPHEN [SLASH] d). split; [done|]. split; [done|].
  by rewrite split_replace_hyphen.
Qed.

Lemma retry_date_argument_parts_witness :
  ∃ date_arg,
    retry_cmd Sample.sys_executable Sample.script_dir (lit "uk") 10 (lit "2024-05-02") !! 2
      = Some (lit "-d")
    ∧ retry_cmd Sample.sys_executable Sample.script_dir (lit "uk") 10 (lit "2024-05-02") !! 3
      = Some date_arg
    ∧ split SLASH date_arg = split HYPHEN (lit "2024-05-02")
    ∧ length (split SLASH date_arg) = 3.
Proof.
  apply (retry_date_argument_parts _ _ Sample.log_path Sample.world0 _ _
           [lit "2024-05-01"; lit "2024-05-02"]).
  - by vm_compute.
  - apply (bool_decide_unpack _). by vm_compute.
Defined.

(** X4: the dates read from a log depend on the set of its lines only:
    two logs with the same lines, in whatever order and however often
    repeated, give the same list of dates. *)
Theorem extract_dates_ignores_order_and_repeats (log1 log2 : Path) (w1 w2 : World)
    (text1 text2 : str) :
  fs w1 !! log1 = Some text1 → fs w2 !! log2 = Some text2 →
  (∀ line, line ∈ splitlines text1 ↔ line ∈ splitlines text2) →
  (extract_dates log1 w1).2 = (extract_dates log2 w2).2.
Proof.
  intros Hfile1 Hfile2 Hlines.
  rewrite (extract_dates_ok _ _ _ Hfile1), (extract_dates_ok _ _ _ Hfile2). cbn [snd].
  do 2 f_equal. apply set_eq. intros d. rewrite !elem_of_foldl_add_line.
  split; (intros [H|(line & Hline & Hd)]; [by left|right]);
    exists line; (split; [by apply Hlines|done]).
Qed.

Lemma extract_dates_ignores_order_and_repeats_witness :
  (extract_dates Sample.log_path Sample.world0).2
  = (extract_dates Sample.log_path Fixtures.shuffled_world).2.
Proof.
  eapply (extract_dates_ignores_order_and_repeats _ _ _ _ Sample.log_text).
  - by vm_compute.
  - by vm_compute.
  - intros line. split; revert line; apply Forall_forall;
      apply (bool_decide_unpack _); by vm_compute.
Defined.

(** X5: without [-r] the region is the part of the log path that follows
    the first part named [dates]; when no part is named [dates] no region
    is inferred, and when [dates] is the last part of the path the lookup
    of the part after it raises an [IndexError] that nothing catches.  A
    region given with [-r] is taken as it is, whatever the path. *)
Theorem region_inferred_after_first_dates_part (before after : list str) (r given : str)
    (log_path : Path) :
  lit "dates" ∉ before →
  infer_region None (before ++ lit "dates" :: r :: after) = Ok (Some r)
  ∧ infer_region None before = Ok None
  ∧ infer_region None (before ++ [lit "dates"])
    = Raise (IndexError (lit "tuple index out of range"))
  ∧ infer_region (Some given) log_path = Ok (Some given).
Proof.
  intros Hbefore. unfold infer_region.
  rewrite !index_first, index_absent by done. cbn beta iota.
  rewrite (lookup_app_r before) by lia.
  replace (length before + 1 - length before) with 1 by lia.
  split; [done|]. split; [done|]. split; [|done].
  rewrite (lookup_ge_None_2 (before ++ _)); [done|]. rewrite length_app. simpl. lia.
Qed.

Lemma region_inferred_after_first_dates_part_witness :
  infer_region None ([lit "/"; lit "data"] ++ lit "dates" :: lit "uk"
                     :: [lit "dates"; lit "ire"; lit "failed.log"]) = Ok (Some (lit "uk"))
  ∧ infer_region None [lit "/"; lit "data"] = Ok None
  ∧ infer_region None ([lit "/"; lit "data"] ++ [lit "dates"])
    = Raise (IndexError (lit "tuple index out of range"))
  ∧ infer_region (Some (lit "ire")) Sample.log_path = Ok (Some (lit "ire")).
Proof.
  apply (region_inferred_after_first_dates_part [lit "/"; lit "data"]).
  apply (bool_decide_unpack _). by vm_compute.
Defined.

(** X6: when no sub-run of a retry writes to the log (no race failed
    again), the log is left empty, and a second run on it finds nothing to
    retry: it ends with exit status 0 without touching a file, so the
    backup of the first run is kept. *)
Theorem retry_again_after_clean_run_does_nothing (exe : str) (dir : Path)
    (sub : list str → gmap Path str → gmap Path str * Z) (args : Args) (w : World)
    (text region_ : str) (dates : list str) :
  path_name (log args) ≠ [] → SLASH ∉ path_name (log args) →
  fs w !! log args = Some text →
  infer_region (region args) (log args) = Ok (Some region_) → region_ ≠ [] →
  (extract_dates (log args) w).2 = Ok dates → dates ≠ [] →
  (∀ cmd files p, p ∈ [log args; backup_of (log args)] → (sub cmd files).1 !! p = files !! p) →
  ∃ w1 w2 r,
    main exe dir sub args w = (w1, Ok ())
    ∧ main exe dir sub args w1 = (w2, r)
    ∧ exit_status r = 0%Z
    ∧ fs w2 = fs w1
    ∧ actions (events w2) = actions (events w1)
    ∧ fs w2 !! log args = Some []
    ∧ fs w2 !! backup_of (log args) = Some text.
Proof.
  intros Hname Hslash Hfile Hregion Hne Hdates Hsome Hkeep.
  rewrite (extract_dates_ok _ _ _ Hfile) in Hdates. injection Hdates as <-.
  destruct (main_retry_events exe dir sub args w text region_ (backup_of (log args)))
    as (w1 & Hmain & _ & Hfs); try done.
  { by apply with_suffix_bak. }
  assert (fs w1 !! log args = Some []) as Hlog.
  { rewrite Hfs, sub_runs_keep by (intros; apply Hkeep; by left).
    by rewrite lookup_insert_eq. }
  assert (fs w1 !! backup_of (log args) = Some text) as Hbackup.
  { rewrite Hfs, sub_runs_keep by (intros; apply Hkeep; by right; left).
    rewrite lookup_insert_ne by (apply not_eq_sym, backup_of_ne; done).
    by rewrite lookup_insert_eq. }
  eexists w1, _, _. split; [done|].
  split; [by apply (main_no_dates exe dir sub args w1 [] region_)|].
  split; [done|]. split; [done|]. cbn [events fs].
  rewrite actions_app. simpl. by rewrite (right_id_L [] (++)).
Qed.

Lemma retry_again_after_clean_run_does_nothing_witness :
  ∃ w1 w2 r,
    main Sample.sys_executable Sample.script_dir Fixtures.quiet_run Sample.args0
      Sample.world0 = (w1, Ok ())
    ∧ main Sample.sys_executable Sample.script_dir Fixtures.quiet_run Sample.args0 w1
      = (w2, r)
    ∧ exit_status r = 0%Z
    ∧ fs w2 = fs w1
    ∧ actions (events w2) = actions (events w1)
    ∧ fs w2 !! log Sample.args0 = Some []
    ∧ fs w2 !! backup_of (log Sample.args0) = Some Sample.log_text.
Proof.
  apply (retry_again_after_clean_run_does_nothing _ _ _ Sample.args0 Sample.world0
           Sample.log_text (lit "uk") [lit "2024-05-01"; lit "2024-05-02"]).
  - by vm_compute.
  - apply (bool_decide_unpack _). by vm_compute.
  - by vm_compute.
  - by vm_compute.
  - by vm_compute.
  - by vm_compute.
  - done.
  - done.
Defined.
End RetryMoreClaims.

(* ===================================================================== *)
(** * More on the discovery of addresses *)
(* ===================================================================== *)

Section DiscoveryMore.
Import RpScrape Stated.
Context (principleRaceResults : str → res (list race_entry))
        (listCourseNameLinks : str → res (list anchor))
        (courses : str → list (str * str)).

(** The date mode returns only when every page was fetched and every
    link was well formed. *)
Lemma dates_ok course_ids dates urls urls' :
  foldl (add_date listCourseNameLinks course_ids) (Ok urls) dates = Ok urls' →
  ∀ race_date, race_date ∈ dates →
    ∃ links, listCourseNameLinks (results_url race_date) = Ok links
             ∧ Forall well_formed_link links.
Proof.
  revert urls. induction dates as [|d dates IH]; intros urls; [by intros _ ? ?%elem_of_nil|].
  cbn -[add_date]. rewrite add_date_ok.
  destruct (listCourseNameLinks (results_url d)) as [links|e] eqn:Hd;
    [|by rewrite dates_raise].
  pose proof (links_spec course_ids links urls) as Hl.
  destruct (foldl _ (Ok urls) links) as [urls1|e]; [|by rewrite dates_raise].
  destruct Hl as [Hwf _]. intros Hok race_date [->|Hin]%elem_of_cons.
  - by exists links.
  - by apply (IH urls1).
Qed.

Lemma get_race_urls_ok tracks years code :
  (∀ track year, track ∈ tracks → year ∈ years →
     ∃ races, principleRaceResults (race_list_url code track.1 year) = Ok races) →
  ∃ urls : gset str,
    get_race_urls principleRaceResults tracks years code = Ok (sorted_set urls)
    ∧ ∀ u, u ∈ urls ↔
           ∃ track, track ∈ tracks
             ∧ ∃ year, year ∈ years ∧ listed principleRaceResults code track year u.
Proof.
  intros Hlistings. unfold get_race_urls.
  pose proof (tracks_spec principleRaceResults code years tracks ∅) as Hc.
  destruct (foldl _ (Ok ∅) tracks) as [urls|e]; last first.
  { destruct Hc as (track & year & Ht & Hy & Hraise).
    destruct (Hlistings track year Ht Hy) as [races Hok]. congruence. }
  exists urls. split; [done|]. intros u. destruct Hc as [_ ->]. split; [|by right].
  intros [H|?]; [by apply elem_of_empty in H|done].
Qed.

Lemma get_race_urls_date_ok dates region :
  (∀ race_date, race_date ∈ dates →
     ∃ links, listCourseNameLinks (results_url race_date) = Ok links
              ∧ Forall well_formed_link links) →
  ∃ urls : gset str,
    get_race_urls_date listCourseNameLinks courses dates region = Ok (sorted_set urls)
    ∧ ∀ u, u ∈ urls ↔
           ∃ race_date, race_date ∈ dates
             ∧ date_listed listCourseNameLinks (list_to_set ((courses region).*1))
                 race_date u.
Proof.
  intros Hpages. unfold get_race_urls_date.
  pose proof (dates_spec listCourseNameLinks (list_to_set ((courses region).*1)) dates ∅)
    as Hd.
  destruct (foldl _ (Ok ∅) dates) as [urls|e]; [|done].
  exists urls. split; [done|]. intros u. rewrite Hd. split; [|by right].
  intros [H|?]; [by apply elem_of_empty in H|done].
Qed.
End DiscoveryMore.

Section DiscoveryMoreClaims.
Import RpScrape Stated.

(** X7: in the course/year mode one listing that cannot be fetched or
    decoded makes the whole discovery fail, with the exception of such a
    listing: the addresses found in the other listings are not returned. *)
Theorem course_discovery_fails_with_a_listing
    (principleRaceResults : str → res (list race_entry))
    (tracks : list (str * str)) (years : list str) (code : str)
    (track : str * str) (year : str) (e0 : exn) :
  track ∈ tracks → year ∈ years →
  principleRaceResults (race_list_url code track.1 year) = Raise e0 →
  ∃ e track' year',
    get_race_urls principleRaceResults tracks years code = Raise e
    ∧ track' ∈ tracks ∧ year' ∈ years
    ∧ principleRaceResults (race_list_url code track'.1 year') = Raise e.
Proof.
  intros Htrack Hyear Hraise. unfold get_race_urls.
  pose proof (tracks_spec principleRaceResults code years tracks ∅) as Hc.
  destruct (foldl _ (Ok ∅) tracks) as [urls|e].
  - destruct Hc as [Hoks _]. destruct (Hoks track year Htrack Hyear) as [races Hok].
    congruence.
  - destruct Hc as (track' & year' & ? & ? & ?). by exists e, track', year'.
Qed.

Lemma course_discovery_fails_with_a_listing_witness :
  ∃ e track' year',
    get_race_urls Fixtures.failing_listing
      [(lit "32", lit "Newcastle"); (lit "4", lit "Ayr")] [lit "2024"] (lit "flat") = Raise e
    ∧ track' ∈ [(lit "32", lit "Newcastle"); (lit "4", lit "Ayr")]
    ∧ year' ∈ [lit "2024"]
    ∧ Fixtures.failing_listing (race_list_url (lit "flat") track'.1 year') = Raise e.
Proof.
  apply (course_discovery_fails_with_a_listing Fixtures.failing_listing _ _ _
           (lit "4", lit "Ayr") (lit "2024")
           (ValueError (lit "unexpected character: line 1 column 1 (char 0)"))).
  - by right; left.
  - by left.
  - by vm_compute.
Defined.

(** X8: in the date mode the discovery fails as soon as one results page
    cannot be fetched or parsed, or one of its course links has no target
    or a target with fewer than three '/'-delimited parts, whether or not
    the link is one of a course of the region; the addresses found before
    are not returned. *)
Theorem date_discovery_fails_with_a_page_or_link
    (listCourseNameLinks : str → res (list anchor))
    (courses : str → list (str * str))
    (dates : list str) (region : str) (race_date : str) :
  race_date ∈ dates →
  (∃ e0, listCourseNameLinks (results_url race_date) = Raise e0)
  ∨ (∃ links a, listCourseNameLinks (results_url race_date) = Ok links
                ∧ a ∈ links ∧ ¬ well_formed_link a) →
  ∃ e, get_race_urls_date listCourseNameLinks courses dates region = Raise e.
Proof.
  intros Hdate Hbad. unfold get_race_urls_date.
  destruct (foldl _ (Ok ∅) dates) as [urls|e] eqn:Hfold; [|by exists e].
  destruct (dates_ok listCourseNameLinks _ _ _ _ Hfold race_date Hdate)
    as (links & Hok & Hwf).
  destruct Hbad as [[e0 Hraise]|(links' & a & Hok' & Ha & Hbad)]; [congruence|].
  rewrite Hok in Hok'. injection Hok' as <-.
  rewrite Forall_forall in Hwf. destruct Hbad. by apply Hwf.
Qed.

Lemma date_discovery_fails_with_a_page_or_link_witness :
  ∃ e, get_race_urls_date Fixtures.broken_links Sample.courses
         [lit "2024-05-01"] (lit "gb") = Raise e.
Proof.
  apply (date_discovery_fails_with_a_page_or_link _ _ _ _ (lit "2024-05-01")).
  - by left.
  - right. eexists _, {| href := Some (lit "/results") |}.
    split; [reflexivity|]. split; [by right; left|].
    intros (h & course_id & [= <-] & Hid). by vm_compute in Hid.
Defined.

(** X9: when every listing is fetched and decoded (and every link is well
    formed), what the two discovery operations return depends on the sets
    of the tracks, years and dates asked for only, not on their order nor
    on repetitions among them. *)
Theorem discovery_ignores_order_and_repeats
    (principleRaceResults : str → res (list race_entry))
    (listCourseNameLinks : str → res (list anchor))
    (courses : str → list (str * str))
    (tracks1 tracks2 : list (str * str)) (years1 years2 : list str) (code : str)
    (dates1 dates2 : list str) (region : str) :
  (∀ track, track ∈ tracks1 ↔ track ∈ tracks2) →
  (∀ year, year ∈ years1 ↔ year ∈ years2) →
  (∀ race_date, race_date ∈ dates1 ↔ race_date ∈ dates2) →
  (∀ track year, track ∈ tracks1 → year ∈ years1 →
     ∃ races, principleRaceResults (race_list_url code track.1 year) = Ok races) →
  (∀ race_date, race_date ∈ dates1 →
     ∃ links, listCourseNameLinks (results_url race_date) = Ok links
              ∧ Forall well_formed_link links) →
  get_race_urls principleRaceResults tracks1 years1 code
  = get_race_urls principleRaceResults tracks2 years2 code
  ∧ get_race_urls_date listCourseNameLinks courses dates1 region
    = get_race_urls_date listCourseNameLinks courses dates2 region.
Proof.
  intros Htracks Hyears Hdates Hlistings Hpages. split.
  - destruct (get_race_urls_ok principleRaceResults tracks1 years1 code Hlistings)
      as (urls1 & -> & Hmem1).
    destruct (get_race_urls_ok principleRaceResults tracks2 years2 code)
      as (urls2 & -> & Hmem2).
    { intros track year ?%Htracks ?%Hyears. by apply Hlistings. }
    do 2 f_equal. apply set_eq. intros u. rewrite Hmem1, Hmem2.
    split; intros (track & Ht & year & Hy & Hu); exists track;
      (split; [by apply Htracks|]); exists year; (split; [by apply Hyears|done]).
  - destruct (get_race_urls_date_ok listCourseNameLinks courses dates1 region Hpages)
      as (urls1 & -> & Hmem1).
    destruct (get_race_urls_date_ok listCourseNameLinks courses dates2 region)
      as (urls2 & -> & Hmem2).
    { intros race_date ?%Hdates. by apply Hpages. }
    do 2 f_equal. apply set_eq. intros u. rewrite Hmem1, Hmem2.
    split; intros (race_date & Hd & Hu); exists race_date; (split; [by apply Hdates|done]).
Qed.

Lemma discovery_ignores_order_and_repeats_witness :
  get_race_urls Sample.principleRaceResults
    [(lit "32", lit "Newcastle"); (lit "4", lit "Ayr")] [lit "2023"; lit "2024"] (lit "flat")
  = get_race_urls Sample.principleRaceResults
      [(lit "4", lit "Ayr"); (lit "32", lit "Newcastle"); (lit "4", lit "Ayr")]
      [lit "2024"; lit "2023"] (lit "flat")
  ∧ get_race_urls_date Sample.listCourseNameLinks Sample.courses
      [lit "2024-05-01"; lit "2024-05-02"] (lit "gb")
    = get_race_urls_date Sample.listCourseNameLinks Sample.courses
        [lit "2024-05-02"; lit "2024-05-01"; lit "2024-05-02"] (lit "gb").
Proof.
  apply discovery_ignores_order_and_repeats.
  - intros track. rewrite !elem_of_cons, !elem_of_nil. tauto.
  - intros year. rewrite !elem_of_cons, !elem_of_nil. tauto.
  - intros race_date. rewrite !elem_of_cons, !elem_of_nil. tauto.
  - intros track year _ _. by eexists.
  - intros race_date _. eexists. split; [reflexivity|].
    repeat constructor; by eexists _, _.
Defined.
End DiscoveryMoreClaims.

(* ===================================================================== *)
(** * More on the worker and the pipeline *)
(* ===================================================================== *)

Lemma fetched_app t1 t2 : Shapes.fetched (t1 ++ t2) = Shapes.fetched t1 ++ Shapes.fetched t2.
Proof. apply bind_app. Qed.

Lemma fetched_none t :
  Forall (λ e, match e with RpScrape.HttpGet _ => False | _ => True end) t →
  Shapes.fetched t = [].
Proof.
  induction 1 as [|e t He _ IH]; [done|].
  change (e :: t) with ([e] ++ t). rewrite fetched_app, IH. by destruct e.
Qed.

Lemma fetched_skip e t :
  match e with RpScrape.HttpGet _ => False | _ => True end →
  Shapes.fetched (e :: t) = Shapes.fetched t.
Proof. by destruct e. Qed.

Lemma fetched_side t : Forall Stated.side_event t → Shapes.fetched t = [].
Proof.
  intros Hside. apply fetched_none. eapply Forall_impl; [done|]. by intros [].
Qed.

Lemma enumerate_snd {A} n (xs : list A) : (enumerate n xs).*2 = xs.
Proof. revert n. induction xs as [|x xs IH]; intros n; csimpl; [done|]. by rewrite IH. Qed.

Lemma first_failure_Raise_inv {A} (outs : list (res A)) e :
  RpScrape.first_failure outs = Raise e → Raise e ∈ outs.
Proof.
  induction outs as [|o outs IH]; [done|]. simpl.
  destruct o as [a|e0]; [|intros [= ->]; by left].
  destruct (RpScrape.first_failure outs); [done|]. intros [= ->]. right. by apply IH.
Qed.

(** The events of the workers are no events on a file. *)
Lemma worker_no_file_event (e : RpScrape.event) :
  Stated.worker_event e → ¬ Shapes.file_event e.
Proof. destruct e; simpl; tauto. Qed.

Section PipelineMore.
Import RpScrape Stated Shapes.
Context {Doc BetfairData : Type}
        (settings_toml : option Toml)
        (requests_get : str → res (list N))
        (html_fromstring : list N → res Doc)
        (Race : str → Doc → str → list str → option BetfairData → res RaceObj)
        (Betfair : list str → res (BetfairObj (BetfairData := BetfairData)))
        (as_completed : list (nat * str) → list (nat * str)).

(** A worker fetches its page once. *)
Lemma fetched_process total code fields betfair idx url :
  fetched (process requests_get html_fromstring Race total code fields betfair idx url).1
  = [url].
Proof.
  unfold process. destruct (requests_get url) as [content|exc]; simpl.
  - destruct (html_fromstring content) as [doc|exc]; simpl; [|done].
    destruct (Race _ _ _ _ _) as [race|exc]; simpl.
    + by repeat destruct (decide _).
    + by destruct exc.
  - by destruct (is_Exception exc).
Qed.

Lemma fetched_gather total code fields betfair jobs :
  fetched (gather requests_get html_fromstring Race as_completed total code fields
             betfair jobs).1
  = (as_completed jobs).*2.
Proof.
  unfold gather. cbn [fst]. induction (as_completed jobs) as [|j js IH]; csimpl; [done|].
  by rewrite fetched_app, fetched_process, IH.
Qed.

(** What the main pass fetches. *)
Lemma fetched_main_pass betfair race_urls file_path code file_writer fields csv_header jobs :
  fetched (main_pass requests_get html_fromstring Race as_completed betfair race_urls
             file_path code file_writer fields csv_header jobs).1
  = (as_completed (enumerate 1 race_urls)).*2 ∨ race_urls = [].
Proof.
  destruct (decide (race_urls = [])) as [->|Hne]; [by right|left].
  destruct (main_pass_shape requests_get html_fromstring Race as_completed betfair race_urls
              file_path code file_writer fields csv_header jobs Hne)
    as (bn & tail & result & Htail & Hpass).
  apply main_pass_tail in Htail.
  cbn zeta in Hpass. rewrite Hpass. clear Hpass.
  assert (fetched ((λ job : nat * str, Submit job.1 job.2) <$> enumerate 1 race_urls) = [])
    as Hsub.
  { apply fetched_none, Forall_fmap, Forall_forall. by intros. }
  destruct (gather _ _ _ _ _ _ _ _ _).2 as [results|e] eqn:Hres; cbn [fst].
  - rewrite fetched_app, 2!fetched_skip, fetched_app, Hsub, fetched_gather by done.
    rewrite (fetched_none (OpenWrite _ _ :: _)); [by rewrite (right_id_L [] (++))|].
    constructor; [done|]. apply Forall_app. split.
    + apply Forall_fmap, Forall_forall. by intros.
    + constructor; [done|]. eapply Forall_impl; [exact Htail|]. by intros [].
  - by rewrite !fetched_skip, fetched_app, Hsub, fetched_gather by done.
Qed.

End PipelineMore.

Section PipelineMoreClaims.
Import RpScrape Stated Shapes.

(** X10: a worker whose fetch fails, or whose page is parsed into a
    document from which no race can be built, gives up on its address
    alone: having announced the fetch and made it once, it prints one
    diagnostic and returns its index with no rows.  That holds for what
    [except Exception] catches; an exception outside that family, such as
    [SystemExit], leaves the worker without a diagnostic. *)
Theorem worker_recovers_with_one_diagnostic {Doc BetfairData : Type}
    (requests_get : str → res (list N))
    (html_fromstring : list N → res Doc)
    (Race : str → Doc → str → list str → option BetfairData → res RaceObj)
    (total : nat) (code : str) (fields : list str)
    (betfair : option (BetfairObj (BetfairData := BetfairData)))
    (idx : nat) (url : str) (exc : exn) :
  requests_get url = Raise exc
  ∨ (∃ content doc, requests_get url = Ok content ∧ html_fromstring content = Ok doc
                    ∧ Race url doc code fields (data <$> betfair) = Raise exc) →
  ∃ diagnostic,
    process requests_get html_fromstring Race total code fields betfair idx url
    = ([Print (banner idx total url); HttpGet url]
         ++ (if is_Exception exc then [Print diagnostic] else []),
       if is_Exception exc then Ok (idx, []) else Raise exc)
    ∧ (requests_get url = Raise exc →
         diagnostic = lit "  ! Request failed: " ++ exn_str exc)
    ∧ (requests_get url ≠ Raise exc →
         diagnostic = match exc with
                      | VoidRaceError => lit "  ! Skipping void race"
                      | _ => lit "  ! Failed to parse race: " ++ exn_str exc
                      end).
Proof.
  intros [Hget|(content & doc & Hget & Hdoc & Hrace)].
  - exists (lit "  ! Request failed: " ++ exn_str exc).
    split; [|by split]. unfold process, banner. rewrite Hget.
    by destruct (is_Exception exc).
  - exists (match exc with
            | VoidRaceError => lit "  ! Skipping void race"
            | _ => lit "  ! Failed to parse race: " ++ exn_str exc
            end).
    split; [|split; [by rewrite Hget|done]].
    unfold process, banner. rewrite Hget, Hdoc. cbn. rewrite Hrace. by destruct exc.
Qed.

Lemma worker_recovers_with_one_diagnostic_witness :
  ∃ diagnostic,
    Sample.process 5 (lit "flat") [] None 3 Sample.url_down
    = ([Print (banner 3 5 Sample.url_down); HttpGet Sample.url_down] ++ [Print diagnostic],
       Ok (3, []))
    ∧ (Sample.requests_get Sample.url_down = Raise (Exception (lit "Read timed out.")) →
         diagnostic = lit "  ! Request failed: Read timed out.")
    ∧ (Sample.requests_get Sample.url_down ≠ Raise (Exception (lit "Read timed out.")) →
         diagnostic = lit "  ! Failed to parse race: Read timed out.").
Proof.
  apply (worker_recovers_with_one_diagnostic Sample.requests_get Sample.html_fromstring
           Sample.Race 5 (lit "flat") [] None 3 Sample.url_down
           (Exception (lit "Read timed out."))).
  left. by vm_compute.
Defined.

(** X11: a run of [scrape_races] whose side-dataset step returns fetches
    every address it was given exactly once, repeated addresses as often
    as they are repeated, whatever the workers meet and even when one of
    them raises; a run whose side-dataset step raises ends with that
    exception and fetches nothing. *)
Theorem scrape_fetches_each_address_once {Doc BetfairData : Type}
    (settings_toml : option Toml)
    (requests_get : str → res (list N))
    (html_fromstring : list N → res Doc)
    (Race : str → Doc → str → list str → option BetfairData → res RaceObj)
    (Betfair : list str → res (BetfairObj (BetfairData := BetfairData)))
    (as_completed : list (nat * str) → list (nat * str))
    (race_urls : list str) (folder_name file_name file_extension code : str)
    (file_writer : writer) (fields : list str) (csv_header : str)
    (fetch_betfair : bool) (jobs : Z) :
  (∀ l, as_completed l ≡ₚ l) →
  let run := scrape_races settings_toml requests_get html_fromstring Race Betfair
               as_completed race_urls folder_name file_name file_extension code
               file_writer fields csv_header fetch_betfair jobs in
  let step := betfair_step settings_toml Betfair race_urls folder_name file_name code
                file_writer fetch_betfair in
  match step.2 with
  | Ok _ => fetched run.1 ≡ₚ race_urls
  | Raise e => fetched run.1 = [] ∧ run.2 = Raise e
  end.
Proof.
  intros Hperm run step. unfold run. rewrite scrape_races_eq. cbn zeta. fold step.
  destruct (betfair_step_spec settings_toml Betfair race_urls folder_name file_name code
              file_writer fetch_betfair) as (Hside & _).
  cbn zeta in Hside. fold step in Hside.
  destruct step.2 as [betfair|e]; cbn [fst snd].
  - rewrite fetched_skip, fetched_app, (fetched_side _ Hside) by done. cbn [app].
    destruct (fetched_main_pass requests_get html_fromstring Race as_completed betfair
                race_urls (file_path_of folder_name file_name file_extension code)
                code file_writer fields csv_header jobs) as [->| ->].
    + by rewrite Hperm, enumerate_snd.
    + by rewrite main_pass_empty.
  - by rewrite fetched_skip, (fetched_side _ Hside).
Qed.

Lemma scrape_fetches_each_address_once_witness :
  fetched (Sample.scrape_races [Sample.url_flat; Sample.url_empty; Sample.url_flat]
             (lit "dates/gb") (lit "gb-2024-05-01") (lit "csv") (lit "flat")
             writer_csv [] (lit "date,course,horse") false 6).1
  ≡ₚ [Sample.url_flat; Sample.url_empty; Sample.url_flat].
Proof.
  apply (scrape_fetches_each_address_once Sample.settings_toml Sample.requests_get
           Sample.html_fromstring Sample.Race Sample.Betfair Sample.as_completed
           [Sample.url_flat; Sample.url_empty; Sample.url_flat]
           (lit "dates/gb") (lit "gb-2024-05-01") (lit "csv") (lit "flat")
           writer_csv [] (lit "date,course,horse") false 6).
  intros l. apply reverse_Permutation.
Defined.

(** X12: when a worker raises, the run of [scrape_races] raises what one
    of its workers raised, and after the side-dataset step it only
    prints, starts the pool, submits and fetches: the output file is
    neither opened nor written, so the rows of the workers that returned
    are lost. *)
Theorem worker_exception_leaves_no_output {Doc BetfairData : Type}
    (settings_toml : option Toml)
    (requests_get : str → res (list N))
    (html_fromstring : list N → res Doc)
    (Race : str → Doc → str → list str → option BetfairData → res RaceObj)
    (Betfair : list str → res (BetfairObj (BetfairData := BetfairData)))
    (as_completed : list (nat * str) → list (nat * str))
    (race_urls : list str) (folder_name file_name file_extension code : str)
    (file_writer : writer) (fields : list str) (csv_header : str)
    (fetch_betfair : bool) (jobs : Z)
    (betfair : option (BetfairObj (BetfairData := BetfairData)))
    (job : nat * str) (e : exn) :
  let run := scrape_races settings_toml requests_get html_fromstring Race Betfair
               as_completed race_urls folder_name file_name file_extension code
               file_writer fields csv_header fetch_betfair jobs in
  let step := betfair_step settings_toml Betfair race_urls folder_name file_name code
                file_writer fetch_betfair in
  let worker := process requests_get html_fromstring Race (length race_urls) code fields
                  betfair in
  (∀ l, as_completed l ≡ₚ l) →
  step.2 = Ok betfair →
  job ∈ enumerate 1 race_urls →
  (worker job.1 job.2).2 = Raise e →
  ∃ e' job' after_step,
    run = (Mkdir (out_dir_of folder_name code) :: step.1 ++ after_step, Raise e')
    ∧ job' ∈ enumerate 1 race_urls
    ∧ (worker job'.1 job'.2).2 = Raise e'
    ∧ Forall (λ ev, ¬ file_event ev) after_step.
Proof.
  intros run step worker Hperm Hstep Hjob Hraise.
  assert (race_urls ≠ []) as Hne by (intros ->; by apply elem_of_nil in Hjob).
  destruct (main_pass_shape requests_get html_fromstring Race as_completed betfair race_urls
              (file_path_of folder_name file_name file_extension code)
              code file_writer fields csv_header jobs Hne)
    as (bn & tail & result & _ & Hpass).
  cbn zeta in Hpass.
  destruct (gather_raises requests_get html_fromstring Race as_completed
              (length race_urls) code fields betfair (enumerate 1 race_urls) job e
              Hperm Hjob Hraise) as [e' He'].
  destruct (gather_events requests_get html_fromstring Race as_completed
              (length race_urls) code fields betfair (enumerate 1 race_urls)) as [Hev _].
  rewrite He' in Hpass.
  assert (∃ job', job' ∈ enumerate 1 race_urls ∧ (worker job'.1 job'.2).2 = Raise e')
    as (job' & Hjob' & Hraise').
  { apply first_failure_Raise_inv in He'. rewrite <-list_fmap_compose in He'.
    apply list_elem_of_fmap in He' as (job' & Heq & Hin).
    exists job'. split; [by rewrite <-(Hperm (enumerate 1 race_urls))|done]. }
  eexists e', job', _. split; [|split; [done|split; [done|]]].
  - unfold run. rewrite scrape_races_eq. cbn zeta. fold step. rewrite Hstep, Hpass.
    reflexivity.
  - constructor; [by intros []|]. constructor; [by intros []|].
    apply Forall_app. split.
    + apply Forall_fmap, Forall_forall. by intros ? _ [].
    + eapply Forall_impl; [exact Hev|]. apply worker_no_file_event.
Qed.

Lemma worker_exception_leaves_no_output_witness :
  ∃ e' job' after_step,
    Sample.scrape_races [Sample.url_flat; Sample.url_empty] (lit "dates/gb")
      (lit "gb-2024-05-01") (lit "csv") (lit "flat") writer_csv []
      (lit "date,course,horse") false 6
    = (Mkdir (out_dir_of (lit "dates/gb") (lit "flat")) :: [] ++ after_step, Raise e')
    ∧ job' ∈ enumerate 1 [Sample.url_flat; Sample.url_empty]
    ∧ (Sample.process 2 (lit "flat") [] None job'.1 job'.2).2 = Raise e'
    ∧ Forall (λ ev, ¬ file_event ev) after_step.
Proof.
  apply (worker_exception_leaves_no_output Sample.settings_toml Sample.requests_get
           Sample.html_fromstring Sample.Race Sample.Betfair Sample.as_completed
           [Sample.url_flat; Sample.url_empty] (lit "dates/gb") (lit "gb-2024-05-01")
           (lit "csv") (lit "flat") writer_csv [] (lit "date,course,horse") false 6
           None (2, Sample.url_empty) (Exception (lit "Document is empty"))).
  - intros l. apply reverse_Permutation.
  - reflexivity.
  - by right; left.
  - by vm_compute.
Defined.

(** X13: when enrichment is requested and enabled and the side dataset
    is built, [scrape_races] writes the side artifact before the main
    pass, hence before it starts the pool: under [../data/betfair], in the
    folder of the run and the discipline (joined as paths are), a file
    named after the run with the extension [.csv] whatever the extension
    of the main output, opened through the same writer as the main output;
    its lines are the header of the four fixed columns followed by the
    configured side columns, then one line per side row, a missing value
    as the empty string.  The main pass then runs with the side dataset,
    and starts with its announcement and the start of the pool when there
    is an address. *)
Theorem side_artifact_written_before_the_pool {Doc BetfairData : Type}
    (settings_toml : option Toml)
    (requests_get : str → res (list N))
    (html_fromstring : list N → res Doc)
    (Race : str → Doc → str → list str → option BetfairData → res RaceObj)
    (Betfair : list str → res (BetfairObj (BetfairData := BetfairData)))
    (as_completed : list (nat * str) → list (nat * str))
    (race_urls : list str) (folder_name file_name file_extension code : str)
    (file_writer : writer) (fields : list str) (csv_header : str)
    (fetch_betfair : bool) (jobs : Z) (b : BetfairObj (BetfairData := BetfairData)) :
  fetch_betfair && betfair_enabled settings_toml = true →
  Betfair race_urls = Ok b →
  let run := scrape_races settings_toml requests_get html_fromstring Race Betfair
               as_completed race_urls folder_name file_name file_extension code
               file_writer fields csv_header fetch_betfair jobs in
  let pass := main_pass requests_get html_fromstring Race as_completed (Some b) race_urls
                (file_path_of folder_name file_name file_extension code) code file_writer
                fields csv_header jobs in
  let side := Mkdir (out_dir_of folder_name code)
              :: side_events settings_toml (Some b) race_urls folder_name file_name code
                   file_writer in
  run = (side ++ pass.1, pass.2)
  ∧ file_data (side_path_of folder_name file_name code) side = side_lines settings_toml b
  ∧ (race_urls ≠ [] →
       ∃ banner rest, pass.1 = Print banner :: PoolStart (clamp jobs) :: rest).
Proof.
  intros Hon Hb run pass side. split; [|split].
  - unfold run. rewrite scrape_races_eq. cbn zeta.
    by rewrite betfair_step_events, Hon, Hb.
  - unfold side, side_events, file_data. cbn [foldl file_step app].
    rewrite decide_True by done. rewrite file_data_writes. cbn [foldl file_step app].
    done.
  - intros Hne.
    destruct (main_pass_shape requests_get html_fromstring Race as_completed (Some b)
                race_urls (file_path_of folder_name file_name file_extension code)
                code file_writer fields csv_header jobs Hne)
      as (bn & tail & result & _ & Hpass).
    cbn zeta in Hpass. unfold pass. rewrite Hpass.
    destruct (gather _ _ _ _ _ _ _ _ _).2; by eexists _, _.
Qed.

Lemma side_artifact_written_before_the_pool_witness :
  let race_urls := [Sample.url_flat; Sample.url_hurdle] in
  let run := Sample.scrape_races race_urls (lit "dates/gb") (lit "gb-2024-05-01")
               (lit "csv.gz") (lit "flat") writer_gzip [] (lit "date,course,horse")
               true 6 in
  let side_path := lit "../data/betfair/dates/gb/flat/gb-2024-05-01.csv" in
  ∃ banner rest,
    run.1 = [Mkdir [lit ".."; lit "data"; lit "dates"; lit "gb"; lit "flat"];
             Print (lit "Getting Betfair data..."); BuildBetfair race_urls;
             Mkdir [lit ".."; lit "data"; lit "betfair"; lit "dates"; lit "gb";
                    lit "flat"];
             OpenWrite writer_gzip side_path;
             Write side_path (lit "date,region,off,horse,bsp,wap" ++ [LF]);
             Write side_path (lit "2024-05-01,gb,,Dobbin" ++ [LF]);
             Close side_path;
             Print banner; PoolStart 6] ++ rest.
Proof.
  destruct (side_artifact_written_before_the_pool Sample.settings_toml Sample.requests_get
              Sample.html_fromstring Sample.Race Sample.Betfair Sample.as_completed
              [Sample.url_flat; Sample.url_hurdle] (lit "dates/gb") (lit "gb-2024-05-01")
              (lit "csv.gz") (lit "flat") writer_gzip [] (lit "date,course,horse") true 6
              {| rows := [[Some (lit "2024-05-01"); Some (lit "gb"); None;
                           Some (lit "Dobbin")]];
                 data := () |})
    as (Hrun & _ & Hpool); [done|done|].
  destruct Hpool as (banner & rest & Hpass); [done|].
  exists banner, rest. cbn zeta. unfold Sample.scrape_races. rewrite Hrun, Hpass.
  reflexivity.
Defined.
End PipelineMoreClaims.

(* ===================================================================== *)
(** * scripts/utils/settings.py *)
(* ===================================================================== *)

Lemma split_join sep (pieces : list str) :
  pieces ≠ [] → (∀ p, p ∈ pieces → sep ∉ p) → split sep (join [sep] pieces) = pieces.
Proof.
  induction pieces as [|p ps IH]; [done|]. intros _ Hclean.
  destruct ps as [|q ps].
  { simpl. apply split_no_sep, Hclean. by left. }
  change (join [sep] (p :: q :: ps)) with (p ++ sep :: join [sep] (q :: ps)).
  rewrite split_app, split_no_sep by (apply Hclean; by left).
  rewrite IH; [done|done|]. intros r Hr. apply Hclean. by right.
Qed.

Lemma bind_ext_in {A B} (f g : A → list B) (l : list A) :
  (∀ x, x ∈ l → f x = g x) → l ≫= f = l ≫= g.
Proof.
  induction l as [|x l IH]; intros Hfg; csimpl; [done|].
  rewrite (Hfg x) by by left. rewrite IH; [done|]. intros y Hy. apply Hfg. by right.
Qed.

Lemma sublist_bind {A B} (f g : A → list B) (l : list A) :
  (∀ x, f x `sublist_of` g x) → (l ≫= f) `sublist_of` (l ≫= g).
Proof.
  intros Hfg. induction l as [|x l IH]; csimpl; [done|]. by apply sublist_app.
Qed.

Section SettingsFacts.
Import Settings Shapes.

Lemma foldl_add_field (entries : list (str * bool)) (acc : list str) :
  foldl add_field acc entries = acc ++ enabled_fields entries.
Proof.
  revert acc. induction entries as [|[f enabled] entries IH]; intros acc.
  { unfold enabled_fields. csimpl. by rewrite (right_id_L [] (++)). }
  cbn [foldl]. rewrite IH. unfold add_field, enabled_fields. cbn [fst snd].
  destruct enabled.
  - rewrite filter_cons_True by done. csimpl. by rewrite <-(assoc_L (++)).
  - by rewrite filter_cons_False by done.
Qed.

Lemma foldl_add_group table include_betfair (groups : list str) (acc : list str) :
  foldl (add_group table include_betfair) acc groups
  = acc ++ (groups ≫= λ group,
              group_fields include_betfair group (default [] (dict_get group table))).
Proof.
  revert acc. induction groups as [|g groups IH]; intros acc.
  { csimpl. by rewrite (right_id_L [] (++)). }
  cbn [foldl]. rewrite IH. csimpl. rewrite (assoc_L (++)). f_equal.
  unfold add_group, group_fields.
  destruct (bool_decide _ && negb _); [by rewrite (right_id_L [] (++))|].
  apply foldl_add_field.
Qed.

Lemma dict_get_NoDup {V} (table : list (str * V)) (group : str) (v : V) :
  NoDup (table.*1) → (group, v) ∈ table → dict_get group table = Some v.
Proof.
  induction table as [|[k v'] table IH]; [by intros _ ?%elem_of_nil|].
  csimpl. intros [Hk Hnodup]%NoDup_cons [[= -> ->]|Hin]%elem_of_cons.
  - by rewrite decide_True.
  - rewrite decide_False; [by apply IH|]. intros ->. apply Hk.
    apply list_elem_of_fmap. by exists (group, v).
Qed.

(** [get_fields], group by group over the names of the groups. *)
Lemma get_fields_groups (t : TomlDoc) (include_betfair : option bool) :
  let table := default [] (fields t) in
  let include := default (default false (betfair_data t)) include_betfair in
  get_fields (Some t) include_betfair
  = table.*1 ≫= λ group, group_fields include group (default [] (dict_get group table)).
Proof.
  cbn zeta. unfold get_fields. rewrite foldl_add_group. cbn [app].
  by destruct include_betfair.
Qed.
End SettingsFacts.

Section SettingsClaims.
Import Settings Shapes.

(** X14: [get_fields] returns the fields that are switched on, group by
    group in the order of the settings file and, within a group, in the
    order of the file; the group [betfair] is left out as a whole unless
    enrichment is included; when the caller does not say, that is decided
    by the setting [betfair_data], which counts as off when absent. *)
Theorem get_fields_in_file_order (t : TomlDoc) (include_betfair : option bool) :
  let table := default [] (fields t) in
  let include := default (default false (betfair_data t)) include_betfair in
  NoDup (table.*1) →
  get_fields (Some t) include_betfair
  = table ≫= λ '(group, entries), group_fields include group entries.
Proof.
  intros table include Hnodup. rewrite get_fields_groups. fold table include.
  rewrite list_fmap_bind. apply bind_ext_in. intros [group entries] Hin. cbn.
  by rewrite (dict_get_NoDup _ _ _ Hnodup Hin).
Qed.

Lemma get_fields_in_file_order_witness :
  get_fields (Some Fixtures.settings_doc) None = [lit "date"; lit "course"; lit "horse"]
  ∧ get_fields (Some Fixtures.settings_doc) (Some true)
    = [lit "date"; lit "course"; lit "bsp"; lit "horse"].
Proof.
  split.
  - rewrite (get_fields_in_file_order Fixtures.settings_doc None); [done|].
    apply (bool_decide_unpack _). by vm_compute.
  - rewrite (get_fields_in_file_order Fixtures.settings_doc (Some true)); [done|].
    apply (bool_decide_unpack _). by vm_compute.
Defined.

(** X15: leaving enrichment out removes fields of the group [betfair]
    only, and keeps the others in their order: the fields without
    enrichment are a sublist of the fields with it, and a field that is
    only there with enrichment is a field of that group that is switched
    on. *)
Theorem get_fields_without_betfair_is_sublist (t : TomlDoc) :
  get_fields (Some t) (Some false) `sublist_of` get_fields (Some t) (Some true)
  ∧ ∀ f, f ∈ get_fields (Some t) (Some true) →
         f ∈ get_fields (Some t) (Some false)
         ∨ (f, true) ∈ default [] (dict_get (lit "betfair") (default [] (fields t))).
Proof.
  rewrite !get_fields_groups. cbn [default]. split.
  - apply sublist_bind. intros group. unfold group_fields.
    destruct (bool_decide _); cbn; [apply sublist_nil_l|done].
  - intros f (group & Hf & Hgroup)%list_elem_of_bind.
    destruct (decide (group = lit "betfair")) as [->|Hne].
    + right. unfold group_fields in Hf. rewrite andb_false_r in Hf.
      apply list_elem_of_fmap in Hf as ([f' enabled] & -> & Hin).
      apply list_elem_of_filter in Hin as [Hon Hin]. cbn in Hon. by subst enabled.
    + left. apply list_elem_of_bind. exists group. split; [|done].
      unfold group_fields in *. by rewrite bool_decide_false in * by done.
Qed.

(** X16: the header a [Settings] object is given holds one column per
    field, in the order of the fields, provided there is a field at all and
    no name of a field holds a comma: splitting the header at the commas
    gives the fields back. *)
Theorem csv_header_splits_into_the_fields (t : TomlDoc) :
  let settings := init (Some t) in
  fields_list settings ≠ [] →
  (∀ f, f ∈ fields_list settings → COMMA ∉ f) →
  fields_list settings = get_fields (Some t) None
  ∧ split COMMA (csv_header settings) = fields_list settings.
Proof.
  cbn. intros Hsome Hclean. split; [done|]. by apply split_join.
Qed.

Lemma csv_header_splits_into_the_fields_witness :
  fields_list (init (Some Fixtures.settings_doc))
  = get_fields (Some Fixtures.settings_doc) None
  ∧ split COMMA (csv_header (init (Some Fixtures.settings_doc)))
    = fields_list (init (Some Fixtures.settings_doc)).
Proof.
  apply (csv_header_splits_into_the_fields Fixtures.settings_doc).
  - by vm_compute.
  - apply Forall_forall. apply (bool_decide_unpack _). by vm_compute.
Defined.

(** X17: when the user's settings file exists it alone decides what
    [load_toml] returns: the default file is not consulted, whether it
    exists or not.  In particular a user file that does not decode is not
    replaced by the default file: one line naming the user file is
    printed and [None] is returned. *)
Theorem user_settings_shadow_the_default (tomli_load : list N → loaded)
    (files files' : gmap str (list N)) (content : list N) :
  files !! user_path = Some content →
  files' !! user_path = Some content →
  load_toml tomli_load files = load_toml tomli_load files'
  ∧ (tomli_load content = TOMLDecodeError →
       load_toml tomli_load files
       = ([lit "TomlParseError: ../settings/user_settings.toml"], Ok None))
  ∧ (∀ doc, tomli_load content = Loaded doc →
       load_toml tomli_load files = ([], Ok (Some doc))).
Proof.
  intros Huser Huser'.
  assert (∀ fs : gmap str (list N), fs !! user_path = Some content →
            load_toml tomli_load fs
            = match tomli_load content with
              | Loaded doc => ([], Ok (Some doc))
              | TOMLDecodeError => ([lit "TomlParseError: " ++ user_path], Ok None)
              | LoadError e => ([], Raise e)
              end) as Hload.
  { intros fs Hfs. unfold load_toml, isfile.
    rewrite (bool_decide_true (is_Some (fs !! user_path))) by (rewrite Hfs; by eexists).
    rewrite (bool_decide_false (user_path = default_path))
      by (apply (bool_decide_unpack _); by vm_compute).
    cbn [andb]. rewrite Hfs. by destruct (tomli_load content). }
  rewrite !Hload by done. split; [done|]. split.
  - by intros ->.
  - by intros doc ->.
Qed.

Lemma user_settings_shadow_the_default_witness :
  load_toml Fixtures.tomli_load {[ user_path := [33%N] ]}
  = load_toml Fixtures.tomli_load {[ user_path := [33%N]; default_path := [35%N] ]}
  ∧ load_toml Fixtures.tomli_load {[ user_path := [33%N] ]}
    = ([lit "TomlParseError: ../settings/user_settings.toml"], Ok None).
Proof.
  destruct (user_settings_shadow_the_default Fixtures.tomli_load
              {[ user_path := [33%N] ]}
              {[ user_path := [33%N]; default_path := [35%N] ]} [33%N])
    as (Hsame & Hbroken & _).
  - by vm_compute.
  - by vm_compute.
  - split; [done|]. by apply Hbroken.
Defined.
End SettingsClaims.

(* ===================================================================== *)
(** * scripts/rpscrape.py: the command line *)
(* ===================================================================== *)

Lemma pipeline_events_app t1 t2 :
  Shapes.pipeline_events (t1 ++ t2) = Shapes.pipeline_events t1 ++ Shapes.pipeline_events t2.
Proof. apply bind_app. Qed.

Lemma pipeline_events_pipeline {A} (m : out RpScrape.event A) :
  Shapes.pipeline_events (Cli.pipeline m).1 = m.1.
Proof.
  unfold Cli.pipeline. cbn [fst]. induction m.1 as [|e t IH]; [done|].
  csimpl. by rewrite IH.
Qed.

(** A loop that raises in one of its turns ends there. *)
Lemma for_stops {E A} (before after : list A) (x : A) (body : A → out E ()) (e : exn) :
  (∀ y, y ∈ before → (body y).2 = Ok ()) →
  (body x).2 = Raise e →
  for_ (before ++ x :: after) body
  = (mjoin ((λ y, (body y).1) <$> before) ++ (body x).1, Raise e).
Proof.
  intros Hbefore Hx. induction before as [|y before IH].
  - change ([] ++ x :: after) with (x :: after). rewrite for_cons.
    destruct (body x) as [t r]. cbn [snd] in Hx. by subst r.
  - change ((y :: before) ++ x :: after) with (y :: (before ++ x :: after)).
    rewrite for_cons, fmap_cons. pose proof (Hbefore y ltac:(by left)) as Hy.
    rewrite IH by (intros; apply Hbefore; by right).
    destruct (body y) as [t r]. cbn [fst snd] in *. subst r.
    rewrite out_bind_ok. cbn [fst snd mjoin list_join]. by rewrite (assoc_L (++)).
Qed.

(** What holds of every event of every turn holds of every event of the
    loop, however it ends. *)
Lemma for_all_events {E A} (P : E → Prop) (xs : list A) (body : A → out E ()) :
  (∀ x, Forall P (body x).1) → Forall P (for_ xs body).1.
Proof.
  intros Hbody. induction xs as [|x xs IH]; [constructor|].
  rewrite for_cons. specialize (Hbody x). destruct (body x) as [t [[]|e]]; cbn [fst] in *.
  - rewrite out_bind_ok. cbn [fst]. by apply Forall_app.
  - done.
Qed.

Lemma built_app t1 t2 : Shapes.built (t1 ++ t2) = Shapes.built t1 ++ Shapes.built t2.
Proof. apply bind_app. Qed.

Lemma writers_app t1 t2 :
  Shapes.writers (t1 ++ t2) = Shapes.writers t1 ++ Shapes.writers t2.
Proof. apply bind_app. Qed.

Lemma built_none t :
  Forall (λ e, match e with RpScrape.BuildBetfair _ => False | _ => True end) t →
  Shapes.built t = [].
Proof.
  induction 1 as [|e t He _ IH]; [done|].
  change (e :: t) with ([e] ++ t). rewrite built_app, IH. by destruct e.
Qed.

Lemma writers_all (w : RpScrape.writer) t :
  Forall (λ e, match e with RpScrape.OpenWrite w' _ => w' = w | _ => True end) t →
  Forall (λ w', w' = w) (Shapes.writers t).
Proof.
  induction 1 as [|e t He _ IH]; [constructor|].
  change (e :: t) with ([e] ++ t). rewrite writers_app. apply Forall_app. split; [|done].
  destruct e; try constructor; done.
Qed.

(** Every event of a computation and of what follows it. *)
Lemma out_bind_all {E A B} (P : E → Prop) (m : out E A) (f : A → out E B) :
  Forall P m.1 → (∀ a, Forall P (f a).1) → Forall P (m ≫= f).1.
Proof.
  intros Hm Hf. destruct m as [t [a|e]]; cbn [fst] in *; [|done].
  rewrite out_bind_ok. cbn [fst]. by apply Forall_app.
Qed.

Section PipelineKinds.
Import RpScrape Stated Shapes.
Context {Doc BetfairData : Type}
        (settings_toml : option Toml)
        (requests_get : str → res (list N))
        (html_fromstring : list N → res Doc)
        (Race : str → Doc → str → list str → option BetfairData → res RaceObj)
        (Betfair : list str → res (BetfairObj (BetfairData := BetfairData)))
        (as_completed : list (nat * str) → list (nat * str)).

(** The main pass builds no side dataset, and opens its file through the
    writer it was given. *)
Lemma main_pass_kinds betfair race_urls file_path code file_writer fields csv_header jobs :
  Forall (λ e, match e with
               | BuildBetfair _ => False
               | OpenWrite w _ => w = file_writer
               | _ => True
               end)
    (main_pass requests_get html_fromstring Race as_completed betfair race_urls
       file_path code file_writer fields csv_header jobs).1.
Proof.
  destruct (decide (race_urls = [])) as [->|Hne].
  { rewrite main_pass_empty. by repeat constructor. }
  destruct (main_pass_shape requests_get html_fromstring Race as_completed betfair race_urls
              file_path code file_writer fields csv_header jobs Hne)
    as (bn & tail & result & Htail & Hpass).
  apply main_pass_tail in Htail.
  cbn zeta in Hpass. rewrite Hpass. clear Hpass.
  destruct (gather_events requests_get html_fromstring Race as_completed
              (length race_urls) code fields betfair (enumerate 1 race_urls)) as [Hev _].
  set (gathered := gather _ _ _ _ _ _ _ _ _) in *.
  assert (Forall (λ e, match e with
                       | BuildBetfair _ => False
                       | OpenWrite w _ => w = file_writer
                       | _ => True
                       end)
            (Print bn :: PoolStart (clamp jobs)
               :: ((λ job : nat * str, Submit job.1 job.2) <$> enumerate 1 race_urls)
               ++ gathered.1)) as Hupto.
  { do 2 (constructor; [done|]). apply Forall_app. split.
    - apply Forall_fmap, Forall_forall. by intros.
    - eapply Forall_impl; [exact Hev|]. by intros []. }
  destruct gathered.2; cbn [fst]; [|done].
  apply Forall_app. split; [done|]. constructor; [done|].
  apply Forall_app. split.
  - apply Forall_fmap, Forall_forall. by intros.
  - constructor; [done|]. eapply Forall_impl; [exact Htail|]. by intros [].
Qed.

(** The side-dataset step builds the side dataset once when enrichment is
    requested and enabled, and opens its file through the writer it was
    given. *)
Lemma betfair_step_kinds race_urls folder_name file_name code file_writer fetch_betfair :
  let step := betfair_step settings_toml Betfair race_urls folder_name file_name code
                file_writer fetch_betfair in
  built step.1 = (if fetch_betfair && betfair_enabled settings_toml then [race_urls] else [])
  ∧ Forall (λ e, match e with OpenWrite w _ => w = file_writer | _ => True end) step.1.
Proof.
  cbn zeta. rewrite betfair_step_events.
  destruct (fetch_betfair && betfair_enabled settings_toml); [|by split; [|constructor]].
  destruct (Betfair race_urls) as [b|e]; [|by split; [|repeat constructor]].
  unfold side_events. cbn [fst app]. split.
  - change (built (Print ?a :: BuildBetfair race_urls :: Mkdir ?d :: OpenWrite ?w ?p :: ?t))
      with (race_urls :: built t).
    f_equal. apply built_none, Forall_app. split; [|by repeat constructor].
    apply Forall_fmap, Forall_forall. by intros.
  - do 4 (constructor; [done|]). apply Forall_app. split; [|by repeat constructor].
    apply Forall_fmap, Forall_forall. by intros.
Qed.

Lemma scrape_races_kinds race_urls folder_name file_name file_extension code file_writer
    fields csv_header fetch_betfair jobs :
  let run := scrape_races settings_toml requests_get html_fromstring Race Betfair
               as_completed race_urls folder_name file_name file_extension code
               file_writer fields csv_header fetch_betfair jobs in
  built run.1 = (if fetch_betfair && betfair_enabled settings_toml then [race_urls] else [])
  ∧ Forall (λ w, w = file_writer) (writers run.1).
Proof.
  cbn zeta. rewrite scrape_races_eq. cbn zeta.
  destruct (betfair_step_kinds race_urls folder_name file_name code file_writer
              fetch_betfair) as [Hbuilt Hwriters].
  cbn zeta in Hbuilt, Hwriters.
  destruct (betfair_step _ _ _ _ _ _ _ _) as [side [betfair|e]]; cbn [fst snd] in *.
  - pose proof (main_pass_kinds betfair race_urls
                  (file_path_of folder_name file_name file_extension code)
                  code file_writer fields csv_header jobs) as Hpass.
    split.
    + change (built (Mkdir ?d :: ?t)) with (built t).
      rewrite built_app, Hbuilt, (built_none (main_pass _ _ _ _ _ _ _ _ _ _ _ _).1).
      * by rewrite (right_id_L [] (++)).
      * eapply Forall_impl; [exact Hpass|]. by intros [].
    + change (writers (Mkdir ?d :: ?t)) with (writers t).
      rewrite writers_app. apply Forall_app. split; apply writers_all; [done|].
      eapply Forall_impl; [exact Hpass|]. by intros [].
  - split; [done|]. change (writers (Mkdir ?d :: ?t)) with (writers t).
    by apply writers_all.
Qed.
End PipelineKinds.

Section CliFacts.
Import Cli Shapes.

(** X18: [check_for_update] asks only when an update is available, and
    pulls the update only when the answer, stripped and in lower case, is
    [y]; it returns [True] only when it pulled and the pull succeeded. *)
Theorem update_pulled_only_with_consent (update_available : res bool)
    (answer : str → res str) (pull_latest : res bool) :
  let run := check_for_update update_available answer pull_latest in
  let prompt := lit "Update available. Do you want to update? [y/N] " in
  (Prompt prompt ∈ run.1 ↔ update_available = Ok true)
  ∧ (PullLatest ∈ run.1 ↔ update_available = Ok true ∧ answer prompt = Ok (lit "y"))
  ∧ (run.2 = Ok true → PullLatest ∈ run.1 ∧ pull_latest = Ok true).
Proof.
  cbn zeta. unfold check_for_update, out_lift, emit, print.
  destruct update_available as [[|]|e]; cbn.
  2,3: by (split; [|split]; [split; [intros ?%elem_of_nil|]|split; [intros ?%elem_of_nil|intros []]|]).
  destruct (answer _) as [choice|e]; cbn.
  2: { split; [split; [done|by left]|]. split; [|done].
       split; [intros [?|?%elem_of_nil]%elem_of_cons; done|by intros []]. }
  destruct (decide (choice ≠ lit "y")) as [Hne|Heq]; cbn.
  { split; [split; [done|by left]|]. split; [|done].
    split; [intros [?|?%elem_of_nil]%elem_of_cons; done|]. intros [_ [= ->]]. done. }
  apply dec_stable in Heq as ->.
  destruct pull_latest as [[|]|e]; cbn.
  all: split; [split; [done|by left]|].
  all: split; [split; [done|by right; left]|].
  all: try done.
  intros _. split; [by right; left|done].
Qed.

(** X19: in the date mode the side dataset is built for a day from the
    first of February 2024 on, and then only when the settings switch
    enrichment on; for an earlier day it is never built, whatever the
    settings.  When it is built, it is built once, from the addresses
    found for that day. *)
Theorem side_dataset_only_from_february_2024 {Doc BetfairData : Type}
    (listCourseNameLinks : str → res (list RpScrape.anchor))
    (courses : str → list (str * str))
    (requests_get : str → res (list N))
    (html_fromstring : list N → res Doc)
    (Race : str → Doc → str → list str → option BetfairData → res RpScrape.RaceObj)
    (Betfair : list str → res (RpScrape.BetfairObj (BetfairData := BetfairData)))
    (as_completed : list (nat * str) → list (nat * str))
    (toml : Settings.TomlDoc) (args : Parsed) (region file_extension : str)
    (file_writer : RpScrape.writer) (race_date : date) (race_urls : list str) :
  RpScrape.get_race_urls_date listCourseNameLinks courses [isoformat race_date] region
    = Ok race_urls →
  let day_run := scrape_date listCourseNameLinks courses requests_get html_fromstring
                   Race Betfair as_completed toml args region file_extension file_writer
                   race_date in
  (year race_date < 2024 ∨ (year race_date = 2024 ∧ month race_date < 2) →
     built (pipeline_events day_run.1) = [])
  ∧ (2024 < year race_date
     ∨ (year race_date = 2024 ∧ (2 < month race_date
                                 ∨ (month race_date = 2 ∧ 1 ≤ day race_date))) →
     built (pipeline_events day_run.1)
     = if default false (Settings.betfair_data toml) then [race_urls] else []).
Proof.
  intros Hurls day_run.
  assert (built (pipeline_events day_run.1)
          = if default false (Settings.betfair_data toml) && date_ge race_date betfair_since
            then [race_urls] else []) as Hbuilt.
  { unfold day_run, scrape_date. rewrite Hurls. unfold out_lift. rewrite out_bind_ok.
    cbn [app fst]. unfold scrape. rewrite pipeline_events_pipeline.
    match goal with |- context [RpScrape.scrape_races ?s ?g ?h ?r ?b ?c ?u ?fo ?fi ?ex ?co
                                  ?w ?fs ?hd ?fb ?j] =>
      destruct (scrape_races_kinds s g h r b c u fo fi ex co w fs hd fb j) as [Hb _]
    end.
    cbn zeta in Hb. rewrite Hb. unfold RpScrape.betfair_enabled, Settings.pipeline_view.
    cbn [RpScrape.betfair_data].
    by destruct (default false (Settings.betfair_data toml)), (date_ge _ _). }
  rewrite Hbuilt. unfold date_ge, betfair_since. cbn [year month day].
  split.
  - intros Hearly. rewrite andb_comm.
    destruct (2024 <? year race_date) eqn:H1; [apply Nat.ltb_lt in H1; lia|].
    destruct (year race_date <? 2024) eqn:H2; [done|]. apply Nat.ltb_ge in H1, H2.
    destruct (2 <? month race_date) eqn:H3; [apply Nat.ltb_lt in H3; lia|].
    destruct (month race_date <? 2) eqn:H4; [done|]. apply Nat.ltb_ge in H4. lia.
  - intros Hlate. rewrite andb_comm.
    destruct (2024 <? year race_date) eqn:H1; [done|]. apply Nat.ltb_ge in H1.
    destruct (year race_date <? 2024) eqn:H2; [apply Nat.ltb_lt in H2; lia|].
    destruct (2 <? month race_date) eqn:H3; [done|]. apply Nat.ltb_ge in H3.
    destruct (month race_date <? 2) eqn:H4; [apply Nat.ltb_lt in H4; lia|].
    destruct (1 <=? day race_date) eqn:H5; [done|]. apply Nat.leb_gt in H5. lia.
Qed.

Lemma side_dataset_only_from_february_2024_witness :
  built (pipeline_events
           (Fixtures.scrape_date Sample.listCourseNameLinks Fixtures.last_of_january).1)
  = []
  ∧ built (pipeline_events
             (Fixtures.scrape_date Sample.listCourseNameLinks
                Fixtures.first_of_february).1)
    = [[lit "https://www.racingpost.com/results/32/newcastle/2024-05-01/1";
        lit "https://www.racingpost.com/results/4/ayr/2024-05-01/2"]].
Proof.
  split.
  - eapply (side_dataset_only_from_february_2024 Sample.listCourseNameLinks Sample.courses
              Sample.requests_get Sample.html_fromstring Sample.Race Sample.Betfair
              Sample.as_completed Fixtures.enriched_doc Fixtures.args_dates (lit "gb")
              (lit "csv.gz") RpScrape.writer_gzip Fixtures.last_of_january).
    + by vm_compute.
    + right. cbn. lia.
  - eapply (side_dataset_only_from_february_2024 Sample.listCourseNameLinks Sample.courses
              Sample.requests_get Sample.html_fromstring Sample.Race Sample.Betfair
              Sample.as_completed Fixtures.enriched_doc Fixtures.args_dates (lit "gb")
              (lit "csv.gz") RpScrape.writer_gzip Fixtures.first_of_february).
    + by vm_compute.
    + right. cbn. lia.
Defined.

(** X20: a run of [main] over the dates of the command line, with no
    check for an update, takes the dates in order and ends at the first
    date whose run raises, with that exception: the dates after it are not
    looked at, so that nothing is fetched or written for them. *)
Theorem date_run_stops_at_first_failing_date {Doc BetfairData : Type}
    (update_available : res bool) (answer : str → res str) (pull_latest : res bool)
    (course_name : option str → res str)
    (principleRaceResults : str → res (list RpScrape.race_entry))
    (listCourseNameLinks : str → res (list RpScrape.anchor))
    (courses : str → list (str * str))
    (requests_get : str → res (list N))
    (html_fromstring : list N → res Doc)
    (Race : str → Doc → str → list str → option BetfairData → res RpScrape.RaceObj)
    (Betfair : list str → res (RpScrape.BetfairObj (BetfairData := BetfairData)))
    (as_completed : list (nat * str) → list (nat * str))
    (toml : Settings.TomlDoc) (args : Parsed) (region : str)
    (before after : list date) (failing : date) (e : exn) :
  Settings.auto_update toml = Some false →
  arg_region args = Some region → region ≠ [] →
  from_option truthy false (arg_date args) = true →
  dates args = before ++ failing :: after →
  let gzip := default false (Settings.gzip_output toml) in
  let day_run := scrape_date listCourseNameLinks courses requests_get html_fromstring
                   Race Betfair as_completed toml args region
                   (if gzip then lit "csv.gz" else lit "csv")
                   (if gzip then RpScrape.writer_gzip else RpScrape.writer_csv) in
  (∀ race_date, race_date ∈ before → (day_run race_date).2 = Ok ()) →
  (day_run failing).2 = Raise e →
  main update_available answer pull_latest course_name principleRaceResults
    listCourseNameLinks courses requests_get html_fromstring Race Betfair as_completed
    (Some toml) (Ok args)
  = (mjoin ((λ race_date, (day_run race_date).1) <$> before) ++ (day_run failing).1,
     Raise e).
Proof.
  intros Hupdate Hregion Hne Hdate Hdates gzip day_run Hbefore Hfailing.
  unfold main. rewrite Hupdate. unfold out_lift. rewrite out_bind_ok. cbn beta iota.
  change (mret () : out event ()) with (([], Ok ()) : out event ()).
  rewrite out_bind_ok. cbn beta zeta. rewrite out_bind_ok. cbn beta.
  rewrite Hdate, Hregion, Hdates.
  change (default [] (Some region)) with region.
  change (from_option truthy false (Some region)) with (truthy region).
  unfold truthy. rewrite bool_decide_false by done. cbn [negb andb].
  fold gzip. fold day_run.
  rewrite (for_stops before after failing day_run e Hbefore Hfailing).
  reflexivity.
Qed.

Lemma date_run_stops_at_first_failing_date_witness :
  main (Ok false) (λ _, Ok []) (Ok false) (λ _, Ok []) Sample.principleRaceResults
    Fixtures.broken_links Sample.courses Sample.requests_get Sample.html_fromstring
    Sample.Race Sample.Betfair Sample.as_completed
    (Some Fixtures.enriched_doc) (Ok Fixtures.args_dates)
  = ([], Raise (IndexError (lit "list index out of range"))).
Proof.
  apply (date_run_stops_at_first_failing_date (Ok false) (λ _, Ok []) (Ok false)
           (λ _, Ok []) Sample.principleRaceResults Fixtures.broken_links Sample.courses
           Sample.requests_get Sample.html_fromstring Sample.Race Sample.Betfair
           Sample.as_completed Fixtures.enriched_doc Fixtures.args_dates (lit "gb")
           [] [Fixtures.first_of_february] Fixtures.last_of_january
           (IndexError (lit "list index out of range"))).
  - done.
  - done.
  - done.
  - by vm_compute.
  - done.
  - by intros ? ?%elem_of_nil.
  - by vm_compute.
Defined.

(** X21: whatever the arguments on the command line, every file a run
    of [main] with arguments opens is opened through the writer the
    setting [gzip_output] selects: the compressing one when it is on, the
    plain one when it is off or absent.  That includes the side
    artifact. *)
Theorem output_files_follow_gzip_setting {Doc BetfairData : Type}
    (update_available : res bool) (answer : str → res str) (pull_latest : res bool)
    (course_name : option str → res str)
    (principleRaceResults : str → res (list RpScrape.race_entry))
    (listCourseNameLinks : str → res (list RpScrape.anchor))
    (courses : str → list (str * str))
    (requests_get : str → res (list N))
    (html_fromstring : list N → res Doc)
    (Race : str → Doc → str → list str → option BetfairData → res RpScrape.RaceObj)
    (Betfair : list str → res (RpScrape.BetfairObj (BetfairData := BetfairData)))
    (as_completed : list (nat * str) → list (nat * str))
    (toml : Settings.TomlDoc) (parsed : res Parsed) :
  let run := main update_available answer pull_latest course_name principleRaceResults
               listCourseNameLinks courses requests_get html_fromstring Race Betfair
               as_completed (Some toml) parsed in
  Forall (λ w, w = if default false (Settings.gzip_output toml)
                   then RpScrape.writer_gzip else RpScrape.writer_csv)
    (writers (pipeline_events run.1)).
Proof.
  cbn zeta.
  set (chosen := if default false (Settings.gzip_output toml)
                 then RpScrape.writer_gzip else RpScrape.writer_csv).
  set (P := λ e : event, match e with
                         | Pipeline (RpScrape.OpenWrite w _) => w = chosen
                         | _ => True
                         end).
  assert (∀ t, Forall P t → Forall (λ w, w = chosen) (writers (pipeline_events t)))
    as Hproject.
  { induction 1 as [|ev t Hev _ IH]; [constructor|].
    change (ev :: t) with ([ev] ++ t). rewrite pipeline_events_app, writers_app.
    apply Forall_app. split; [|done].
    destruct ev as [[]| |]; try constructor; done. }
  assert (∀ {A} (m : out RpScrape.event A),
            Forall (λ w, w = chosen) (writers m.1) → Forall P (pipeline m).1) as Hlift.
  { intros A m. unfold pipeline. cbn [fst]. induction m.1 as [|ev t IH]; [constructor|].
    change (ev :: t) with ([ev] ++ t). rewrite writers_app, Forall_app. intros [Hev Ht].
    csimpl. constructor; [|by apply IH].
    destruct ev; try done. by apply Forall_cons in Hev as [? _]. }
  apply Hproject. unfold main.
  apply out_bind_all; [destruct (Settings.auto_update toml); constructor|]. intros auto.
  apply out_bind_all.
  { destruct auto; [|constructor]. apply out_bind_all; [|constructor].
    unfold check_for_update, out_lift, emit, print.
    destruct update_available as [[|]|?]; cbn; try constructor; try done.
    destruct (answer _) as [choice|?]; cbn; try constructor; try done.
    destruct (decide _); cbn; try constructor; try done.
    destruct pull_latest as [[|]|?]; cbn; by repeat constructor. }
  intros _. cbn zeta. fold chosen.
  apply out_bind_all; [destruct parsed; constructor|]. intros args.
  destruct (from_option truthy false (arg_date args)
            && from_option truthy false (arg_region args)).
  - apply for_all_events. intros race_date. unfold scrape_date.
    apply out_bind_all; [destruct (RpScrape.get_race_urls_date _ _ _ _); constructor|].
    intros race_urls. unfold scrape. apply Hlift.
    match goal with |- context [RpScrape.scrape_races ?s ?g ?h ?r ?b ?c ?u ?fo ?fi ?ex ?co
                                  ?w ?fs ?hd ?fb ?j] =>
      destruct (scrape_races_kinds s g h r b c u fo fi ex co w fs hd fb j) as [_ Hw]
    end.
    exact Hw.
  - apply out_bind_all.
    { destruct (from_option truthy false (arg_region args)); [exact (Forall_nil_2 _)|].
      destruct (course_name (arg_course args)); exact (Forall_nil_2 _). }
    intros folder_name.
    apply out_bind_all; [destruct (RpScrape.get_race_urls _ _ _ _); constructor|].
    intros race_urls. unfold scrape. apply Hlift.
    match goal with |- context [RpScrape.scrape_races ?s ?g ?h ?r ?b ?c ?u ?fo ?fi ?ex ?co
                                  ?w ?fs ?hd ?fb ?j] =>
      destruct (scrape_races_kinds s g h r b c u fo fi ex co w fs hd fb j) as [_ Hw]
    end.
    exact Hw.
Qed.
End CliFacts.

Lemma dict_get_key {V} (table : list (str * V)) (group : str) (v : V) :
  Settings.dict_get group table = Some v → group ∈ table.*1.
Proof.
  induction table as [|[k v'] table IH]; [done|]. csimpl.
  destruct (decide (k = group)) as [->|Hne]; [by left|]. right. by apply IH.
Qed.

Section CliHeader.
Import Cli Shapes.

(** X22: the header of the output of a day lists the fields with
    enrichment included, whether or not the side dataset is fetched for
    that day: when the day's run returns and found an address, the first
    line of its output file (the file named [<region>-<date>.<extension>]
    in the folder [dates/<region>] and of the discipline under [../data],
    joined as paths are) is the header made of [get_fields] with
    enrichment, in which every field of the group [betfair] that is
    switched on appears, even for a day before February 2024 or with the
    setting [betfair_data] off. *)
Theorem day_header_lists_side_fields {Doc BetfairData : Type}
    (listCourseNameLinks : str → res (list RpScrape.anchor))
    (courses : str → list (str * str))
    (requests_get : str → res (list N))
    (html_fromstring : list N → res Doc)
    (Race : str → Doc → str → list str → option BetfairData → res RpScrape.RaceObj)
    (Betfair : list str → res (RpScrape.BetfairObj (BetfairData := BetfairData)))
    (as_completed : list (nat * str) → list (nat * str))
    (toml : Settings.TomlDoc) (args : Parsed) (region file_extension : str)
    (file_writer : RpScrape.writer) (race_date : date) (race_urls : list str) :
  RpScrape.get_race_urls_date listCourseNameLinks courses [isoformat race_date] region
    = Ok race_urls →
  race_urls ≠ [] →
  let day_run := scrape_date listCourseNameLinks courses requests_get html_fromstring
                   Race Betfair as_completed toml args region file_extension file_writer
                   race_date in
  day_run.2 = Ok () →
  let file_path :=
    path_str (path_div (path_div (path_div (path_of_str (lit "../data"))
                                    (lit "dates/" ++ region))
                          (arg_type args))
                (region ++ lit "-" ++ isoformat race_date ++ lit "." ++ file_extension)) in
  let header := join (lit ",") (Settings.get_fields (Some toml) (Some true)) in
  (∃ rows, RpScrape.file_data file_path (pipeline_events day_run.1)
           = (header ++ [LF]) :: rows)
  ∧ ∀ f, (f, true) ∈ default [] (Settings.dict_get (lit "betfair")
                                   (default [] (Settings.fields toml))) →
         f ∈ Settings.get_fields (Some toml) (Some true).
Proof.
  intros Hurls Hne day_run Hok file_path header. split.
  - revert Hok. unfold day_run, scrape_date. rewrite Hurls. unfold out_lift.
    rewrite out_bind_ok. cbn [app fst snd]. unfold scrape.
    rewrite pipeline_events_pipeline. unfold pipeline. cbn [snd].
    rewrite scrape_races_eq. cbn zeta.
    destruct (RpScrape.betfair_step _ _ _ _ _ _ _ _) as [side [betfair|e]]; [|done].
    cbn [fst snd].
    match goal with |- context [RpScrape.main_pass ?g ?h ?r ?c ?b ?u ?fp ?co ?w ?fs ?hd ?j] =>
      destruct (main_pass_shape g h r c b u fp co w fs hd j Hne)
        as (bn & tail & result & Htail & Hpass);
      assert (path_str fp = file_path) as Hpath
    end.
    { unfold RpScrape.file_path_of, RpScrape.out_dir_of, file_path.
      by rewrite <-!(assoc_L (++)). }
    apply main_pass_tail in Htail.
    cbn zeta in Hpass. rewrite Hpass. clear Hpass. rewrite Hpath.
    destruct (RpScrape.gather _ _ _ _ _ _ _ _ _).2 as [results|e]; [|done].
    intros _. cbn [fst]. eexists.
    rewrite app_comm_cons, (assoc_L (++)).
    by apply (file_data_opened file_path).
  - intros f Hf. rewrite get_fields_groups. cbn [default].
    destruct (Settings.dict_get (lit "betfair") (default [] (Settings.fields toml)))
      as [entries|] eqn:Hget; [|by apply elem_of_nil in Hf].
    apply list_elem_of_bind. exists (lit "betfair").
    split; [|by apply (dict_get_key _ _ entries)].
    rewrite Hget. unfold group_fields. rewrite andb_false_r. unfold enabled_fields.
    apply list_elem_of_fmap. exists (f, true). split; [done|].
    by apply list_elem_of_filter.
Qed.

Lemma day_header_lists_side_fields_witness :
  (∃ rows,
     RpScrape.file_data (lit "../data/dates/gb/flat/gb-2024-01-31.csv.gz")
       (pipeline_events
          (Fixtures.scrape_date Sample.listCourseNameLinks Fixtures.last_of_january).1)
     = (lit "date,course,bsp,wap" ++ [LF]) :: rows)
  ∧ built (pipeline_events
             (Fixtures.scrape_date Sample.listCourseNameLinks
                Fixtures.last_of_january).1) = [].
Proof.
  split.
  - eapply (day_header_lists_side_fields Sample.listCourseNameLinks Sample.courses
              Sample.requests_get Sample.html_fromstring Sample.Race Sample.Betfair
              Sample.as_completed Fixtures.enriched_doc Fixtures.args_dates (lit "gb")
              (lit "csv.gz") RpScrape.writer_gzip Fixtures.last_of_january).
    + by vm_compute.
    + done.
    + by vm_compute.
  - by vm_compute.
Defined.
End CliHeader.
